(** * Product catalog: variants, attributes and derived fields

    A shallow embedding of the admin product controller
    (admin.product.controller.ts) and of the Product model
    (product.model: schema, hooks and virtuals), with the properties of
    the variant/attribute consistency model proved about them.

    Conventions of the embedding
    - a JavaScript string is a [string]: its sequence of code units, taken
      below 256 (the Latin-1 range, on which [toLowerCase] and [trim] are
      written out in full);
    - a JavaScript number ([price], [salePrice], [stock], [totalStock]) is
      a binary64 value: [Num.t], the [spec_float] of the standard library
      with its IEEE 754 operations at precision 53, so that sums, quotients
      and [Math.round] round as they do in the code, and the infinities, the
      two zeros and NaN are there; a [Date] is its time value in
      milliseconds ([Z]);
    - an optional field ([undefined] or [null] on a document) is an [option];
    - a [Map] keyed by strings is a [gmap string _], a [Set] of strings a
      [gset string]; [Array.from(new Set(xs))] is [distinct xs] (first
      occurrences, in insertion order);
    - the two collections (products, attributes) are lists of documents and
      every operation passes them explicitly. *)

From Stdlib Require Import Ascii String ZArith QArith Qround Lia SpecFloat.
From stdpp Require Import base option list strings gmap.

Local Open Scope string_scope.

(** ** JavaScript strings *)

Module Js.

Definition code (c : ascii) : N := N_of_ascii c.

Definition in_range (lo hi : N) (c : ascii) : bool :=
  ((lo <=? code c) && (code c <=? hi))%N.

(** [[a-z0-9]] *)
Definition is_lower_alnum (c : ascii) : bool :=
  in_range 97 122 c || in_range 48 57 c.

(** [[a-fA-F0-9]] *)
Definition is_hex (c : ascii) : bool :=
  in_range 97 102 c || in_range 65 70 c || in_range 48 57 c.

(** [\s] on code units below 256: TAB, LF, VT, FF, CR, SPACE, NBSP. *)
Definition is_space (c : ascii) : bool :=
  in_range 9 13 c || (code c =? 32)%N || (code c =? 160)%N.

(** Line terminators (what [.] does not match) below 256: LF and CR. *)
Definition is_line_terminator (c : ascii) : bool :=
  (code c =? 10)%N || (code c =? 13)%N.

(** [String.prototype.toLowerCase] on one code unit below 256:
    A-Z and the upper-case letters of U+00C0..U+00DE (U+00D7 is the
    multiplication sign) move up by 32. *)
Definition lower_char (c : ascii) : ascii :=
  if in_range 65 90 c
     || (in_range 192 222 c && negb (code c =? 215)%N)
  then ascii_of_N (code c + 32)
  else c.

Definition chars (s : string) : list ascii := list_ascii_of_string s.
Definition str (l : list ascii) : string := string_of_list_ascii l.

Fixpoint drop_while (f : ascii -> bool) (l : list ascii) : list ascii :=
  match l with
  | [] => []
  | c :: t => if f c then drop_while f t else l
  end.

Definition toLowerCase (s : string) : string := str (map lower_char (chars s)).

Definition trim_chars (l : list ascii) : list ascii :=
  rev (drop_while is_space (rev (drop_while is_space l))).

Definition trim (s : string) : string := str (trim_chars (chars s)).

(** [String.prototype.toUpperCase] on one code unit below 256: a-z and
    the lower-case letters of U+00E0..U+00FE (U+00F7 is the division sign)
    move down by 32, and U+00DF becomes SS. The upper-case forms of U+00B5
    and U+00FF lie beyond 255: these two code units are left as they
    are. *)
Definition upper_chars (c : ascii) : list ascii :=
  if in_range 97 122 c
     || (in_range 224 254 c && negb (code c =? 247)%N)
  then [ascii_of_N (code c - 32)]
  else if (code c =? 223)%N then ["S"%char; "S"%char]
  else [c].

Definition toUpperCase (s : string) : string :=
  str (flat_map upper_chars (chars s)).

(** [s.replace(/[^a-z0-9]+/g, "-")]: every maximal run of code units
    outside [a-z0-9] becomes one hyphen. [in_run] tells that the run
    the scan is in has already produced its hyphen. *)
Fixpoint replace_runs (in_run : bool) (l : list ascii) : list ascii :=
  match l with
  | [] => []
  | c :: t =>
      if is_lower_alnum c then c :: replace_runs false t
      else if in_run then replace_runs true t
      else "-"%char :: replace_runs true t
  end.

Definition is_hyphen (c : ascii) : bool := (code c =? 45)%N.

(** [s.replace(/(^-|-$)+/g, "")]. Without the [m] flag [^-] can only match
    at index 0 and [-$] only at the last index, so the global replacement
    removes a hyphen at index 0, and then a hyphen at the last index of
    what is left (the repetition [+] joins the two when the string is
    exactly two hyphens). *)
Definition drop_first_hyphen (l : list ascii) : list ascii :=
  match l with
  | c :: t => if is_hyphen c then t else l
  | [] => []
  end.

Fixpoint drop_last_hyphen (l : list ascii) : list ascii :=
  match l with
  | [] => []
  | [c] => if is_hyphen c then [] else [c]
  | c :: t => c :: drop_last_hyphen t
  end.

Definition strip_edges (l : list ascii) : list ascii :=
  drop_last_hyphen (drop_first_hyphen l).

(** The shape of a normalised slug, read left to right: code units of
    [a-z0-9] and single hyphens, no hyphen directly after another
    ([after_hyphen] holds at the start when a hyphen may not come first). *)
Fixpoint slug_run (after_hyphen : bool) (l : list ascii) : bool :=
  match l with
  | [] => true
  | c :: t =>
      if is_lower_alnum c then slug_run false t
      else is_hyphen c && negb after_hyphen && slug_run true t
  end.

(** Whether the text ends with a hyphen, [b] telling it of what precedes [l]. *)
Fixpoint ends_hyphen_from (b : bool) (l : list ascii) : bool :=
  match l with
  | [] => b
  | c :: t => ends_hyphen_from (is_hyphen c) t
  end.

Definition slug_shaped (l : list ascii) : Prop :=
  slug_run true l = true /\ ends_hyphen_from false l = false.

(** The four steps of [normalizeSlug] on code units. *)
Definition normalize_chars (l : list ascii) : list ascii :=
  strip_edges (replace_runs false (trim_chars (map lower_char l))).

(** [/^[a-fA-F0-9]{24}$/.test(s)] *)
Definition isHex24 (s : string) : bool :=
  (length (chars s) =? 24)%nat && forallb is_hex (chars s).

(** [/^https?:\/\/[^\s/$.?#].[^\s]*$/i.test(v)] *)
Definition url_tail (l : list ascii) : bool :=
  match l with
  | c1 :: c2 :: rest =>
      negb (is_space c1)
      && negb (existsb (fun d => (code c1 =? code d)%N)
                 ["/"; "$"; "."; "?"; "#"]%char)
      && negb (is_line_terminator c2)
      && forallb (fun c => negb (is_space c)) rest
  | _ => false
  end.

Definition strip_prefix_ci (p : string) (l : list ascii) : option (list ascii) :=
  let n := length (chars p) in
  if decide (map lower_char (take n l) = chars p) then Some (drop n l) else None.

Definition urlValidator (v : string) : bool :=
  match strip_prefix_ci "https://" (chars v) with
  | Some rest => url_tail rest
  | None =>
      match strip_prefix_ci "http://" (chars v) with
      | Some rest => url_tail rest
      | None => false
      end
  end.

End Js.

(** The slug normalisation written inline in [create] and [updateById]:
    [String(slug).toLowerCase().trim().replace(/[^a-z0-9]+/g, "-")
       .replace(/(^-|-$)+/g, "")]. *)
Definition normalizeSlug (s : string) : string :=
  Js.str (Js.strip_edges (Js.replace_runs false (Js.chars (Js.trim (Js.toLowerCase s))))).

(** The slug the [pre("save")] hook of the Product schema derives from the
    title: the same chain without [trim]. *)
Definition slugFromTitle (s : string) : string :=
  Js.str (Js.strip_edges (Js.replace_runs false (Js.chars (Js.toLowerCase s)))).

(** ** Data model *)

(** A field of a request body: absent, [null], or a value. *)
Inductive field (A : Type) : Type :=
  | Undefined
  | Null
  | Val (a : A).
Arguments Undefined {A}.
Arguments Null {A}.
Arguments Val {A} a.

(** [attributesValueId: string | string[]] *)
Inductive ValueIds : Type :=
  | One (id : string)
  | Many (ids : list string).

(** [const toArray = (v) => (Array.isArray(v) ? v : [v])] *)
Definition toArray (v : ValueIds) : list string :=
  match v with
  | One id => [id]
  | Many ids => ids
  end.

Module AttributeType.
Inductive t : Type := text | color | size | number | select.
End AttributeType.

Module AttributeValue.
Record t : Type := mk {
  _id : string;
  label : string;
  value : option string;
  meta : option string
}.
End AttributeValue.

Module Attribute.
Record t : Type := mk {
  _id : string;
  name : string;
  code : string;
  type : AttributeType.t;
  values : list AttributeValue.t;
  isActive : bool
}.
End Attribute.

(** ** JavaScript numbers

    A number is a binary64 value. The arithmetic is the one of IEEE 754 as
    the standard library specifies it ([SFadd] and the like, round to
    nearest, ties to even) at precision 53 and maximal exponent 1024.
    Every binary64 value is a [spec_float]; what is proved below is proved
    of every [spec_float], so also of the mantissa and exponent pairs that
    denote no binary64 value. *)
Module Num.

Definition t : Type := spec_float.

Definition prec : Z := 53.
Definition emax : Z := 1024.

Definition zero : t := S754_zero false.
Definition infinity : t := S754_infinity false.

(** The number an integer literal denotes (the nearest binary64 value). *)
Definition ofZ (n : Z) : t := binary_normalize prec emax n 0 false.

Definition add : t -> t -> t := SFadd prec emax.
Definition sub : t -> t -> t := SFsub prec emax.
Definition mul : t -> t -> t := SFmul prec emax.
Definition div : t -> t -> t := SFdiv prec emax.

(** The number a decimal literal [n / 10^k] denotes, for the short
    literals of the examples (numerator and denominator are exact, so the
    quotient is the nearest binary64 value). *)
Definition dec (n : Z) (k : nat) : t := div (ofZ n) (ofZ (10 ^ Z.of_nat k)).

(** [x < y], [x <= y] and [x === y]: all false when NaN is involved. *)
Definition ltb : t -> t -> bool := SFltb.
Definition leb : t -> t -> bool := SFleb.
Definition eqb : t -> t -> bool := SFeqb.

Definition isNaN (x : t) : bool :=
  match x with
  | S754_nan => true
  | _ => false
  end.

(** [!x]: the two zeros and NaN *)
Definition falsy (x : t) : bool :=
  match x with
  | S754_zero _ | S754_nan => true
  | _ => false
  end.

(** [x || 0] where [x] is a number or [undefined] *)
Definition or0 (x : option t) : t :=
  match x with
  | Some v => if falsy v then zero else v
  | None => zero
  end.

(** [Math.round]: the nearest integer, a tie going up; an integer, an
    infinity and NaN are returned as they are, and a result of zero keeps
    the sign of the argument. For [x = ±m * 2^e] with [e < 0] the integer
    is [floor (x + 1/2)], taken exactly. *)
Definition round (x : t) : t :=
  match x with
  | S754_finite s m e =>
      if (0 <=? e)%Z then x
      else
        let v := if s then Zneg m else Zpos m in
        let n := ((2 * v + 2 ^ (- e)) / 2 ^ (1 - e))%Z in
        if (n =? 0)%Z then S754_zero s else ofZ n
  | _ => x
  end.

End Num.

(** [type InputVariantValue]; [stock] is [None] when the body carries no
    number there. *)
Module InputVariantValue.
Record t : Type := mk {
  attributeId : string;
  attributesValueId : ValueIds;
  stock : option Num.t;
  imageUrl : option string
}.
End InputVariantValue.

(** [type InputVariant]; [price] and [stock] are [None] when the body
    carries no number there. *)
Module InputVariant.
Record t : Type := mk {
  sku : option string;
  price : option Num.t;
  salePrice : option Num.t;
  stock : option Num.t;
  imageUrl : option string;
  barcode : option string;
  values : list InputVariantValue.t
}.
End InputVariant.

(** A sub-document of [VariantValueSchema]. *)
Module VariantValue.
Record t : Type := mk {
  attributeId : string;
  attributesValueId : ValueIds;
  stock : option Num.t;
  imageUrl : option string
}.
End VariantValue.

(** A sub-document of [VariantSchema]. *)
Module Variant.
Record t : Type := mk {
  sku : option string;
  price : option Num.t;
  salePrice : option Num.t;
  values : list VariantValue.t;
  stock : option Num.t;
  imageUrl : option string;
  barcode : option string;
  isActive : bool
}.
End Variant.

(** A document of [ProductSchema]. [effectivePrice] and [discountPercent]
    are virtuals: the document has no such field. *)
Module Product.
Record t : Type := mk {
  _id : string;
  title : option string;
  slug : option string;
  description : option string;
  brand : option string;
  category : option string;
  mainAttributeId : option string;
  imageUrl : option string;
  price : option Num.t;
  salePrice : option Num.t;
  offerStart : option Z;
  offerEnd : option Z;
  currency : option string;
  stock : option Num.t;
  variants : list Variant.t;
  isActive : option bool;
  totalStock : Num.t
}.
End Product.

(** The body of [create] ([payload], lines 133-149 of the controller). *)
Module Payload.
Record t : Type := mk {
  title : string;
  slug : option string;
  description : option string;
  brand : option string;
  category : field string;
  mainAttributeId : option string;
  imageUrl : string;
  price : option Num.t;
  salePrice : option Num.t;
  offerStart : option Z;
  offerEnd : option Z;
  currency : option string;
  stock : option Num.t;
  variants : option (list InputVariant.t);
  isActive : option bool
}.
End Payload.

(** The body of [updateById] ([AdminProductUpdateRequest]). [id] is [None]
    when the body has no string there; [mainBuild] tells whether the
    retired key is present. *)
Module UpdateBody.
Record t : Type := mk {
  id : option string;
  mainBuild : bool;
  title : field string;
  description : field string;
  brand : field string;
  currency : field string;
  price : field Num.t;
  salePrice : field Num.t;
  offerStart : field Z;
  offerEnd : field Z;
  stock : field Num.t;
  isActive : field bool;
  imageUrl : field string;
  mainAttributeId : field string;
  slug : field string;
  category : field string;
  variants : field (list InputVariant.t)
}.
End UpdateBody.

(** What a handler's [catch] can receive. *)
Inductive Thrown : Type :=
  | HookError (message : string)     (* [next(new Error(message))] *)
  | ValidationError                  (* a schema validator or a cast failed *)
  | DuplicateKey.                    (* [err.code === 11000] *)

(** The body of a 400 response. *)
Inductive Failure : Type :=
  | SimpleRequiresPrice
  | SimpleRequiresStock
  | VariantShape
  | InvalidAttributeId (attributeId : string)
  | InvalidValueIds (attributeId : string)
  | InvalidPairStock
  | UnknownAttributeIds (attributeIds : list string)
  | AttributeNotLoaded (attributeId : string)
  | ValuesNotOnAttribute (attributeId : string) (missingValueIds : list string)
  | MainAttributeRequired
  | MainAttributeNotHex
  | MainAttributeNotUsed
  | VariantLacksMain (index : nat) (mainAttributeId : string)
  | IdRequired
  | MainBuildUnsupported
  | CategoryInvalid
  | VariantsNotArray
  | IdsRequired
  | NoValidIds.

Inductive Response (A : Type) : Type :=
  | Ok (body : A)                    (* 200 *)
  | Created (body : A)               (* 201 *)
  | BadRequest (failure : Failure)   (* 400 *)
  | NotFound                         (* 404 *)
  | Conflict                         (* 409 *)
  | InternalError (message : string) (* 500 *).
Arguments Ok {A} body.
Arguments Created {A} body.
Arguments BadRequest {A} failure.
Arguments NotFound {A}.
Arguments Conflict {A}.
Arguments InternalError {A} message.

(** ** Small JavaScript idioms *)

Definition truthy (s : option string) : bool :=
  match s with
  | Some v => negb (String.eqb v "")
  | None => false
  end.

(** [Array.from(new Set(xs))]: the distinct elements, each at the place of
    its first occurrence. *)
Fixpoint distinct_from (seen : list string) (xs : list string) : list string :=
  match xs with
  | [] => []
  | x :: t =>
      if bool_decide (x ∈ seen) then distinct_from seen t
      else x :: distinct_from (x :: seen) t
  end.

Definition distinct (xs : list string) : list string := distinct_from [] xs.

(** The ObjectId a 24-hex string denotes, written as the lower-case hex
    string [String(oid)] gives back. Strings of another shape are taken
    as not castable. *)
Definition newObjectId (s : string) : string := Js.toLowerCase s.

Definition castObjectId (s : string) : option string :=
  if Js.isHex24 s then Some (newObjectId s) else None.

(** [mongoose.isValidObjectId] on a string *)
Definition isValidObjectId (s : string) : bool := bool_decide (is_Some (castObjectId s)).

(** ** product.model: validators, hooks, virtuals *)

Module Model.

(** [Array.isArray(val) ? val.length > 0 && val.every(isHex24) : isHex24(val)] *)
Definition validValueIds (v : ValueIds) : bool :=
  match v with
  | Many ids => negb (bool_decide (ids = [])) && forallb Js.isHex24 ids
  | One id => Js.isHex24 id
  end.

(** [!v || urlValidator(v)] on an optional string *)
Definition urlIfAny (v : option string) : bool :=
  match v with
  | Some u => negb (truthy (Some u)) || Js.urlValidator u
  | None => true
  end.

(** [min: 0] on an optional number: [v == null || v >= 0]. NaN, which no
    JSON body carries and which the cast to Number refuses, fails it. *)
Definition minZero (v : option Num.t) : bool :=
  match v with
  | Some n => Num.leb Num.zero n
  | None => true
  end.

Definition requiredString (v : option string) : bool := truthy v.

Definition validateVariantValue (v : VariantValue.t) : bool :=
  Js.isHex24 (VariantValue.attributeId v)
  && validValueIds (VariantValue.attributesValueId v)
  && match VariantValue.stock v with
     | Some n => negb (Num.ltb n Num.zero)
     | None => false
     end
  && urlIfAny (VariantValue.imageUrl v).

(** The validators [VariantValueSchema] declares path by path. *)
Definition validVariantValueDoc (v : VariantValue.t) : bool :=
  Js.isHex24 (VariantValue.attributeId v)
  && validValueIds (VariantValue.attributesValueId v)
  && bool_decide (is_Some (VariantValue.stock v))
  && minZero (VariantValue.stock v)
  && urlIfAny (VariantValue.imageUrl v).

(** The validators [VariantSchema] declares. *)
Definition validVariantDoc (v : Variant.t) : bool :=
  bool_decide (is_Some (Variant.price v))
  && minZero (Variant.price v)
  && minZero (Variant.salePrice v)
  && negb (bool_decide (Variant.values v = []))
  && forallb validateVariantValue (Variant.values v)
  && forallb validVariantValueDoc (Variant.values v)
  && bool_decide (is_Some (Variant.stock v))
  && minZero (Variant.stock v)
  && urlIfAny (Variant.imageUrl v).

(** The validators [ProductSchema] declares. *)
Definition validProductDoc (p : Product.t) : bool :=
  requiredString (Product.title p)
  && requiredString (Product.slug p)
  && match Product.mainAttributeId p with
     | Some v => negb (truthy (Some v)) || Js.isHex24 v
     | None => true
     end
  && requiredString (Product.imageUrl p)
  && match Product.imageUrl p with
     | Some u => Js.urlValidator u
     | None => true
     end
  && minZero (Product.price p)
  && minZero (Product.salePrice p)
  && minZero (Product.stock p)
  && forallb validVariantDoc (Product.variants p).

(** Casting a plain object to a [VariantValueSchema] sub-document: the
    [trim] setter and the [default: 0] of [stock]. *)
Definition castVariantValue (v : InputVariantValue.t) : VariantValue.t :=
  {| VariantValue.attributeId := InputVariantValue.attributeId v;
     VariantValue.attributesValueId := InputVariantValue.attributesValueId v;
     VariantValue.stock := Some (default Num.zero (InputVariantValue.stock v));
     VariantValue.imageUrl := Js.trim <$> InputVariantValue.imageUrl v |}.

Definition castVariant (v : InputVariant.t) : Variant.t :=
  {| Variant.sku := Js.trim <$> InputVariant.sku v;
     Variant.price := InputVariant.price v;
     Variant.salePrice := InputVariant.salePrice v;
     Variant.values := map castVariantValue (InputVariant.values v);
     Variant.stock := InputVariant.stock v;
     Variant.imageUrl := Js.trim <$> InputVariant.imageUrl v;
     Variant.barcode := Js.trim <$> InputVariant.barcode v;
     Variant.isActive := true |}.

Definition hasPairFor (main : string) (v : Variant.t) : bool :=
  existsb (fun p => String.eqb (VariantValue.attributeId p) main) (Variant.values v).

(** [this.variants.reduce((sum, v) => sum + (v.stock || 0), 0)] *)
Definition sumStock (vs : list Variant.t) : Num.t :=
  fold_left (fun sum v => Num.add sum (Num.or0 (Variant.stock v))) vs Num.zero.

Definition withAggregate (p : Product.t) (st : option Num.t) (total : Num.t)
  : Product.t :=
  {| Product._id := Product._id p; Product.title := Product.title p;
     Product.slug := Product.slug p; Product.description := Product.description p;
     Product.brand := Product.brand p; Product.category := Product.category p;
     Product.mainAttributeId := Product.mainAttributeId p;
     Product.imageUrl := Product.imageUrl p; Product.price := Product.price p;
     Product.salePrice := Product.salePrice p;
     Product.offerStart := Product.offerStart p; Product.offerEnd := Product.offerEnd p;
     Product.currency := Product.currency p; Product.stock := st;
     Product.variants := Product.variants p; Product.isActive := Product.isActive p;
     Product.totalStock := total |}.

Definition withSlug (p : Product.t) (s : option string) : Product.t :=
  {| Product._id := Product._id p; Product.title := Product.title p;
     Product.slug := s; Product.description := Product.description p;
     Product.brand := Product.brand p; Product.category := Product.category p;
     Product.mainAttributeId := Product.mainAttributeId p;
     Product.imageUrl := Product.imageUrl p; Product.price := Product.price p;
     Product.salePrice := Product.salePrice p;
     Product.offerStart := Product.offerStart p; Product.offerEnd := Product.offerEnd p;
     Product.currency := Product.currency p; Product.stock := Product.stock p;
     Product.variants := Product.variants p; Product.isActive := Product.isActive p;
     Product.totalStock := Product.totalStock p |}.

(** [ProductSchema.pre("validate")]: integrity and aggregation. *)
Definition preValidate (p : Product.t) : Thrown + Product.t :=
  if negb (bool_decide (Product.variants p = [])) then
    if negb (truthy (Product.mainAttributeId p)) then
      inl (HookError "Variant product requires 'mainAttributeId'")
    else
      let main := default "" (Product.mainAttributeId p) in
      if negb (forallb (hasPairFor main) (Product.variants p)) then
        inl (HookError "Every variant must include a value for 'mainAttributeId'")
      else inr (withAggregate p None (sumStock (Product.variants p)))
  else
    match Product.price p with
    | None => inl (HookError "Simple product requires price")
    | Some _ =>
        match Product.stock p with
        | None => inl (HookError "Simple product requires stock")
        | Some _ => inr (withAggregate p (Product.stock p) (Num.or0 (Product.stock p)))
        end
    end.

(** [ProductSchema.pre("save")]: the slug follows the title when the title
    changed and the slug was not set in the same operation. *)
Definition preSave (titleModified slugModified : bool) (p : Product.t) : Product.t :=
  if titleModified && negb slugModified then
    match Product.title p with
    | Some t => withSlug p (Some (slugFromTitle t))
    | None => p
    end
  else p.

(** The unique index on [slug] (and on [_id]) as seen by a write of [p]:
    another document already holds the slug. *)
Definition sameSlugElsewhere (store : list Product.t) (p : Product.t) : bool :=
  existsb (fun d => negb (String.eqb (Product._id d) (Product._id p))
                    && bool_decide (Product.slug d = Product.slug p)) store.

Definition holdsId (store : list Product.t) (id : string) : bool :=
  existsb (fun d => String.eqb (Product._id d) id) store.

(** The steps every write goes through before it reaches the collection:
    the [pre("validate")] hook, the schema validators, the [pre("save")]
    hook. *)
Definition prepare (titleModified slugModified : bool) (p : Product.t)
  : Thrown + Product.t :=
  match preValidate p with
  | inl e => inl e
  | inr p1 =>
      if validProductDoc p1 then inr (preSave titleModified slugModified p1)
      else inl ValidationError
  end.

(** [Product.create(doc)]: the new document and the collection with it. *)
Definition create (store : list Product.t) (slugSet : bool) (doc : Product.t)
  : Thrown + (Product.t * list Product.t) :=
  match prepare true slugSet doc with
  | inl e => inl e
  | inr p =>
      if holdsId store (Product._id p) || sameSlugElsewhere store p
      then inl DuplicateKey
      else inr (p, (store ++ [p])%list)
  end.

Definition replaceDoc (store : list Product.t) (p : Product.t) : list Product.t :=
  map (fun d => if String.eqb (Product._id d) (Product._id p) then p else d) store.

(** [product.save()] on a document loaded as [old] and changed to [doc]. *)
Definition save (store : list Product.t) (old doc : Product.t)
  : Thrown + (Product.t * list Product.t) :=
  let titleModified := negb (bool_decide (Product.title doc = Product.title old)) in
  let slugModified := negb (bool_decide (Product.slug doc = Product.slug old)) in
  match prepare titleModified slugModified doc with
  | inl e => inl e
  | inr p =>
      if sameSlugElsewhere store p then inl DuplicateKey
      else inr (p, replaceDoc store p)
  end.

(** [Product.findById(id)] once [id] is cast to the ObjectId [oid]. *)
Definition findById (store : list Product.t) (oid : string) : option Product.t :=
  List.find (fun d => String.eqb (Product._id d) oid) store.

(** [Product.deleteMany({ _id: { $in: oids } })]: what is left, and
    [deletedCount]. *)
Definition deleteMany (store : list Product.t) (oids : list string)
  : list Product.t * nat :=
  (filter (fun d => Product._id d ∉ oids) store,
   length (filter (fun d => Product._id d ∈ oids) store)).

(** [Attribute.find({ _id: { $in: ids } })]: the query casts the ids to
    ObjectId and throws ([None]) when one of them cannot be cast. *)
Definition findAttributes (catalog : list Attribute.t) (ids : list string)
  : option (list Attribute.t) :=
  oids ← mapM castObjectId ids;
  Some (filter (fun a => Attribute._id a ∈ oids) catalog).

(** Variant virtuals *)
Definition variantEffectivePrice (v : Variant.t) : option Num.t :=
  match Variant.salePrice v with
  | Some s => Some s
  | None => Variant.price v
  end.

(** [typeof base === "number" && typeof eff === "number" && base > 0
     && eff < base ? Math.round(((base - eff) / base) * 100) : 0] *)
Definition percentOff (base eff : option Num.t) : Num.t :=
  match base, eff with
  | Some b, Some e =>
      if Num.ltb Num.zero b && Num.ltb e b
      then Num.round (Num.mul (Num.div (Num.sub b e) b) (Num.ofZ 100))
      else Num.zero
  | _, _ => Num.zero
  end.

Definition variantDiscountPercent (v : Variant.t) : Num.t :=
  percentOff (Variant.price v) (variantEffectivePrice v).

(** Product virtuals; [now] is [new Date()]. *)
Definition inWindow (now : Z) (p : Product.t) : bool :=
  match Product.offerStart p with
  | Some s => (s <=? now)%Z
  | None => true
  end
  && match Product.offerEnd p with
     | Some e => (now <=? e)%Z
     | None => true
     end.

Definition effectivePrice (now : Z) (p : Product.t) : option Num.t :=
  match Product.salePrice p with
  | Some s => if inWindow now p then Some s else Product.price p
  | None => Product.price p
  end.

Definition discountPercent (now : Z) (p : Product.t) : Num.t :=
  percentOff (Product.price p) (effectivePrice now p).

End Model.

(** ** admin.product.controller *)

Module Controller.

(** The first failure a loop with an early [return res.status(400)] meets. *)
Fixpoint firstFailure {A : Type} (check : A -> option Failure) (l : list A)
  : option Failure :=
  match l with
  | [] => None
  | x :: t =>
      match check x with
      | Some f => Some f
      | None => firstFailure check t
      end
  end.

(** [typeof v.price === "number" && typeof v.stock === "number"
     && Array.isArray(v.values) && v.values.length > 0] *)
Definition variantShapeOk (v : InputVariant.t) : bool :=
  bool_decide (is_Some (InputVariant.price v))
  && bool_decide (is_Some (InputVariant.stock v))
  && negb (bool_decide (InputVariant.values v = [])).

(** The body of the first loop over the pairs (lines 178-190). The check
    on [imageUrl] cannot fail on a value that is a string or absent. *)
Definition checkPair (pair : InputVariantValue.t) : option Failure :=
  let attributeId := InputVariantValue.attributeId pair in
  if negb (Js.isHex24 attributeId) then Some (InvalidAttributeId attributeId)
  else
    let ids := toArray (InputVariantValue.attributesValueId pair) in
    if bool_decide (ids = []) || negb (forallb Js.isHex24 ids)
    then Some (InvalidValueIds attributeId)
    else
      match InputVariantValue.stock pair with
      | Some n => if Num.ltb n Num.zero then Some InvalidPairStock else None
      | None => Some InvalidPairStock
      end.

Definition checkPairs (variants : list InputVariant.t) : option Failure :=
  firstFailure (fun v => firstFailure checkPair (InputVariant.values v)) variants.

(** [Array.from(new Set(variants.flatMap(v => v.values.map(p => p.attributeId))))] *)
Definition allAttrIds (variants : list InputVariant.t) : list string :=
  distinct (flat_map (fun v => map InputVariantValue.attributeId (InputVariant.values v))
              variants).

(** [new Set(attrs.map(a => String(a._id)))] *)
Definition foundIds (attrs : list Attribute.t) : gset string :=
  list_to_set (map Attribute._id attrs).

Definition missingIds (attrs : list Attribute.t) (ids : list string) : list string :=
  filter (fun id => id ∉ foundIds attrs) ids.

(** The [Map<string, Set<string>>] built at lines 200-205. *)
Definition valuesByAttr (attrs : list Attribute.t) : gmap string (gset string) :=
  fold_left
    (fun m a =>
       <[Attribute._id a := list_to_set (map AttributeValue._id (Attribute.values a))]> m)
    attrs ∅.

(** The body of the second loop over the pairs (lines 208-218). *)
Definition checkValues (byAttr : gmap string (gset string)) (pair : InputVariantValue.t)
  : option Failure :=
  let attributeId := InputVariantValue.attributeId pair in
  match byAttr !! attributeId with
  | None => Some (AttributeNotLoaded attributeId)
  | Some allowed =>
      let vids := toArray (InputVariantValue.attributesValueId pair) in
      let bad := filter (fun vid => vid ∉ allowed) vids in
      if bool_decide (bad = []) then None
      else Some (ValuesNotOnAttribute attributeId bad)
  end.

Definition checkAllValues (byAttr : gmap string (gset string))
    (variants : list InputVariant.t) : option Failure :=
  firstFailure (fun v => firstFailure (checkValues byAttr) (InputVariant.values v))
    variants.

(** Lines 222-239: the main attribute, or the 400 that ends the request. *)
Definition resolveMain (ids : list string) (supplied : option string)
  : Failure + string :=
  match ids with
  | [only] => inr only
  | _ =>
      match supplied with
      | Some m =>
          if negb (truthy (Some m)) then inl MainAttributeRequired
          else if negb (Js.isHex24 m) then inl MainAttributeNotHex
          else if negb (bool_decide (m ∈ ids)) then inl MainAttributeNotUsed
          else inr m
      | None => inl MainAttributeRequired
      end
  end.

Definition inputHasPairFor (main : string) (v : InputVariant.t) : bool :=
  existsb (fun p => String.eqb (InputVariantValue.attributeId p) main)
    (InputVariant.values v).

(** Lines 241-245, with [idx] the index of the head of [variants]. *)
Fixpoint checkMainEverywhere (main : string) (idx : nat) (variants : list InputVariant.t)
  : option Failure :=
  match variants with
  | [] => None
  | v :: t =>
      if negb (inputHasPairFor main v) then Some (VariantLacksMain idx main)
      else checkMainEverywhere main (S idx) t
  end.

(** [cleanedVariants]: the known keys only, [imageUrl ?? null]. *)
Definition cleanPair (p : InputVariantValue.t) : InputVariantValue.t :=
  {| InputVariantValue.attributeId := InputVariantValue.attributeId p;
     InputVariantValue.attributesValueId := InputVariantValue.attributesValueId p;
     InputVariantValue.stock := InputVariantValue.stock p;
     InputVariantValue.imageUrl := InputVariantValue.imageUrl p |}.

Definition cleanVariant (v : InputVariant.t) : InputVariant.t :=
  {| InputVariant.sku := InputVariant.sku v;
     InputVariant.price := InputVariant.price v;
     InputVariant.salePrice := InputVariant.salePrice v;
     InputVariant.stock := InputVariant.stock v;
     InputVariant.imageUrl := InputVariant.imageUrl v;
     InputVariant.barcode := InputVariant.barcode v;
     InputVariant.values := map cleanPair (InputVariant.values v) |}.

(** Lines 150-156: the slug of the payload, normalised when truthy. *)
Definition payloadSlug (payload : Payload.t) : option string :=
  if truthy (Payload.slug payload) then normalizeSlug <$> Payload.slug payload
  else Payload.slug payload.

(** Lines 157-161: the category of the payload and whether the model can
    cast what is left there to an ObjectId. *)
Definition payloadCategory (payload : Payload.t) : option string * bool :=
  match Payload.category payload with
  | Val c => (castObjectId c, isValidObjectId c)
  | Null | Undefined => (None, true)
  end.

(** The document [Product.create] builds from the object it is given:
    setters ([trim], [lowercase], [uppercase]) and defaults applied. *)
Definition newDocument (newId : string) (payload : Payload.t)
    (mainAttributeId : option string) (variants : list InputVariant.t) : Product.t :=
  {| Product._id := newId;
     Product.title := Some (Js.trim (Payload.title payload));
     Product.slug := (fun s => Js.trim (Js.toLowerCase s)) <$> payloadSlug payload;
     Product.description := Js.trim <$> Payload.description payload;
     Product.brand := Js.trim <$> Payload.brand payload;
     Product.category := fst (payloadCategory payload);
     Product.mainAttributeId := mainAttributeId;
     Product.imageUrl := Some (Js.trim (Payload.imageUrl payload));
     Product.price := Payload.price payload;
     Product.salePrice := Payload.salePrice payload;
     Product.offerStart := Payload.offerStart payload;
     Product.offerEnd := Payload.offerEnd payload;
     Product.currency :=
       Some (Js.toUpperCase (Js.trim (default "USD" (Payload.currency payload))));
     Product.stock := Payload.stock payload;
     Product.variants := map Model.castVariant variants;
     Product.isActive := Some (default true (Payload.isActive payload));
     Product.totalStock := Num.zero |}.

(** The [catch] of [create] and [updateById]. *)
Definition caught {A : Type} (what : string) (e : Thrown) : Response A :=
  match e with
  | DuplicateKey => Conflict
  | _ => InternalError what
  end.

(** [Product.create(obj)] followed by [res.status(201).json(...)]. A
    category the model cannot cast makes the write fail (in the hook or in
    validation): the [catch] answers 500 either way. *)
Definition persistNew (store : list Product.t) (payload : Payload.t) (doc : Product.t)
  : Response Product.t * list Product.t :=
  if snd (payloadCategory payload) then
    match Model.create store (bool_decide (is_Some (Product.slug doc))) doc with
    | inr (created, store') => (Created created, store')
    | inl e => (caught "Failed to create product" e, store)
    end
  else (InternalError "Failed to create product", store).

(** [create]: the response and the products collection after it. [newId]
    is the ObjectId the new document gets. *)
Definition create (catalog : list Attribute.t) (store : list Product.t)
    (newId : string) (payload : Payload.t) : Response Product.t * list Product.t :=
  match Payload.variants payload with
  | None | Some [] =>
      match Payload.price payload with
      | None => (BadRequest SimpleRequiresPrice, store)
      | Some _ =>
          match Payload.stock payload with
          | None => (BadRequest SimpleRequiresStock, store)
          | Some _ =>
              persistNew store payload
                (newDocument newId payload (Payload.mainAttributeId payload) [])
          end
      end
  | Some variants =>
      if negb (forallb variantShapeOk variants) then (BadRequest VariantShape, store)
      else
        match checkPairs variants with
        | Some f => (BadRequest f, store)
        | None =>
            let ids := allAttrIds variants in
            match Model.findAttributes catalog ids with
            | None => (InternalError "Failed to create product", store)
            | Some attrs =>
                let missing := missingIds attrs ids in
                if negb (bool_decide (missing = []))
                then (BadRequest (UnknownAttributeIds missing), store)
                else
                  match checkAllValues (valuesByAttr attrs) variants with
                  | Some f => (BadRequest f, store)
                  | None =>
                      match resolveMain ids (Payload.mainAttributeId payload) with
                      | inl f => (BadRequest f, store)
                      | inr main =>
                          match checkMainEverywhere main 0 variants with
                          | Some f => (BadRequest f, store)
                          | None =>
                              persistNew store payload
                                (newDocument newId payload (Some main)
                                   (map cleanVariant variants))
                          end
                      end
                  end
            end
        end
  end.

(** *** getOne *)

Module AttributeInfo.
Record t : Type := mk {
  _id : string;
  name : option string;
  code : option string;
  type : option AttributeType.t;
  isActive : option bool
}.
End AttributeInfo.

Module ValueInfo.
Record t : Type := mk {
  _id : string;
  label : option string;
  value : option string;
  meta : option string
}.
End ValueInfo.

Module ResolvedPair.
Record t : Type := mk {
  attribute : AttributeInfo.t;
  values : list ValueInfo.t;
  stock : option Num.t;
  imageUrl : option string
}.
End ResolvedPair.

Module ResolvedVariant.
Record t : Type := mk {
  sku : option string;
  price : option Num.t;
  salePrice : option Num.t;
  stock : option Num.t;
  imageUrl : option string;
  barcode : option string;
  effectivePrice : option Num.t;
  discountPercent : Num.t;
  attributesResolved : list ResolvedPair.t
}.
End ResolvedVariant.

(** [{ ...flat, variants: resolvedVariants }]: [flat] stands for the fields
    of the product other than [variants]. *)
Module ProductView.
Record t : Type := mk {
  flat : Product.t;
  variants : list ResolvedVariant.t
}.
End ProductView.

Definition attrInfoOf (a : Attribute.t) : AttributeInfo.t :=
  {| AttributeInfo._id := Attribute._id a;
     AttributeInfo.name := Some (Attribute.name a);
     AttributeInfo.code := Some (Attribute.code a);
     AttributeInfo.type := Some (Attribute.type a);
     AttributeInfo.isActive := Some (Attribute.isActive a) |}.

Definition valueInfoOf (v : AttributeValue.t) : ValueInfo.t :=
  {| ValueInfo._id := AttributeValue._id v;
     ValueInfo.label := Some (AttributeValue.label v);
     ValueInfo.value := AttributeValue.value v;
     ValueInfo.meta := AttributeValue.meta v |}.

Definition attrPlaceholder (id : string) : AttributeInfo.t :=
  {| AttributeInfo._id := id; AttributeInfo.name := None; AttributeInfo.code := None;
     AttributeInfo.type := None; AttributeInfo.isActive := None |}.

Definition valuePlaceholder (id : string) : ValueInfo.t :=
  {| ValueInfo._id := id; ValueInfo.label := None; ValueInfo.value := None;
     ValueInfo.meta := None |}.

(** [attrById] (lines 293-303) *)
Definition attrById (attributes : list Attribute.t) : gmap string AttributeInfo.t :=
  fold_left (fun m a => <[Attribute._id a := attrInfoOf a]> m) attributes ∅.

Definition valueMap (vs : list AttributeValue.t) : gmap string ValueInfo.t :=
  fold_left (fun m v => <[AttributeValue._id v := valueInfoOf v]> m) vs ∅.

(** [valByAttrId] (lines 294-303) *)
Definition valByAttrId (attributes : list Attribute.t)
  : gmap string (gmap string ValueInfo.t) :=
  fold_left (fun m a => <[Attribute._id a := valueMap (Attribute.values a)]> m)
    attributes ∅.

Definition resolvePair (attributes : list Attribute.t) (pair : VariantValue.t)
  : ResolvedPair.t :=
  let attributeId := VariantValue.attributeId pair in
  {| ResolvedPair.attribute :=
       default (attrPlaceholder attributeId) (attrById attributes !! attributeId);
     ResolvedPair.values :=
       map (fun vid =>
              default (valuePlaceholder vid)
                (valByAttrId attributes !! attributeId ≫= fun vmap => vmap !! vid))
         (toArray (VariantValue.attributesValueId pair));
     ResolvedPair.stock := VariantValue.stock pair;
     ResolvedPair.imageUrl := VariantValue.imageUrl pair |}.

(** A lean document carries no virtuals: [v.effectivePrice ?? null] is
    [null] and [v.discountPercent ?? 0] is [0]. *)
Definition resolveVariant (attributes : list Attribute.t) (v : Variant.t)
  : ResolvedVariant.t :=
  {| ResolvedVariant.sku := Variant.sku v;
     ResolvedVariant.price := Variant.price v;
     ResolvedVariant.salePrice := Variant.salePrice v;
     ResolvedVariant.stock := Variant.stock v;
     ResolvedVariant.imageUrl := Variant.imageUrl v;
     ResolvedVariant.barcode := Variant.barcode v;
     ResolvedVariant.effectivePrice := None;
     ResolvedVariant.discountPercent := Num.zero;
     ResolvedVariant.attributesResolved := map (resolvePair attributes) (Variant.values v) |}.

(** Lines 286-290: the attribute ids the product refers to. *)
Definition referencedAttrIds (product : Product.t) : list string :=
  distinct (flat_map (fun v => map VariantValue.attributeId (Variant.values v))
              (Product.variants product)).

(** Lines 286-341: the projection of a product found in the collection;
    [None] when the attribute query throws. *)
Definition project (catalog : list Attribute.t) (product : Product.t)
  : option ProductView.t :=
  let attrIds := referencedAttrIds product in
  attributes ← (if bool_decide (attrIds = []) then Some []
                else Model.findAttributes catalog attrIds);
  Some {| ProductView.flat := product;
          ProductView.variants := map (resolveVariant attributes) (Product.variants product) |}.

Definition getOne (catalog : list Attribute.t) (store : list Product.t) (id : string)
  : Response ProductView.t :=
  match castObjectId id with
  | None => InternalError "Failed to fetch product"
  | Some oid =>
      match Model.findById store oid with
      | None => NotFound
      | Some product =>
          match project catalog product with
          | Some view => Ok view
          | None => InternalError "Failed to fetch product"
          end
      end
  end.

(** *** updateById *)

(** [if (typeof body[k] !== "undefined") product[k] = body[k]], with the
    setter of the path applied to the value assigned. *)
Definition assignWith {A : Type} (setter : A -> A) (f : field A) (current : option A)
  : option A :=
  match f with
  | Undefined => current
  | Null => None
  | Val a => Some (setter a)
  end.

Definition assign {A : Type} (f : field A) (current : option A) : option A :=
  assignWith (fun a => a) f current.

(** Lines 379-385. [String(null)] is the string [null]. *)
Definition updatedSlug (f : field string) (current : option string) : option string :=
  match f with
  | Undefined => current
  | Null => Some (Js.trim (Js.toLowerCase (normalizeSlug "null")))
  | Val s =>
      if truthy (Some (Js.trim s))
      then Some (Js.trim (Js.toLowerCase (normalizeSlug s)))
      else current
  end.

(** Lines 386-394: the category after the request, or [None] for the 400. *)
Definition updatedCategory (f : field string) (current : option string)
  : option (option string) :=
  match f with
  | Undefined => Some current
  | Null => Some None
  | Val c =>
      if truthy (Some c) && isValidObjectId c then Some (castObjectId c) else None
  end.

(** The document after lines 363-400, setters applied. *)
Definition applyBody (body : UpdateBody.t) (product : Product.t)
    (category : option string) : Product.t :=
  {| Product._id := Product._id product;
     Product.title := assignWith Js.trim (UpdateBody.title body) (Product.title product);
     Product.slug := updatedSlug (UpdateBody.slug body) (Product.slug product);
     Product.description :=
       assignWith Js.trim (UpdateBody.description body) (Product.description product);
     Product.brand := assignWith Js.trim (UpdateBody.brand body) (Product.brand product);
     Product.category := category;
     Product.mainAttributeId :=
       assign (UpdateBody.mainAttributeId body) (Product.mainAttributeId product);
     Product.imageUrl :=
       assignWith Js.trim (UpdateBody.imageUrl body) (Product.imageUrl product);
     Product.price := assign (UpdateBody.price body) (Product.price product);
     Product.salePrice := assign (UpdateBody.salePrice body) (Product.salePrice product);
     Product.offerStart := assign (UpdateBody.offerStart body) (Product.offerStart product);
     Product.offerEnd := assign (UpdateBody.offerEnd body) (Product.offerEnd product);
     Product.currency :=
       assignWith (fun c => Js.toUpperCase (Js.trim c))
         (UpdateBody.currency body) (Product.currency product);
     Product.stock := assign (UpdateBody.stock body) (Product.stock product);
     Product.variants :=
       match UpdateBody.variants body with
       | Val vs => map Model.castVariant vs
       | _ => Product.variants product
       end;
     Product.isActive := assign (UpdateBody.isActive body) (Product.isActive product);
     Product.totalStock := Product.totalStock product |}.

(** [updateById]: the response and the products collection after it. *)
Definition updateById (store : list Product.t) (body : UpdateBody.t)
  : Response Product.t * list Product.t :=
  match UpdateBody.id body with
  | None => (BadRequest IdRequired, store)
  | Some id =>
      if negb (isValidObjectId id) then (BadRequest IdRequired, store)
      else
        match castObjectId id ≫= Model.findById store with
        | None => (NotFound, store)
        | Some product =>
            if UpdateBody.mainBuild body then (BadRequest MainBuildUnsupported, store)
            else
              match updatedCategory (UpdateBody.category body) (Product.category product) with
              | None => (BadRequest CategoryInvalid, store)
              | Some category =>
                  match UpdateBody.variants body with
                  | Null => (BadRequest VariantsNotArray, store)
                  | _ =>
                      match Model.save store product (applyBody body product category) with
                      | inr (saved, store') => (Ok saved, store')
                      | inl e => (caught "Failed to update product" e, store)
                      end
                  end
              end
        end
  end.

(** *** bulkDelete *)

Module DeleteReport.
Record t : Type := mk {
  requested : list string;
  deletedCount : nat
}.
End DeleteReport.

(** [ids.filter((id) => /^[0-9a-fA-F]{24}$/.test(id))] *)
Definition validIds (ids : list string) : list string :=
  List.filter Js.isHex24 ids.

(** [bulkDelete]: the response and the products collection after it. *)
Definition bulkDelete (store : list Product.t) (ids : option (list string))
  : Response DeleteReport.t * list Product.t :=
  match ids with
  | None | Some [] => (BadRequest IdsRequired, store)
  | Some ids =>
      match validIds ids with
      | [] => (BadRequest NoValidIds, store)
      | valid =>
          let objectIds := map newObjectId valid in
          let '(store', n) := Model.deleteMany store objectIds in
          (Ok {| DeleteReport.requested := valid; DeleteReport.deletedCount := n |},
           store')
      end
  end.

End Controller.

(** ** admin.product.controller: list (paging) *)

Module Listing.

Definition is_digit (c : ascii) : bool := Js.in_range 48 57 c.

Definition digit_value (c : ascii) : Z := (Z.of_N (Js.code c) - 48)%Z.

Fixpoint take_while (f : ascii -> bool) (l : list ascii) : list ascii :=
  match l with
  | [] => []
  | c :: t => if f c then c :: take_while f t else []
  end.

(** The number a string of decimal digits writes, most significant first. *)
Definition digits_value (ds : list ascii) : Z :=
  fold_left (fun acc c => (acc * 10 + digit_value c)%Z) ds 0%Z.

(** [parseInt(s, 10)]: leading white space is skipped, one sign is read,
    then the longest run of decimal digits; [None] is [NaN] (no digit).
    The value is exact (no rounding to a double). *)
Definition parseInt (s : string) : option Z :=
  let l := Js.drop_while Js.is_space (Js.chars s) in
  let '(negative, rest) :=
    match l with
    | c :: t =>
        if (Js.code c =? 45)%N then (true, t)
        else if (Js.code c =? 43)%N then (false, t)
        else (false, l)
    | [] => (false, l)
    end in
  let ds := take_while is_digit rest in
  if bool_decide (ds = []) then None
  else Some (if negative then (- digits_value ds)%Z else digits_value ds).

(** [Math.max(parseInt(String(req.query.page ?? "1"), 10), 1)] *)
Definition pageOf (q : option string) : option Z :=
  n ← parseInt (default "1" q); Some (Z.max n 1).

(** [Math.min(Math.max(parseInt(String(req.query.limit ?? "12"), 10), 1), 100)] *)
Definition limitOf (q : option string) : option Z :=
  n ← parseInt (default "12" q); Some (Z.min (Z.max n 1) 100).

(** What [$addFields] and [$project] leave of a product ([createdAt] and
    [updatedAt] are not modelled). *)
Module Item.
Record t : Type := mk {
  _id : string;
  title : option string;
  slug : option string;
  brand : option string;
  imageUrl : option string;
  currency : option string;
  category : option string;
  isActive : option bool;
  totalStock : Num.t;
  mainAttributeId : option string;
  hasVariants : bool
}.
End Item.

Definition itemOf (p : Product.t) : Item.t :=
  {| Item._id := Product._id p; Item.title := Product.title p;
     Item.slug := Product.slug p; Item.brand := Product.brand p;
     Item.imageUrl := Product.imageUrl p; Item.currency := Product.currency p;
     Item.category := Product.category p; Item.isActive := Product.isActive p;
     Item.totalStock := Product.totalStock p;
     Item.mainAttributeId := Product.mainAttributeId p;
     Item.hasVariants := (0 <? length (Product.variants p))%nat |}.

(** The stages [$skip: (page - 1) * limit], [$limit: limit], [$addFields],
    [$project] on the documents [$match] and [$sort] let through. *)
Definition pageItems (page limit : Z) (matched : list Product.t) : list Item.t :=
  map itemOf (take (Z.to_nat limit) (drop (Z.to_nat ((page - 1) * limit)) matched)).

(** [Math.ceil(total / limit)] *)
Definition pagesOf (total limit : Z) : Z :=
  Qceiling (inject_Z total / inject_Z limit).

Module Page.
Record t : Type := mk {
  items : list Item.t;
  page : Z;
  limit : Z;
  total : Z;
  pages : Z
}.
End Page.

(** [list], given the documents the filter matches in the order of the
    sort; [None] when [page] or [limit] is [NaN]. *)
Definition list (matched : list Product.t) (page limit : option string)
  : option Page.t :=
  p ← pageOf page;
  n ← limitOf limit;
  let total := Z.of_nat (length matched) in
  Some {| Page.items := pageItems p n matched; Page.page := p; Page.limit := n;
          Page.total := total; Page.pages := pagesOf total n |}.

End Listing.

(** ** app: the CORS origin check *)

Module App.

Fixpoint is_prefix (p l : list ascii) : bool :=
  match p, l with
  | [], _ => true
  | c :: p', d :: l' => (Js.code c =? Js.code d)%N && is_prefix p' l'
  | _ :: _, [] => false
  end.

Fixpoint includes_chars (sub l : list ascii) : bool :=
  is_prefix sub l
  || match l with
     | [] => false
     | _ :: t => includes_chars sub t
     end.

(** [s.includes(sub)] *)
Definition includes (s sub : string) : bool :=
  includes_chars (Js.chars sub) (Js.chars s).

Definition allowedOrigins : list string :=
  [ "http://localhost:3000"; "http://127.0.0.1:3000";
    "http://localhost:8080"; "http://127.0.0.1:8080";
    "http://localhost:5000"; "http://127.0.0.1:5000" ].

(** [corsOptions.origin]: [true] for [callback(null, true)], [false] for
    [callback(new Error('Not allowed by CORS'))]; [nodeEnv] is
    [process.env.NODE_ENV]. *)
Definition corsOrigin (nodeEnv origin : option string) : bool :=
  match origin with
  | None => true
  | Some o =>
      if negb (truthy (Some o)) then true
      else if bool_decide (o ∈ allowedOrigins) || includes o "localhost" then true
      else bool_decide (nodeEnv = Some "development")
  end.

End App.

(** ** Vocabulary of the properties *)

(** Σ over a list of whole numbers, exact *)
Definition sumZ (l : list Z) : Z := foldr Z.add 0%Z l.

(** The sign of a number that is not NaN. *)
Definition signed (s : bool) (x : Num.t) : Prop :=
  match x with
  | S754_zero s' | S754_infinity s' | S754_finite s' _ _ => s' = s
  | S754_nan => False
  end.

(** Σ over a list of numbers: the terms added one after the other, from
    the left, starting from 0. *)
Definition sumNum (l : list Num.t) : Num.t := fold_left Num.add l Num.zero.

(** [totalStock] is right for the mode of the product: equal ([===]) to
    [stock] when there are no variants, and the same value but for the
    sign of a zero; otherwise the sum of the variants' stocks, each of them
    a number, and no top-level [stock]. *)
Definition stockConsistent (p : Product.t) : Prop :=
  match Product.variants p with
  | [] =>
      exists n, Product.stock p = Some n
        /\ Num.eqb (Product.totalStock p) n = true
        /\ (Product.totalStock p = n \/ n = S754_zero true)
  | vs =>
      Product.stock p = None
      /\ exists stocks : list Num.t,
           map Variant.stock vs = map Some stocks
           /\ Product.totalStock p = sumNum stocks
  end.

(** A successful create or update: the collection before, the document the
    handler answers with, the collection after. *)
Inductive Written : list Product.t -> Product.t -> list Product.t -> Prop :=
  | written_create catalog store newId payload p store' :
      Controller.create catalog store newId payload = (Created p, store') ->
      Written store p store'
  | written_update store body p store' :
      Controller.updateById store body = (Ok p, store') ->
      Written store p store'.

(** The collections the handlers can produce, starting from an empty one. *)
Inductive Reachable : list Product.t -> Prop :=
  | reach_empty : Reachable []
  | reach_create catalog store newId payload :
      Reachable store ->
      Reachable (snd (Controller.create catalog store newId payload))
  | reach_update store body :
      Reachable store ->
      Reachable (snd (Controller.updateById store body))
  | reach_delete store ids :
      Reachable store ->
      Reachable (snd (Controller.bulkDelete store ids)).

(** Variants but no main attribute. *)
Definition variantsWithoutMain (p : Product.t) : Prop :=
  Product.variants p <> [] /\ Product.mainAttributeId p = None.

(** A variant none of whose pairs is for the main attribute. *)
Definition variantOffMain (p : Product.t) : Prop :=
  exists v, v ∈ Product.variants p
    /\ forall pair, pair ∈ Variant.values v ->
         Some (VariantValue.attributeId pair) <> Product.mainAttributeId p.

(** A product with variants names its main attribute and every variant
    has a pair for it. *)
Definition mainCovers (p : Product.t) : Prop :=
  Product.variants p <> [] ->
  exists main, Product.mainAttributeId p = Some main
    /\ forall v, v ∈ Product.variants p ->
         exists pair, pair ∈ Variant.values v /\ VariantValue.attributeId pair = main.

(** What the schema validators leave true of a stored document, whatever
    the [pre("save")] hook did to its slug afterwards. *)
Definition storedValid (p : Product.t) : Prop :=
  forallb Model.validVariantDoc (Product.variants p) = true
  /\ Model.minZero (Product.price p) = true
  /\ Model.minZero (Product.salePrice p) = true.

(** The 400 answers of the main-attribute stage (lines 222-245). *)
Definition isMainFailure (f : Failure) : bool :=
  match f with
  | MainAttributeRequired | MainAttributeNotHex | MainAttributeNotUsed
  | VariantLacksMain _ _ => true
  | _ => false
  end.

(** The same payload with another [mainAttributeId]. *)
Definition withMain (payload : Payload.t) (m : option string) : Payload.t :=
  {| Payload.title := Payload.title payload; Payload.slug := Payload.slug payload;
     Payload.description := Payload.description payload;
     Payload.brand := Payload.brand payload; Payload.category := Payload.category payload;
     Payload.mainAttributeId := m; Payload.imageUrl := Payload.imageUrl payload;
     Payload.price := Payload.price payload; Payload.salePrice := Payload.salePrice payload;
     Payload.offerStart := Payload.offerStart payload;
     Payload.offerEnd := Payload.offerEnd payload;
     Payload.currency := Payload.currency payload; Payload.stock := Payload.stock payload;
     Payload.variants := Payload.variants payload;
     Payload.isActive := Payload.isActive payload |}.

(** The pairs of a variant list in the order the loops visit them. *)
Definition pairsOf (variants : list InputVariant.t) : list InputVariantValue.t :=
  flat_map InputVariant.values variants.

(** The value ids of [pair] the set [allowed] does not hold. *)
Definition offending (allowed : gset string) (pair : InputVariantValue.t) : list string :=
  filter (fun vid => vid ∉ allowed) (toArray (InputVariantValue.attributesValueId pair)).

(** The offer window of a product at [now], in the words of the spec: each
    bound, when present, is on the right side of [now]. *)
Definition withinOffer (now : Z) (p : Product.t) : Prop :=
  (forall s, Product.offerStart p = Some s -> (s <= now)%Z)
  /\ (forall e, Product.offerEnd p = Some e -> (now <= e)%Z).

(** [info] stands for the value id [vid] of a pair for [attributeId]: it
    carries the id, and is the placeholder when no attribute of the
    catalog with that id has such a value. *)
Definition valueStandsFor (catalog : list Attribute.t) (attributeId vid : string)
    (info : Controller.ValueInfo.t) : Prop :=
  Controller.ValueInfo._id info = vid
  /\ ((forall a, a ∈ catalog -> Attribute._id a = attributeId ->
         vid ∉ map AttributeValue._id (Attribute.values a)) ->
      info = Controller.valuePlaceholder vid).

(** [rp] stands for [pair]: the placeholder attribute when the catalog has
    no attribute with the pair's id, and one record per value id, in order. *)
Definition pairStandsFor (catalog : list Attribute.t) (pair : VariantValue.t)
    (rp : Controller.ResolvedPair.t) : Prop :=
  (VariantValue.attributeId pair ∉ map Attribute._id catalog ->
   Controller.ResolvedPair.attribute rp
   = Controller.attrPlaceholder (VariantValue.attributeId pair))
  /\ Forall2 (valueStandsFor catalog (VariantValue.attributeId pair))
       (toArray (VariantValue.attributesValueId pair))
       (Controller.ResolvedPair.values rp).

Definition variantStandsFor (catalog : list Attribute.t) (v : Variant.t)
    (rv : Controller.ResolvedVariant.t) : Prop :=
  Forall2 (pairStandsFor catalog) (Variant.values v)
    (Controller.ResolvedVariant.attributesResolved rv).




(** Every reference of the product has the shape of an id and every
    quantity is a number that is not negative. *)
Definition pairWellFormed (pair : VariantValue.t) : Prop :=
  Js.isHex24 (VariantValue.attributeId pair) = true
  /\ toArray (VariantValue.attributesValueId pair) <> []
  /\ (forall vid, vid ∈ toArray (VariantValue.attributesValueId pair) ->
        Js.isHex24 vid = true)
  /\ exists n, VariantValue.stock pair = Some n /\ Num.leb Num.zero n = true.

Definition variantWellFormed (v : Variant.t) : Prop :=
  Variant.values v <> []
  /\ (forall pair, pair ∈ Variant.values v -> pairWellFormed pair)
  /\ (exists q, Variant.price v = Some q /\ Num.leb Num.zero q = true)
  /\ (exists n, Variant.stock v = Some n /\ Num.leb Num.zero n = true).

Definition wellFormed (p : Product.t) : Prop :=
  Num.leb Num.zero (Product.totalStock p) = true
  /\ (Product.variants p <> [] ->
      exists m, Product.mainAttributeId p = Some m /\ Js.isHex24 m = true)
  /\ (forall v, v ∈ Product.variants p -> variantWellFormed v).

(** The same document under another [_id]. *)
Definition withId (p : Product.t) (id : string) : Product.t :=
  {| Product._id := id; Product.title := Product.title p;
     Product.slug := Product.slug p; Product.description := Product.description p;
     Product.brand := Product.brand p; Product.category := Product.category p;
     Product.mainAttributeId := Product.mainAttributeId p;
     Product.imageUrl := Product.imageUrl p; Product.price := Product.price p;
     Product.salePrice := Product.salePrice p;
     Product.offerStart := Product.offerStart p; Product.offerEnd := Product.offerEnd p;
     Product.currency := Product.currency p; Product.stock := Product.stock p;
     Product.variants := Product.variants p; Product.isActive := Product.isActive p;
     Product.totalStock := Product.totalStock p |}.

(** ** Sample data *)

Module Sample.

Definition sizeId : string := "68ba88ce54d06434d762e2b2".
Definition colorId : string := "68b9d650e9f857534e61dc7d".
Definition sizeS : string := "68c506aeda9147540db9b476".
Definition sizeM : string := "68ba88ce54d06434d762e2b5".
Definition black : string := "68b9d650e9f857534e61dc7e".
Definition red : string := "68c552b6b15a257696f56cd7".
Definition idA : string := "68c709d4e1e28a7c7730c241".
Definition idB : string := "68c709d4e1e28a7c7730c245".
(** well-formed ids no attribute value carries *)
Definition stale1 : string := "aaaaaaaaaaaaaaaaaaaaaaaa".
Definition stale2 : string := "bbbbbbbbbbbbbbbbbbbbbbbb".

Definition value (id label : string) : AttributeValue.t :=
  {| AttributeValue._id := id; AttributeValue.label := label;
     AttributeValue.value := None; AttributeValue.meta := None |}.

Definition sizeAttr : Attribute.t :=
  {| Attribute._id := sizeId; Attribute.name := "Size"; Attribute.code := "size";
     Attribute.type := AttributeType.size;
     Attribute.values := [value sizeS "S"; value sizeM "M"];
     Attribute.isActive := true |}.

Definition colorAttr : Attribute.t :=
  {| Attribute._id := colorId; Attribute.name := "Color"; Attribute.code := "color";
     Attribute.type := AttributeType.color;
     Attribute.values := [value black "Black"; value red "Red"];
     Attribute.isActive := true |}.

Definition catalog : list Attribute.t := [sizeAttr; colorAttr].

Definition pair (attributeId valueId : string) (stock : Z) : InputVariantValue.t :=
  {| InputVariantValue.attributeId := attributeId;
     InputVariantValue.attributesValueId := One valueId;
     InputVariantValue.stock := Some (Num.ofZ stock);
     InputVariantValue.imageUrl := None |}.

Definition variant (sku : string) (stock : Z) (values : list InputVariantValue.t)
  : InputVariant.t :=
  {| InputVariant.sku := Some sku; InputVariant.price := Some (Num.dec 699 2);
     InputVariant.salePrice := None; InputVariant.stock := Some (Num.ofZ stock);
     InputVariant.imageUrl := None; InputVariant.barcode := None;
     InputVariant.values := values |}.

Definition payload (title slug : string) (mainAttributeId : option string)
    (price : option Num.t) (stock : option Num.t)
    (variants : option (list InputVariant.t))
  : Payload.t :=
  {| Payload.title := title; Payload.slug := Some slug;
     Payload.description := None; Payload.brand := Some "Acme";
     Payload.category := Undefined; Payload.mainAttributeId := mainAttributeId;
     Payload.imageUrl := "https://cdn.example.com/products/main.png";
     Payload.price := price; Payload.salePrice := None;
     Payload.offerStart := None; Payload.offerEnd := None;
     Payload.currency := Some "usd"; Payload.stock := stock;
     Payload.variants := variants; Payload.isActive := None |}.

(** "Crew Socks": two variants along Size only. *)
Definition socks (mainAttributeId : option string) : Payload.t :=
  payload "Crew Socks" "Crew Socks!!" mainAttributeId None None
    (Some [variant "SOCKS-S" 30 [pair sizeId sizeS 30];
           variant "SOCKS-M" 40 [pair sizeId sizeM 40]]).

(** "Basic Cotton Tee": no variants. *)
Definition tee (stock : Z) : Payload.t :=
  payload "Basic Cotton Tee" "basic-cotton-tee" None (Some (Num.dec 1299 2))
    (Some (Num.ofZ stock)) None.

Definition pairDoc (attributeId valueId : string) (stock : Z) : VariantValue.t :=
  {| VariantValue.attributeId := attributeId;
     VariantValue.attributesValueId := One valueId;
     VariantValue.stock := Some (Num.ofZ stock); VariantValue.imageUrl := None |}.

Definition variantDoc (sku : string) (stock : Z) (values : list VariantValue.t)
  : Variant.t :=
  {| Variant.sku := Some sku; Variant.price := Some (Num.dec 699 2);
     Variant.salePrice := None; Variant.values := values;
     Variant.stock := Some (Num.ofZ stock); Variant.imageUrl := None;
     Variant.barcode := None; Variant.isActive := true |}.

(** The document [create] stores for [socks]. *)
Definition socksDoc : Product.t :=
  {| Product._id := idA; Product.title := Some "Crew Socks";
     Product.slug := Some "crew-socks"; Product.description := None;
     Product.brand := Some "Acme"; Product.category := None;
     Product.mainAttributeId := Some sizeId;
     Product.imageUrl := Some "https://cdn.example.com/products/main.png";
     Product.price := None; Product.salePrice := None;
     Product.offerStart := None; Product.offerEnd := None;
     Product.currency := Some "USD"; Product.stock := None;
     Product.variants :=
       [variantDoc "SOCKS-S" 30 [pairDoc sizeId sizeS 30];
        variantDoc "SOCKS-M" 40 [pairDoc sizeId sizeM 40]];
     Product.isActive := Some true; Product.totalStock := Num.ofZ 70 |}.

(** The document [create] stores for [tee stock]. *)
Definition teeDoc (stock : Z) : Product.t :=
  {| Product._id := idA; Product.title := Some "Basic Cotton Tee";
     Product.slug := Some "basic-cotton-tee"; Product.description := None;
     Product.brand := Some "Acme"; Product.category := None;
     Product.mainAttributeId := None;
     Product.imageUrl := Some "https://cdn.example.com/products/main.png";
     Product.price := Some (Num.dec 1299 2); Product.salePrice := None;
     Product.offerStart := None; Product.offerEnd := None;
     Product.currency := Some "USD"; Product.stock := Some (Num.ofZ stock);
     Product.variants := []; Product.isActive := Some true;
     Product.totalStock := Num.ofZ stock |}.

(** A simple product on offer: price 20, sale price 15, between
    [offerStart] and [offerEnd]. *)
Definition onOffer (offerStart offerEnd : option Z) : Payload.t :=
  {| Payload.title := "Premium Crewneck Tee"; Payload.slug := Some "premium-crewneck-tee";
     Payload.description := None; Payload.brand := None;
     Payload.category := Undefined; Payload.mainAttributeId := None;
     Payload.imageUrl := "https://cdn.example.com/products/premium-crewneck/main.png";
     Payload.price := Some (Num.ofZ 20); Payload.salePrice := Some (Num.ofZ 15);
     Payload.offerStart := offerStart; Payload.offerEnd := offerEnd;
     Payload.currency := None; Payload.stock := Some (Num.ofZ 18);
     Payload.variants := None; Payload.isActive := None |}.

Definition onOfferDoc (offerStart offerEnd : option Z) : Product.t :=
  {| Product._id := idB; Product.title := Some "Premium Crewneck Tee";
     Product.slug := Some "premium-crewneck-tee"; Product.description := None;
     Product.brand := None; Product.category := None;
     Product.mainAttributeId := None;
     Product.imageUrl := Some "https://cdn.example.com/products/premium-crewneck/main.png";
     Product.price := Some (Num.ofZ 20); Product.salePrice := Some (Num.ofZ 15);
     Product.offerStart := offerStart; Product.offerEnd := offerEnd;
     Product.currency := Some "USD"; Product.stock := Some (Num.ofZ 18);
     Product.variants := []; Product.isActive := Some true;
     Product.totalStock := Num.ofZ 18 |}.

(** Two variants along Size whose value ids are on no attribute. *)
Definition staleSocks : Payload.t :=
  payload "Crew Socks" "crew-socks" None None None
    (Some [variant "SOCKS-S" 30 [pair sizeId stale1 30];
           variant "SOCKS-M" 40 [pair sizeId stale2 40]]).

(** One variant along Size and Color, as a replacement list for an update
    or the variants of a create. *)
Definition twoAxes : list InputVariant.t :=
  [variant "TEE-S-BLK" 18 [pair sizeId sizeS 8; pair colorId black 10]].

Definition replaceVariants (id : string) (variants : list InputVariant.t) : UpdateBody.t :=
  {| UpdateBody.id := Some id; UpdateBody.mainBuild := false;
     UpdateBody.title := Undefined; UpdateBody.description := Undefined;
     UpdateBody.brand := Undefined; UpdateBody.currency := Undefined;
     UpdateBody.price := Undefined; UpdateBody.salePrice := Undefined;
     UpdateBody.offerStart := Undefined; UpdateBody.offerEnd := Undefined;
     UpdateBody.stock := Undefined; UpdateBody.isActive := Undefined;
     UpdateBody.imageUrl := Undefined; UpdateBody.mainAttributeId := Undefined;
     UpdateBody.slug := Undefined; UpdateBody.category := Undefined;
     UpdateBody.variants := Val variants |}.

(** An update that only sets [stock]. *)
Definition restock (id : string) (stock : Z) : UpdateBody.t :=
  {| UpdateBody.id := Some id; UpdateBody.mainBuild := false;
     UpdateBody.title := Undefined; UpdateBody.description := Undefined;
     UpdateBody.brand := Undefined; UpdateBody.currency := Undefined;
     UpdateBody.price := Undefined; UpdateBody.salePrice := Undefined;
     UpdateBody.offerStart := Undefined; UpdateBody.offerEnd := Undefined;
     UpdateBody.stock := Val (Num.ofZ stock); UpdateBody.isActive := Undefined;
     UpdateBody.imageUrl := Undefined; UpdateBody.mainAttributeId := Undefined;
     UpdateBody.slug := Undefined; UpdateBody.category := Undefined;
     UpdateBody.variants := Undefined |}.

(** An update that only sets [title]. *)
Definition rename (id title : string) : UpdateBody.t :=
  {| UpdateBody.id := Some id; UpdateBody.mainBuild := false;
     UpdateBody.title := Val title; UpdateBody.description := Undefined;
     UpdateBody.brand := Undefined; UpdateBody.currency := Undefined;
     UpdateBody.price := Undefined; UpdateBody.salePrice := Undefined;
     UpdateBody.offerStart := Undefined; UpdateBody.offerEnd := Undefined;
     UpdateBody.stock := Undefined; UpdateBody.isActive := Undefined;
     UpdateBody.imageUrl := Undefined; UpdateBody.mainAttributeId := Undefined;
     UpdateBody.slug := Undefined; UpdateBody.category := Undefined;
     UpdateBody.variants := Undefined |}.

(** [teeDoc 120] once renamed to a title without a letter or a digit. *)
Definition unnamedTee : Product.t :=
  {| Product._id := idA; Product.title := Some "!!!";
     Product.slug := Some ""; Product.description := None;
     Product.brand := Some "Acme"; Product.category := None;
     Product.mainAttributeId := None;
     Product.imageUrl := Some "https://cdn.example.com/products/main.png";
     Product.price := Some (Num.dec 1299 2); Product.salePrice := None;
     Product.offerStart := None; Product.offerEnd := None;
     Product.currency := Some "USD"; Product.stock := Some (Num.ofZ 120);
     Product.variants := []; Product.isActive := Some true;
     Product.totalStock := Num.ofZ 120 |}.

(** The catalog as it was when [dangling] was created: Size still had the
    value [stale1], and there was an attribute with id [stale2]. *)
Definition oldCatalog : list Attribute.t :=
  [ {| Attribute._id := sizeId; Attribute.name := "Size"; Attribute.code := "size";
       Attribute.type := AttributeType.size;
       Attribute.values := [value sizeS "S"; value stale1 "XS"];
       Attribute.isActive := true |};
    {| Attribute._id := stale2; Attribute.name := "Fit"; Attribute.code := "fit";
       Attribute.type := AttributeType.select;
       Attribute.values := [value stale1 "Slim"];
       Attribute.isActive := true |} ].

Definition dangling : Payload.t :=
  {| Payload.title := "Crew Socks"; Payload.slug := Some "crew-socks";
     Payload.description := None; Payload.brand := None;
     Payload.category := Undefined; Payload.mainAttributeId := Some sizeId;
     Payload.imageUrl := "https://cdn.example.com/products/main.png";
     Payload.price := None; Payload.salePrice := None;
     Payload.offerStart := None; Payload.offerEnd := None;
     Payload.currency := None; Payload.stock := None;
     Payload.variants :=
       Some [variant "SOCKS-S" 30 [pair sizeId stale1 30; pair stale2 stale1 0]];
     Payload.isActive := None |}.

(** The document [create] stores for [dangling]; under [catalog] its pairs
    point at a value and at an attribute that are no longer there. *)
Definition danglingDoc : Product.t :=
  {| Product._id := idB; Product.title := Some "Crew Socks";
     Product.slug := Some "crew-socks"; Product.description := None;
     Product.brand := None; Product.category := None;
     Product.mainAttributeId := Some sizeId;
     Product.imageUrl := Some "https://cdn.example.com/products/main.png";
     Product.price := None; Product.salePrice := None;
     Product.offerStart := None; Product.offerEnd := None;
     Product.currency := Some "USD"; Product.stock := None;
     Product.variants :=
       [variantDoc "SOCKS-S" 30 [pairDoc sizeId stale1 30; pairDoc stale2 stale1 0]];
     Product.isActive := Some true; Product.totalStock := Num.ofZ 30 |}.

(** A simple product whose price is beyond the largest finite number:
    the JSON number 1e400 is read as Infinity. *)
Definition overflow : Payload.t :=
  {| Payload.title := "Premium Crewneck Tee"; Payload.slug := Some "premium-crewneck-tee";
     Payload.description := None; Payload.brand := None;
     Payload.category := Undefined; Payload.mainAttributeId := None;
     Payload.imageUrl := "https://cdn.example.com/products/premium-crewneck/main.png";
     Payload.price := Some Num.infinity; Payload.salePrice := Some (Num.ofZ 15);
     Payload.offerStart := None; Payload.offerEnd := None;
     Payload.currency := None; Payload.stock := Some (Num.ofZ 18);
     Payload.variants := None; Payload.isActive := None |}.

Definition overflowDoc : Product.t :=
  {| Product._id := idB; Product.title := Some "Premium Crewneck Tee";
     Product.slug := Some "premium-crewneck-tee"; Product.description := None;
     Product.brand := None; Product.category := None;
     Product.mainAttributeId := None;
     Product.imageUrl := Some "https://cdn.example.com/products/premium-crewneck/main.png";
     Product.price := Some Num.infinity; Product.salePrice := Some (Num.ofZ 15);
     Product.offerStart := None; Product.offerEnd := None;
     Product.currency := Some "USD"; Product.stock := Some (Num.ofZ 18);
     Product.variants := []; Product.isActive := Some true;
     Product.totalStock := Num.ofZ 18 |}.

(** A variant with such a price and a sale price of 15. *)
Definition overflowVariant : Variant.t :=
  {| Variant.sku := Some "SOCKS-S"; Variant.price := Some Num.infinity;
     Variant.salePrice := Some (Num.ofZ 15);
     Variant.values := [pairDoc sizeId sizeS 30];
     Variant.stock := Some (Num.ofZ 30); Variant.imageUrl := None;
     Variant.barcode := None; Variant.isActive := true |}.

End Sample.

(** * Properties *)

(** ** Slug normalisation *)

Section SlugFacts.

Import Js.

Lemma chars_str l : chars (str l) = l.
Proof. apply list_ascii_of_string_of_list_ascii. Qed.

Lemma str_chars s : str (chars s) = s.
Proof. apply string_of_list_ascii_of_string. Qed.

Lemma normalizeSlug_chars s : chars (normalizeSlug s) = normalize_chars (chars s).
Proof.
  unfold normalizeSlug, normalize_chars, trim, toLowerCase.
  now rewrite !chars_str.
Qed.

Lemma hyphen_char c : is_hyphen c = true -> c = "-"%char.
Proof.
  destruct c as [[] [] [] [] [] [] [] []]; vm_compute; congruence.
Qed.

Lemma alnum_not_hyphen c : is_lower_alnum c = true -> is_hyphen c = false.
Proof.
  destruct c as [[] [] [] [] [] [] [] []]; vm_compute; congruence.
Qed.

Lemma slug_char_fixed c :
  is_lower_alnum c || is_hyphen c = true ->
  lower_char c = c /\ is_space c = false.
Proof.
  destruct c as [[] [] [] [] [] [] [] []]; vm_compute; intuition congruence.
Qed.

Lemma slug_run_chars b l :
  slug_run b l = true -> Forall (fun c => lower_char c = c /\ is_space c = false) l.
Proof.
  revert b; induction l as [|c t IH]; intros b H; constructor.
  - apply slug_char_fixed. simpl in H.
    destruct (is_lower_alnum c); [reflexivity|].
    apply andb_prop in H as [H _]. apply andb_prop in H as [H _]. now rewrite H.
  - simpl in H. destruct (is_lower_alnum c); [now apply (IH false)|].
    apply andb_prop in H as [_ H]. now apply (IH true).
Qed.

Lemma slug_run_replace b l : slug_run b (replace_runs b l) = true.
Proof.
  revert b; induction l as [|c t IH]; intros b; simpl; [reflexivity|].
  destruct (is_lower_alnum c) eqn:E.
  - simpl. now rewrite E.
  - destruct b; [apply IH|]. simpl. now rewrite IH.
Qed.

Lemma replace_runs_fixed b l : slug_run b l = true -> replace_runs b l = l.
Proof.
  revert b; induction l as [|c t IH]; intros b H; simpl in *; [reflexivity|].
  destruct (is_lower_alnum c).
  - f_equal. now apply IH.
  - apply andb_prop in H as [H Ht]. apply andb_prop in H as [Hc Hb].
    destruct b; [discriminate|].
    rewrite (hyphen_char c Hc). f_equal. now apply IH.
Qed.

Lemma slug_run_weaken l : slug_run true l = true -> slug_run false l = true.
Proof.
  destruct l as [|c t]; simpl; [easy|].
  destruct (is_lower_alnum c); [easy|].
  rewrite andb_false_r. discriminate.
Qed.

Lemma slug_run_drop_first l :
  slug_run false l = true -> slug_run true (drop_first_hyphen l) = true.
Proof.
  destruct l as [|c t]; simpl; [easy|].
  destruct (is_lower_alnum c) eqn:E.
  - rewrite (alnum_not_hyphen c E). simpl. now rewrite E.
  - intros H. apply andb_prop in H as [H Ht]. apply andb_prop in H as [Hc _].
    now rewrite Hc.
Qed.

Lemma slug_run_drop_last b l :
  slug_run b l = true -> slug_run b (drop_last_hyphen l) = true.
Proof.
  revert b; induction l as [|c t IH]; intros b H; [reflexivity|].
  destruct t as [|c' t'].
  - simpl. destruct (is_hyphen c); [reflexivity|assumption].
  - change (drop_last_hyphen (c :: c' :: t')) with (c :: drop_last_hyphen (c' :: t')).
    simpl in H |- *. destruct (is_lower_alnum c).
    + now apply (IH false).
    + apply andb_prop in H as [H Ht]. rewrite H. now apply (IH true).
Qed.

Lemma ends_hyphen_drop_last b l :
  l <> [] -> slug_run b l = true ->
  ends_hyphen_from b (drop_last_hyphen l) = false.
Proof.
  revert b; induction l as [|c t IH]; intros b Hne H; [congruence|].
  destruct t as [|c' t'].
  - simpl in *. destruct (is_lower_alnum c) eqn:E.
    + rewrite (alnum_not_hyphen c E). simpl. now apply alnum_not_hyphen.
    + apply andb_prop in H as [H _]. apply andb_prop in H as [Hc Hb].
      rewrite Hc. simpl. now destruct b.
  - change (drop_last_hyphen (c :: c' :: t')) with (c :: drop_last_hyphen (c' :: t')).
    cbn [ends_hyphen_from]. simpl in H.
    destruct (is_lower_alnum c) eqn:E.
    + rewrite (alnum_not_hyphen c E). now apply IH.
    + apply andb_prop in H as [H Ht]. apply andb_prop in H as [Hc _].
      rewrite Hc. now apply IH.
Qed.

Lemma ends_hyphen_nonempty b b' l :
  l <> [] -> ends_hyphen_from b l = ends_hyphen_from b' l.
Proof. destruct l; [congruence|reflexivity]. Qed.

Lemma strip_edges_shaped l :
  slug_run false l = true -> slug_shaped (strip_edges l).
Proof.
  intros H. unfold strip_edges.
  pose proof (slug_run_drop_first l H) as H1.
  split; [now apply slug_run_drop_last|].
  destruct (drop_first_hyphen l) as [|c t] eqn:E; [reflexivity|].
  pose proof (ends_hyphen_drop_last true (c :: t) ltac:(congruence) H1) as H2.
  destruct (drop_last_hyphen (c :: t)) as [|d u]; [discriminate|exact H2].
Qed.

Lemma normalize_chars_shaped l : slug_shaped (normalize_chars l).
Proof. apply strip_edges_shaped, slug_run_replace. Qed.

Lemma drop_last_fixed b l :
  ends_hyphen_from b l = false -> drop_last_hyphen l = l.
Proof.
  revert b; induction l as [|c t IH]; intros b H; [reflexivity|].
  destruct t as [|c' t'].
  - simpl in *. now rewrite H.
  - change (drop_last_hyphen (c :: c' :: t')) with (c :: drop_last_hyphen (c' :: t')).
    f_equal. now apply (IH (is_hyphen c)).
Qed.

Lemma drop_first_fixed l : slug_run true l = true -> drop_first_hyphen l = l.
Proof.
  destruct l as [|c t]; simpl; [easy|].
  destruct (is_lower_alnum c) eqn:E.
  - now rewrite (alnum_not_hyphen c E).
  - rewrite andb_false_r. discriminate.
Qed.

Lemma drop_while_fixed l :
  Forall (fun c => is_space c = false) l -> drop_while is_space l = l.
Proof. destruct 1 as [|c t Hc _]; simpl; [reflexivity|now rewrite Hc]. Qed.

Lemma trim_chars_fixed l :
  Forall (fun c => is_space c = false) l -> trim_chars l = l.
Proof.
  intros H. unfold trim_chars. rewrite (drop_while_fixed l H).
  rewrite drop_while_fixed; [apply rev_involutive|].
  now apply Forall_rev.
Qed.

Lemma map_lower_fixed l : Forall (fun c => lower_char c = c) l -> map lower_char l = l.
Proof. induction 1 as [|c t Hc _ IH]; simpl; [reflexivity|now rewrite Hc, IH]. Qed.

Lemma normalize_chars_fixed l : slug_shaped l -> normalize_chars l = l.
Proof.
  intros [Hrun Hend]. unfold normalize_chars.
  pose proof (slug_run_chars true l Hrun) as Hall.
  rewrite map_lower_fixed by (eapply Forall_impl; [exact Hall|]; simpl; tauto).
  rewrite trim_chars_fixed by (eapply Forall_impl; [exact Hall|]; simpl; tauto).
  rewrite (replace_runs_fixed false l (slug_run_weaken l Hrun)).
  unfold strip_edges. rewrite (drop_first_fixed l Hrun).
  now apply (drop_last_fixed false).
Qed.

End SlugFacts.

(** C9. Slug normalisation (lower-case, trim, every run of code units
    outside [a-z0-9] collapsed to one hyphen, hyphens at the two ends
    stripped) is idempotent: normalising a normalised slug gives it back.
    "Crew Socks!!" normalises to "crew-socks", and "crew-socks" to itself. *)
Theorem normalizeSlug_idempotent :
  (forall s : string, normalizeSlug (normalizeSlug s) = normalizeSlug s)
  /\ normalizeSlug "Crew Socks!!" = "crew-socks"
  /\ normalizeSlug "crew-socks" = "crew-socks".
Proof.
  split; [|split; reflexivity].
  intros s. rewrite <- (str_chars (normalizeSlug (normalizeSlug s))).
  rewrite <- (str_chars (normalizeSlug s)) at 2. f_equal.
  rewrite !normalizeSlug_chars.
  apply normalize_chars_fixed, normalize_chars_shaped.
Qed.

(** ** Numbers *)

Section NumFacts.

Lemma shr_1_nonneg mrs : (0 <= shr_m mrs)%Z -> (0 <= shr_m (shr_1 mrs))%Z.
Proof.
  destruct mrs as [m r s]. simpl.
  destruct m as [|[p|p|]|[p|p|]]; simpl; lia.
Qed.

Lemma iter_pos_nonneg n mrs :
  (0 <= shr_m mrs)%Z -> (0 <= shr_m (SpecFloat.iter_pos shr_1 n mrs))%Z.
Proof.
  revert mrs; induction n as [n IH|n IH|]; intros mrs H; simpl.
  - apply IH, IH, shr_1_nonneg, H.
  - apply IH, IH, H.
  - apply shr_1_nonneg, H.
Qed.

Lemma shr_fexp_nonneg m e l :
  (0 <= m)%Z -> (0 <= shr_m (fst (shr_fexp Num.prec Num.emax m e l)))%Z.
Proof.
  intros H. unfold shr_fexp, shr.
  assert (0 <= shr_m (shr_record_of_loc m l))%Z as H0
    by (destruct l as [|[]]; exact H).
  destruct (_ - e)%Z; simpl; [exact H0| |exact H0].
  now apply iter_pos_nonneg.
Qed.

Lemma round_nearest_even_nonneg m l : (0 <= m)%Z -> (0 <= round_nearest_even m l)%Z.
Proof. destruct l as [|[]]; simpl; [lia| |lia|lia]. destruct (Z.even m); lia. Qed.

Lemma binary_round_aux_signed s m e l :
  (0 <= m)%Z -> signed s (binary_round_aux Num.prec Num.emax s m e l).
Proof.
  intros H. unfold binary_round_aux.
  pose proof (shr_fexp_nonneg m e l H) as H1.
  destruct (shr_fexp Num.prec Num.emax m e l) as [mrs' e']. simpl in H1.
  pose proof (shr_fexp_nonneg _ e' loc_Exact
                (round_nearest_even_nonneg _ (loc_of_shr_record mrs') H1)) as H2.
  destruct (shr_fexp Num.prec Num.emax _ e' loc_Exact) as [mrs'' e'']. simpl in H2.
  destruct (shr_m mrs'') as [|q|q]; [reflexivity| |lia].
  destruct (_ <=? _)%Z; reflexivity.
Qed.

Lemma binary_round_signed s m e : signed s (binary_round Num.prec Num.emax s m e).
Proof.
  unfold binary_round. destruct (shl_align _ _ _) as [mz ez].
  now apply binary_round_aux_signed.
Qed.

Lemma nonneg_cases x :
  Num.leb Num.zero x = true <-> (exists s, x = S754_zero s) \/ signed false x.
Proof.
  destruct x as [s|[]| |[] m e]; cbn; split; intros H; try discriminate; try reflexivity.
  all: try (destruct H as [[? ?]|?]; discriminate).
  all: try (destruct H as [[? ?]|?]; [discriminate|contradiction]).
  all: try (now right).
  all: try (left; now exists s).
Qed.

Lemma signed_nonneg x : signed false x -> Num.leb Num.zero x = true.
Proof. intros H. apply nonneg_cases. now right. Qed.

Lemma add_signed x y :
  signed false x -> Num.leb Num.zero y = true -> signed false (Num.add x y).
Proof.
  intros Hx [[s ->]|Hy]%nonneg_cases.
  - destruct x as [sx|sx| |sx m e]; simpl in Hx; subst; try contradiction;
      try reflexivity. now destruct s.
  - destruct x as [sx|sx| |sx mx ex], y as [sy|sy| |sy my ey]; simpl in Hx, Hy; subst;
      try contradiction; try reflexivity.
    unfold Num.add, SFadd. cbn [cond_Zopp Z.add]. unfold binary_normalize.
    apply binary_round_signed.
Qed.

Lemma add_or0 x y :
  signed false x -> Num.leb Num.zero y = true ->
  Num.add x (Num.or0 (Some y)) = Num.add x y.
Proof.
  intros Hx [[s ->]|Hy]%nonneg_cases.
  - destruct x as [sx|sx| |sx m e]; simpl in Hx; subst; try contradiction;
      try reflexivity. now destruct s.
  - destruct y; simpl in Hy; subst; try contradiction; reflexivity.
Qed.

Lemma or0_nonneg y :
  Num.leb Num.zero y = true ->
  Num.eqb (Num.or0 (Some y)) y = true
  /\ (Num.or0 (Some y) = y \/ y = S754_zero true)
  /\ signed false (Num.or0 (Some y)).
Proof.
  intros [[s ->]|Hy]%nonneg_cases.
  - destruct s; cbn; auto.
  - destruct y as [s|s| |s m e]; simpl in Hy; subst; try contradiction; cbn; auto.
    split; [|auto]. now rewrite Z.compare_refl, Pos.compare_cont_refl.
Qed.

Lemma ltb_above_nonneg e b :
  Num.leb Num.zero e = true -> Num.ltb e b = true -> Num.ltb Num.zero b = true.
Proof.
  intros [[s ->]|He]%nonneg_cases.
  - destruct b as [sb|[]| |[] m ex]; cbn; intros H; try discriminate; reflexivity.
  - destruct e as [s|s| |s m ex]; simpl in He; subst; try contradiction;
      destruct b as [sb|[]| |[] mb eb]; cbn; intros H; try discriminate; reflexivity.
Qed.

Lemma ltb_irrefl x : Num.ltb x x = false.
Proof.
  destruct x as [s|[]| |[] m e]; cbn; try reflexivity.
  all: now rewrite Z.compare_refl, Pos.compare_cont_refl.
Qed.

End NumFacts.

(** ** Writes: create and update *)

Section WriteFacts.

Lemma sumStock_from acc vs stocks :
  map Variant.stock vs = map Some stocks ->
  Forall (fun n => Num.leb Num.zero n = true) stocks ->
  signed false acc ->
  fold_left (fun sum v => Num.add sum (Num.or0 (Variant.stock v))) vs acc
  = fold_left Num.add stocks acc
  /\ signed false (fold_left Num.add stocks acc).
Proof.
  revert acc stocks; induction vs as [|v t IH]; intros acc [|n stocks] H Hall Hacc;
    try discriminate; simpl in *.
  - auto.
  - injection H as Hv Ht. apply Forall_cons in Hall as [Hn Hall].
    rewrite Hv, (add_or0 acc n Hacc Hn).
    apply IH; [assumption..|]. now apply add_signed.
Qed.

Lemma variant_stocks vs :
  forallb Model.validVariantDoc vs = true ->
  exists stocks, map Variant.stock vs = map Some stocks
    /\ Forall (fun n => Num.leb Num.zero n = true) stocks.
Proof.
  induction vs as [|v t IH]; simpl; intros H.
  - exists []. split; [reflexivity|constructor].
  - apply andb_prop in H as [Hv Ht]. destruct (IH Ht) as (stocks & Hs & Hall).
    unfold Model.validVariantDoc in Hv.
    do 8 (apply andb_prop in Hv as [Hv ?]).
    destruct (Variant.stock v) as [n|] eqn:E.
    + exists (n :: stocks). simpl. rewrite Hs. split; [reflexivity|].
      constructor; assumption.
    + match goal with H : bool_decide (is_Some None) = true |- _ =>
        apply bool_decide_eq_true in H; destruct H; discriminate end.
Qed.

Lemma valid_stock p :
  Model.validProductDoc p = true -> Model.minZero (Product.stock p) = true.
Proof.
  unfold Model.validProductDoc. intros H.
  do 8 (apply andb_prop in H as [H ?]). assumption.
Qed.

Lemma valid_stored p : Model.validProductDoc p = true -> storedValid p.
Proof.
  unfold Model.validProductDoc, storedValid. intros H.
  repeat (apply andb_prop in H as [H ?]). auto.
Qed.

Lemma valid_variants p :
  Model.validProductDoc p = true ->
  forallb Model.validVariantDoc (Product.variants p) = true.
Proof. intros H. apply (valid_stored p H). Qed.

Lemma hasPairFor_spec main v :
  Model.hasPairFor main v = true ->
  exists pair, pair ∈ Variant.values v /\ VariantValue.attributeId pair = main.
Proof.
  unfold Model.hasPairFor. rewrite existsb_exists. intros (pair & Hin & Heq).
  exists pair. split; [now apply list_elem_of_In|now apply String.eqb_eq].
Qed.

Lemma preValidate_ok p p1 :
  Model.preValidate p = inr p1 ->
  Model.validProductDoc p1 = true ->
  stockConsistent p1 /\ mainCovers p1 /\ Product._id p1 = Product._id p
  /\ Product.mainAttributeId p1 = Product.mainAttributeId p.
Proof.
  unfold Model.preValidate. intros H Hvalid.
  destruct (bool_decide (Product.variants p = [])) eqn:Eb; cbn [negb] in H.
  - apply bool_decide_eq_true in Eb.
    destruct (Product.price p); [|discriminate].
    destruct (Product.stock p) as [n|] eqn:Es; [|discriminate].
    injection H as <-. apply valid_stock in Hvalid. cbn in Hvalid.
    destruct (or0_nonneg n Hvalid) as (Heq & Hsame & _).
    unfold stockConsistent, mainCovers. cbn. rewrite Eb.
    split; [exists n; auto|]. split; [congruence|split; reflexivity].
  - apply bool_decide_eq_false in Eb.
    destruct (truthy (Product.mainAttributeId p)) eqn:Et; cbn [negb] in H; [|discriminate].
    destruct (forallb _ _) eqn:Hall in H; cbn [negb] in H; [|discriminate].
    destruct (Product.mainAttributeId p) as [main|] eqn:Em; [|discriminate Et].
    injection H as <-. apply valid_variants in Hvalid.
    unfold stockConsistent, mainCovers. cbn in *.
    split; [|split; [|split; [reflexivity|exact Em]]].
    + destruct (Product.variants p) as [|v vs] eqn:Evs; [congruence|].
      split; [reflexivity|].
      destruct (variant_stocks _ Hvalid) as (stocks & Hs & Hnn).
      exists stocks. split; [exact Hs|].
      unfold Model.sumStock, sumNum.
      now destruct (sumStock_from Num.zero (v :: vs) stocks Hs Hnn eq_refl) as [-> _].
    + intros _. exists main. split; [exact Em|]. intros w Hw.
      apply hasPairFor_spec. rewrite forallb_forall in Hall. apply Hall.
      now apply list_elem_of_In.
Qed.

Lemma preSave_keeps tm sm p :
  let q := Model.preSave tm sm p in
  Product._id q = Product._id p /\ Product.variants q = Product.variants p
  /\ Product.stock q = Product.stock p /\ Product.totalStock q = Product.totalStock p
  /\ Product.mainAttributeId q = Product.mainAttributeId p
  /\ Product.price q = Product.price p /\ Product.salePrice q = Product.salePrice p.
Proof.
  unfold Model.preSave. destruct (tm && negb sm); [|easy].
  destruct (Product.title p); easy.
Qed.

Lemma prepare_ok tm sm p q :
  Model.prepare tm sm p = inr q ->
  stockConsistent q /\ mainCovers q /\ Product._id q = Product._id p
  /\ Product.mainAttributeId q = Product.mainAttributeId p /\ storedValid q.
Proof.
  unfold Model.prepare. destruct (Model.preValidate p) as [e|p1] eqn:Epre; [discriminate|].
  destruct (Model.validProductDoc p1) eqn:Ev; [|discriminate].
  intros [= <-]. destruct (preValidate_ok p p1 Epre Ev) as (Hs & Hm & Hid & Hmain).
  destruct (preSave_keeps tm sm p1) as (Kid & Kvs & Kst & Ktot & Kmain & Kp & Ksp).
  pose proof (valid_stored p1 Ev) as Hst.
  unfold stockConsistent, mainCovers, storedValid in *.
  rewrite Kid, Kvs, Kst, Ktot, Kmain, Kp, Ksp. auto.
Qed.

Lemma model_create_ok store ss doc p store' :
  Model.create store ss doc = inr (p, store') ->
  Model.prepare true ss doc = inr p
  /\ store' = (store ++ [p])%list
  /\ Model.holdsId store (Product._id p) = false.
Proof.
  unfold Model.create. destruct (Model.prepare true ss doc) as [e|q]; [discriminate|].
  destruct (Model.holdsId store (Product._id q)) eqn:Eh; [discriminate|]. cbn [orb].
  destruct (Model.sameSlugElsewhere store q); [discriminate|].
  intros [= <- <-]. auto.
Qed.

Lemma model_save_ok store old doc p store' :
  Model.save store old doc = inr (p, store') ->
  (exists tm sm, Model.prepare tm sm doc = inr p)
  /\ store' = Model.replaceDoc store p.
Proof.
  unfold Model.save.
  destruct (Model.prepare _ _ doc) as [e|q] eqn:E; [discriminate|].
  destruct (Model.sameSlugElsewhere store q); [discriminate|].
  intros [= <- <-]. eauto.
Qed.

Lemma caught_not_created {A} what e (p : A) : Controller.caught what e <> Created p.
Proof. now destruct e. Qed.

Lemma caught_not_ok {A} what e (p : A) : Controller.caught what e <> Ok p.
Proof. now destruct e. Qed.

Lemma persistNew_cases store payload doc r store' :
  Controller.persistNew store payload doc = (r, store') ->
  (store' = store /\ forall p, r <> Created p)
  \/ exists ss p, r = Created p /\ Model.create store ss doc = inr (p, store').
Proof.
  unfold Controller.persistNew.
  destruct (snd (Controller.payloadCategory payload)).
  - destruct (Model.create store _ doc) as [e|[q st]] eqn:E.
    + intros [= <- <-]. left. split; [reflexivity|]. intros p. apply caught_not_created.
    + intros [= <- <-]. right. eauto.
  - intros [= <- <-]. left. split; [reflexivity|]. discriminate.
Qed.

Lemma create_cases catalog store newId payload r store' :
  Controller.create catalog store newId payload = (r, store') ->
  (store' = store /\ forall p, r <> Created p)
  \/ exists ss doc p,
       r = Created p /\ Product._id doc = newId
       /\ Model.create store ss doc = inr (p, store').
Proof.
  unfold Controller.create. intros H.
  repeat case_match; simplify_eq;
    try (left; split; [reflexivity|discriminate]);
    (apply persistNew_cases in H as [?|(ss & p & -> & H)];
     [now left|right; eexists _, _, _; split; [reflexivity|split; [|exact H]]; reflexivity]).
Qed.

Lemma applyBody_id body product category :
  Product._id (Controller.applyBody body product category) = Product._id product.
Proof. reflexivity. Qed.

Lemma update_cases store body r store' :
  Controller.updateById store body = (r, store') ->
  (store' = store /\ forall p, r <> Ok p)
  \/ exists old doc p,
       r = Ok p /\ Model.findById store (Product._id old) = Some old
       /\ Product._id doc = Product._id old
       /\ Model.save store old doc = inr (p, store').
Proof.
  unfold Controller.updateById. intros H.
  repeat case_match; simplify_eq;
    try (left; split; [reflexivity|discriminate]);
    try (left; split; [reflexivity|intros ?; apply caught_not_ok]);
    right; eexists _, _, _; (split; [reflexivity|]);
    match goal with
    | Hb : _ ≫= Model.findById _ = Some ?old |- _ =>
        apply bind_Some in Hb as (oid & _ & Hf);
        assert (Product._id old = oid) as Hid
          by (unfold Model.findById in Hf; apply find_some in Hf as [_ Hf];
              now apply String.eqb_eq in Hf);
        rewrite Hid; split; [exact Hf|]; split; [|eassumption]; exact Hid
    end.
Qed.

Lemma findById_app_new store p :
  Model.holdsId store (Product._id p) = false ->
  Model.findById (store ++ [p])%list (Product._id p) = Some p.
Proof.
  unfold Model.holdsId, Model.findById.
  induction store as [|d t IH]; simpl; intros H.
  - now rewrite String.eqb_refl.
  - apply orb_false_elim in H as [Hd Ht]. rewrite Hd. now apply IH.
Qed.

Lemma findById_replaceDoc store p old :
  Model.findById store (Product._id p) = Some old ->
  Model.findById (Model.replaceDoc store p) (Product._id p) = Some p.
Proof.
  unfold Model.findById, Model.replaceDoc.
  induction store as [|d t IH]; simpl; [discriminate|].
  destruct (String.eqb (Product._id d) (Product._id p)) eqn:E; simpl.
  - now rewrite String.eqb_refl.
  - rewrite E. exact IH.
Qed.

Lemma elem_of_replaceDoc store p d :
  d ∈ Model.replaceDoc store p -> d = p \/ d ∈ store.
Proof.
  unfold Model.replaceDoc. intros (d0 & -> & Hd0)%list_elem_of_fmap.
  destruct (String.eqb _ _); auto.
Qed.

Lemma written_facts store p store' :
  Written store p store' ->
  stockConsistent p /\ mainCovers p /\ storedValid p
  /\ Model.findById store' (Product._id p) = Some p
  /\ forall d, d ∈ store' -> d = p \/ d ∈ store.
Proof.
  intros [catalog st newId payload q st' H|st body q st' H].
  - apply create_cases in H as [[_ H]|(ss & doc & q' & [= <-] & _ & H)];
      [now destruct (H q)|].
    apply model_create_ok in H as (Hp & -> & Hfresh).
    destruct (prepare_ok _ _ _ _ Hp) as (Hs & Hm & _ & _ & Hv).
    split; [|split; [|split; [|split]]]; [assumption..|now apply findById_app_new|].
    intros d [Hd|Hd%list_elem_of_singleton]%elem_of_app; auto.
  - apply update_cases in H as [[_ H]|(old & doc & q' & [= <-] & Hold & Hid & H)];
      [now destruct (H q)|].
    apply model_save_ok in H as ((tm & sm & Hp) & ->).
    destruct (prepare_ok _ _ _ _ Hp) as (Hs & Hm & Hpid & _ & Hv).
    split; [|split; [|split; [|split]]];
      [assumption..| |intros d; apply elem_of_replaceDoc].
    apply (findById_replaceDoc _ _ old). now rewrite Hpid, Hid.
Qed.

Lemma mainCovers_excludes p :
  mainCovers p -> ~ variantsWithoutMain p /\ ~ variantOffMain p.
Proof.
  intros Hm. split.
  - intros [Hne Hnone]. destruct (Hm Hne) as (main & Hsome & _). congruence.
  - intros (v & Hv & Hoff).
    assert (Product.variants p <> []) as Hne by (intros E; rewrite E in Hv; inversion Hv).
    destruct (Hm Hne) as (main & Hsome & Hall).
    destruct (Hall v Hv) as (pair & Hpair & Heq).
    apply (Hoff pair Hpair). now rewrite Heq, Hsome.
Qed.

Lemma step_store (r : Product.t -> Prop) store store' :
  (store' = store \/ exists p, Written store p store') ->
  (forall d, d ∈ store -> r d) ->
  (forall p, Written store p store' -> r p) ->
  forall d, d ∈ store' -> r d.
Proof.
  intros [->|[p Hw]] Hold Hnew d Hd; [auto|].
  destruct (written_facts _ _ _ Hw) as (_ & _ & _ & _ & Hin).
  destruct (Hin d Hd) as [->|]; auto.
Qed.

Lemma create_step catalog store newId payload :
  let store' := snd (Controller.create catalog store newId payload) in
  store' = store \/ exists p, Written store p store'.
Proof.
  destruct (Controller.create catalog store newId payload) as [r st] eqn:E. simpl.
  destruct (create_cases _ _ _ _ _ _ E) as [[-> _]|(ss & doc & p & -> & _ & _)]; [now left|].
  right. exists p. eapply written_create. exact E.
Qed.

Lemma update_step store body :
  let store' := snd (Controller.updateById store body) in
  store' = store \/ exists p, Written store p store'.
Proof.
  destruct (Controller.updateById store body) as [r st] eqn:E. simpl.
  destruct (update_cases _ _ _ _ E) as [[-> _]|(old & doc & p & -> & _)]; [now left|].
  right. exists p. eapply written_update. exact E.
Qed.

Lemma delete_step store ids d :
  d ∈ snd (Controller.bulkDelete store ids) -> d ∈ store.
Proof.
  unfold Controller.bulkDelete, Model.deleteMany.
  repeat case_match; simplify_eq; simpl; try easy;
    now intros [_ ?]%list_elem_of_filter.
Qed.

Lemma reachable_all (r : Product.t -> Prop) :
  (forall store p store', Written store p store' -> r p) ->
  forall store, Reachable store -> forall d, d ∈ store -> r d.
Proof.
  intros Hw store Hreach.
  induction Hreach as [|catalog store newId payload _ IH|store body _ IH|store ids _ IH];
    intros d Hd.
  - inversion Hd.
  - eapply step_store; [apply create_step|exact IH|intros p; apply Hw|exact Hd].
  - eapply step_store; [apply update_step|exact IH|intros p; apply Hw|exact Hd].
  - apply IH. eapply delete_step, Hd.
Qed.

End WriteFacts.

(** C1. After a successful create or update the stored document is the
    one the handler answers with, and its [totalStock] is right for its
    mode: equal to [stock] when it has no variants; otherwise the sum of the
    stocks of its variants, added from the left as numbers are added, with
    the top-level [stock] cleared. *)
Theorem totalStock_after_write store p store' :
  Written store p store' ->
  Model.findById store' (Product._id p) = Some p /\ stockConsistent p.
Proof. intros H. destruct (written_facts _ _ _ H) as (? & _ & _ & ? & _). auto. Qed.

Lemma totalStock_after_write_witness :
  Written [] Sample.socksDoc [Sample.socksDoc]
  /\ Model.findById [Sample.socksDoc] (Product._id Sample.socksDoc) = Some Sample.socksDoc
  /\ stockConsistent Sample.socksDoc.
Proof.
  assert (Written [] Sample.socksDoc [Sample.socksDoc]) as H.
  { apply (written_create Sample.catalog [] Sample.idA (Sample.socks None)).
    vm_compute. reflexivity. }
  split; [exact H|]. exact (totalStock_after_write _ _ _ H).
Defined.

(** C2. In no collection the handlers can produce is there a product with
    variants and no [mainAttributeId], nor one with a variant none of whose
    pairs has [attributeId] equal to [mainAttributeId]. *)
Theorem main_attribute_invariant store :
  Reachable store ->
  forall p, p ∈ store -> ~ variantsWithoutMain p /\ ~ variantOffMain p.
Proof.
  apply (reachable_all (fun p => ~ variantsWithoutMain p /\ ~ variantOffMain p)).
  intros st p st' H. apply mainCovers_excludes.
  now destruct (written_facts _ _ _ H) as (_ & ? & _).
Qed.

Lemma main_attribute_invariant_witness :
  Reachable [Sample.socksDoc]
  /\ ~ variantsWithoutMain Sample.socksDoc /\ ~ variantOffMain Sample.socksDoc.
Proof.
  assert (Reachable [Sample.socksDoc]) as H.
  { assert (snd (Controller.create Sample.catalog [] Sample.idA (Sample.socks None))
            = [Sample.socksDoc]) as E by (vm_compute; reflexivity).
    rewrite <- E. apply reach_create, reach_empty. }
  split; [exact H|].
  apply (main_attribute_invariant [Sample.socksDoc] H). constructor.
Defined.

(** ** Whole numbers *)

Section WholeFacts.

Local Open Scope Z_scope.

Lemma iter_xO_Z m d : Z.pos (Pos.iter xO m d) = Z.pos m * 2 ^ Z.pos d.
Proof.
  induction d as [|d IH] using Pos.peano_ind.
  - simpl. lia.
  - rewrite Pos.iter_succ, Pos2Z.inj_succ, Z.pow_succ_r by lia.
    rewrite Pos2Z.inj_xO, IH. lia.
Qed.

Lemma digits_iter_xO m d :
  Z.pos (digits2_pos (Pos.iter xO m d)) = Z.pos (digits2_pos m) + Z.pos d.
Proof.
  induction d as [|d IH] using Pos.peano_ind.
  - simpl. lia.
  - rewrite Pos.iter_succ. simpl digits2_pos. rewrite Pos2Z.inj_succ, IH. lia.
Qed.

Lemma iter_pos_iter {A} (f : A -> A) n x : SpecFloat.iter_pos f n x = Pos.iter f x n.
Proof.
  revert x. induction n as [n IH|n IH|]; intros x; simpl.
  - rewrite !IH. now rewrite <- !Pos.iter_swap.
  - now rewrite !IH.
  - reflexivity.
Qed.

(** Shifting out [k] zero bits. *)
Lemma shr_zeros m k :
  Pos.iter shr_1 {| shr_m := Z.pos (Pos.iter xO m k); shr_r := false; shr_s := false |} k
  = {| shr_m := Z.pos m; shr_r := false; shr_s := false |}.
Proof.
  revert m. induction k as [|k IH] using Pos.peano_ind; intros m.
  - reflexivity.
  - rewrite Pos.iter_succ. rewrite Pos.iter_succ_r. now rewrite IH.
Qed.

Lemma shr_shift m k E n :
  0 <= n ->
  shr {| shr_m := Z.pos (Pos.iter xO m k); shr_r := false; shr_s := false |}
    (E - Z.pos k) (n + Z.pos k)
  = shr {| shr_m := Z.pos m; shr_r := false; shr_s := false |} E n.
Proof.
  intros Hn. destruct n as [|p|p]; [| |lia]; simpl.
  - rewrite iter_pos_iter, shr_zeros. f_equal. lia.
  - rewrite !iter_pos_iter, Pos.iter_add, shr_zeros. f_equal. lia.
Qed.

Lemma binary_round_aux_shift s m k e :
  e <= fexp Num.prec Num.emax (Z.pos (digits2_pos m) + e) ->
  binary_round_aux Num.prec Num.emax s (Z.pos (Pos.iter xO m k)) (e - Z.pos k) loc_Exact
  = binary_round_aux Num.prec Num.emax s (Z.pos m) e loc_Exact.
Proof.
  intros H. unfold binary_round_aux.
  assert (shr_fexp Num.prec Num.emax (Z.pos (Pos.iter xO m k)) (e - Z.pos k) loc_Exact
          = shr_fexp Num.prec Num.emax (Z.pos m) e loc_Exact) as ->; [|reflexivity].
  unfold shr_fexp. cbn [shr_record_of_loc Zdigits2].
  rewrite digits_iter_xO.
  replace (Z.pos (digits2_pos m) + Z.pos k + (e - Z.pos k))
    with (Z.pos (digits2_pos m) + e) by lia.
  set (t := fexp Num.prec Num.emax (Z.pos (digits2_pos m) + e)) in *.
  replace (t - (e - Z.pos k)) with ((t - e) + Z.pos k) by lia.
  apply shr_shift. lia.
Qed.

(** The same value with [k] more zero bits in the mantissa rounds to the
    same number. *)
Lemma binary_round_shift s m k e :
  binary_round Num.prec Num.emax s (Pos.iter xO m k) (e - Z.pos k)
  = binary_round Num.prec Num.emax s m e.
Proof.
  unfold binary_round. rewrite digits_iter_xO.
  replace (Z.pos (digits2_pos m) + Z.pos k + (e - Z.pos k))
    with (Z.pos (digits2_pos m) + e) by lia.
  set (t := fexp Num.prec Num.emax (Z.pos (digits2_pos m) + e)).
  unfold shl_align.
  destruct (t - e) as [|d|d] eqn:Ed.
  - assert (t - (e - Z.pos k) = Z.pos k) as -> by lia.
    apply binary_round_aux_shift. fold t. lia.
  - assert (t - (e - Z.pos k) = Z.pos (d + k)) as -> by lia.
    apply binary_round_aux_shift. fold t. lia.
  - destruct (t - (e - Z.pos k)) as [|d'|d'] eqn:Ed'.
    + assert (d = k) as -> by lia.
      replace (e - Z.pos k) with t by lia. reflexivity.
    + assert (k = (d' + d)%positive) as -> by lia.
      rewrite Pos.iter_add.
      replace (e - Z.pos (d' + d)) with (t - Z.pos d') by lia.
      apply binary_round_aux_shift. rewrite digits_iter_xO.
      replace (Z.pos (digits2_pos m) + Z.pos d + t) with (Z.pos (digits2_pos m) + e) by lia.
      fold t. lia.
    + assert (d = (d' + k)%positive) as -> by lia.
      now rewrite Pos.iter_add.
Qed.

Lemma fexp_eq x : fexp Num.prec Num.emax x = Z.max (x - 53) (-1074).
Proof. reflexivity. Qed.

Lemma digits_size m : digits2_pos m = Pos.size m.
Proof. induction m; simpl; congruence. Qed.

Lemma digits_small m : Z.pos m < 2 ^ 53 -> Z.pos (digits2_pos m) <= 53.
Proof.
  intros H. rewrite digits_size.
  pose proof (Pos.size_le m) as Hle.
  apply Pos2Z.pos_le_pos in Hle. rewrite Pos2Z.inj_pow in Hle.
  destruct (Z_le_gt_dec (Z.pos (Pos.size m)) 53) as [|Hgt]; [assumption|exfalso].
  assert (2 ^ 54 <= 2 ^ Z.pos (Pos.size m)) by (apply Z.pow_le_mono_r; lia).
  change ((2 * 1) ^ Z.pos (Pos.size m)) with (2 ^ Z.pos (Pos.size m)) in Hle.
  change (2 ^ 54) with (2 * 2 ^ 53) in *. lia.
Qed.

(** A whole number [a] as a number: mantissa [m] and exponent [e <= 0]
    with [m = a * 2^(-e)]. *)
Lemma binary_round_whole s a :
  Z.pos a < 2 ^ 53 ->
  exists m e, binary_round Num.prec Num.emax s a 0 = S754_finite s m e
    /\ e <= 0 /\ Z.pos m = Z.pos a * 2 ^ (- e).
Proof.
  intros Ha%digits_small. unfold binary_round.
  rewrite fexp_eq, Z.add_0_r.
  set (D := Z.pos (digits2_pos a)) in *.
  assert (1 <= D) by (subst D; lia).
  rewrite Z.max_l by lia. unfold shl_align.
  destruct (D - 53 - 0) as [|d|d] eqn:Ed; [| lia |].
  - exists a, 0. split; [|split; [lia|simpl; lia]].
    unfold binary_round_aux, shr_fexp. cbn [shr_record_of_loc Zdigits2].
    fold D. rewrite fexp_eq, Z.max_l by lia.
    replace (D + 0 - 53 - 0) with 0 by lia. cbn [shr loc_of_shr_record shr_m
      round_nearest_even shr_record_of_loc Zdigits2].
    fold D. rewrite fexp_eq, Z.max_l by lia.
    replace (D + 0 - 53 - 0) with 0 by lia. cbn [shr shr_m]. reflexivity.
  - exists (Pos.iter xO a d), (D - 53). split; [|split; [lia|]].
    + unfold binary_round_aux, shr_fexp. cbn [shr_record_of_loc Zdigits2].
      rewrite digits_iter_xO. fold D. rewrite fexp_eq, Z.max_l by lia.
      replace (D + Z.pos d + (D - 53) - 53 - (D - 53)) with 0 by lia.
      cbn [shr loc_of_shr_record shr_m round_nearest_even shr_record_of_loc Zdigits2].
      rewrite digits_iter_xO. fold D. rewrite fexp_eq, Z.max_l by lia.
      replace (D + Z.pos d + (D - 53) - 53 - (D - 53)) with 0 by lia.
      cbn [shr shr_m].
      destruct (D - 53 <=? Num.emax - Num.prec) eqn:E; [reflexivity|].
      apply Z.leb_gt in E. unfold Num.emax, Num.prec in E. lia.
    + rewrite iter_xO_Z. f_equal. f_equal. lia.
Qed.

Lemma add_whole a b :
  Z.pos a < 2 ^ 53 -> Z.pos b < 2 ^ 53 ->
  Num.add (Num.ofZ (Z.pos a)) (Num.ofZ (Z.pos b)) = Num.ofZ (Z.pos (a + b)).
Proof.
  intros Ha Hb. unfold Num.ofZ, binary_normalize.
  destruct (binary_round_whole false a Ha) as (m1 & e1 & -> & He1 & Hm1).
  destruct (binary_round_whole false b Hb) as (m2 & e2 & -> & He2 & Hm2).
  unfold Num.add, SFadd. cbn [cond_Zopp].
  set (ez := Z.min e1 e2).
  assert (forall m e x, e <= 0 -> ez <= e -> Z.pos m = Z.pos x * 2 ^ (- e) ->
            Z.pos (fst (shl_align m e ez)) = Z.pos x * 2 ^ (- ez)) as Halign.
  { intros m e x He Hez Hm. unfold shl_align.
    destruct (ez - e) as [|d|d] eqn:Ed; [|lia|]; cbn [fst].
    - replace ez with e by lia. exact Hm.
    - rewrite iter_xO_Z, Hm, <- Z.mul_assoc, <- Z.pow_add_r by lia.
      f_equal. f_equal. lia. }
  rewrite (Halign m1 e1 a He1 ltac:(lia) Hm1), (Halign m2 e2 b He2 ltac:(lia) Hm2).
  rewrite <- Z.mul_add_distr_r.
  change (Z.pos a + Z.pos b) with (Z.pos (a + b)).
  assert (ez <= 0) as Hez by lia.
  destruct ez as [|k|k] eqn:Ek; [|lia|].
  - simpl. rewrite Pos.mul_1_r. reflexivity.
  - change (- Z.neg k) with (Z.pos k). rewrite <- iter_xO_Z.
    cbn [binary_normalize].
    exact (binary_round_shift false (a + b) k 0).
Qed.

Lemma ofZ_signed n : 0 <= n -> signed false (Num.ofZ n).
Proof.
  destruct n as [|n|n]; [reflexivity| |lia]. intros _. apply binary_round_signed.
Qed.

Lemma add_zero x :
  signed false x -> Num.add Num.zero x = x /\ Num.add x Num.zero = x.
Proof. destruct x as [s|s| |s m e]; simpl; intros H; subst; auto; contradiction. Qed.

Lemma add_ofZ a b :
  0 <= a -> 0 <= b -> a + b <= 2 ^ 53 ->
  Num.add (Num.ofZ a) (Num.ofZ b) = Num.ofZ (a + b).
Proof.
  intros Ha Hb Hsum.
  destruct (Z.eq_dec a 0) as [-> |Ha0].
  { rewrite Z.add_0_l. apply add_zero, ofZ_signed, Hb. }
  destruct (Z.eq_dec b 0) as [-> |Hb0].
  { rewrite Z.add_0_r. apply add_zero, ofZ_signed, Ha. }
  destruct a as [|a|a], b as [|b|b]; try lia.
  apply add_whole; lia.
Qed.

Lemma sum_whole ns acc :
  Forall (fun n => 0 <= n) ns -> 0 <= acc -> acc + foldr Z.add 0 ns <= 2 ^ 53 ->
  fold_left Num.add (map Num.ofZ ns) (Num.ofZ acc) = Num.ofZ (acc + foldr Z.add 0 ns).
Proof.
  intros H. revert acc. induction H as [|n t Hn Ht IH]; intros acc Hacc Hsum; simpl in *.
  - f_equal. lia.
  - assert (0 <= foldr Z.add 0 t) as Hpos.
    { clear -Ht. induction Ht; simpl; lia. }
    rewrite add_ofZ by lia. rewrite IH by lia. f_equal. lia.
Qed.

(** Sums and quotients round as they do in the code: 2^53 + 1 is 2^53,
    0.1 + 0.2 is not 0.3, and a price of 40 with an effective price of 17
    gives a discount of 57 (57.49999999999999 before [Math.round]) where
    exact arithmetic would give 58; [Math.round] sends 2.5 to 3 and -2.5
    to -2. *)
Remark rounding_as_the_code_rounds :
  Num.add (Num.ofZ (2 ^ 53)) (Num.ofZ 1) = Num.ofZ (2 ^ 53)
  /\ Num.add (Num.dec 1 1) (Num.dec 2 1) <> Num.dec 3 1
  /\ Model.percentOff (Some (Num.ofZ 40)) (Some (Num.ofZ 17)) = Num.ofZ 57
  /\ Num.round (Num.dec 25 1) = Num.ofZ 3
  /\ Num.round (Num.dec (-25) 1) = Num.ofZ (-2).
Proof. vm_compute. repeat split; try reflexivity. discriminate. Qed.

End WholeFacts.

(** X22. When the stocks of the variants of a product just written are
    whole numbers, none negative, whose sum is at most 2^53, the stored
    [totalStock] is exactly that sum: no addition rounds. *)
Theorem whole_stocks_sum_exactly store p store' ns :
  Written store p store' ->
  Product.variants p <> [] ->
  map Variant.stock (Product.variants p) = map (fun n => Some (Num.ofZ n)) ns ->
  Forall (fun n => (0 <= n)%Z) ns ->
  (sumZ ns <= 2 ^ 53)%Z ->
  Product.totalStock p = Num.ofZ (sumZ ns).
Proof.
  intros (Hstock & _)%written_facts Hne Hmap Hpos Hsum.
  unfold stockConsistent in Hstock.
  destruct (Product.variants p) as [|v vs]; [congruence|].
  destruct Hstock as (_ & stocks & Hstocks & ->).
  rewrite Hstocks in Hmap.
  assert (stocks = map Num.ofZ ns) as ->.
  { clear -Hmap. revert ns Hmap. induction stocks as [|x t IH]; intros [|n ns] H;
      try discriminate; [reflexivity|].
    injection H as -> H. simpl. f_equal. now apply IH. }
  unfold sumNum.
  exact (sum_whole ns 0 Hpos (Z.le_refl 0) Hsum).
Qed.

Lemma whole_stocks_sum_exactly_witness :
  Written [] Sample.socksDoc [Sample.socksDoc]
  /\ Product.totalStock Sample.socksDoc = Num.ofZ (sumZ [30; 40]%Z).
Proof.
  assert (Written [] Sample.socksDoc [Sample.socksDoc]) as H.
  { apply (written_create Sample.catalog [] Sample.idA (Sample.socks None)).
    vm_compute. reflexivity. }
  split; [exact H|].
  apply (whole_stocks_sum_exactly [] Sample.socksDoc [Sample.socksDoc] [30; 40]%Z H).
  - discriminate.
  - reflexivity.
  - repeat constructor; lia.
  - vm_compute. discriminate.
Defined.

(** ** The main attribute of a create request *)

Section MainAttributeFacts.

Lemma distinct_from_elem seen xs x :
  x ∈ distinct_from seen xs <-> x ∈ xs /\ x ∉ seen.
Proof.
  revert seen; induction xs as [|y t IH]; intros seen; simpl.
  - split; [inversion 1|intros [H _]; inversion H].
  - case_bool_decide as Hy.
    + rewrite IH, elem_of_cons. split; [tauto|].
      intros [[->|H] Hn]; [contradiction|tauto].
    + rewrite !elem_of_cons, IH, elem_of_cons.
      split.
      * intros [->|[H Hn]]; [tauto|]. split; [tauto|]. intros Hx. apply Hn. now right.
      * intros [[->|H] Hn]; [now left|].
        destruct (decide (x = y)) as [->|Hne]; [now left|].
        right. split; [assumption|]. intros [?|?]; contradiction.
Qed.

Lemma distinct_elem xs x : x ∈ distinct xs <-> x ∈ xs.
Proof.
  unfold distinct. rewrite distinct_from_elem. split; [tauto|].
  intros H. split; [assumption|]. inversion 1.
Qed.

Lemma firstFailure_some {A} (check : A -> option Failure) l f :
  Controller.firstFailure check l = Some f -> exists x, x ∈ l /\ check x = Some f.
Proof.
  induction l as [|x t IH]; simpl; [discriminate|].
  destruct (check x) as [g|] eqn:E.
  - intros [= ->]. exists x. split; [constructor|assumption].
  - intros H. destruct (IH H) as (y & Hy & Hc). exists y. split; [now constructor|assumption].
Qed.

Lemma checkPairs_not_main variants f :
  Controller.checkPairs variants = Some f -> isMainFailure f = false.
Proof.
  intros (v & _ & (pair & _ & H)%firstFailure_some)%firstFailure_some.
  unfold Controller.checkPair in H. repeat case_match; simplify_eq; reflexivity.
Qed.

Lemma checkAllValues_not_main byAttr variants f :
  Controller.checkAllValues byAttr variants = Some f -> isMainFailure f = false.
Proof.
  intros (v & _ & (pair & _ & H)%firstFailure_some)%firstFailure_some.
  unfold Controller.checkValues in H. repeat case_match; simplify_eq; reflexivity.
Qed.

Lemma persistNew_not_bad store payload doc f :
  fst (Controller.persistNew store payload doc) <> BadRequest f.
Proof.
  unfold Controller.persistNew, Controller.caught.
  repeat case_match; simpl; discriminate.
Qed.

Lemma pair_attribute_single variants a v pair :
  Controller.allAttrIds variants = [a] ->
  v ∈ variants -> pair ∈ InputVariant.values v ->
  InputVariantValue.attributeId pair = a.
Proof.
  intros Hids Hv Hp.
  assert (InputVariantValue.attributeId pair ∈ Controller.allAttrIds variants) as Hin.
  { unfold Controller.allAttrIds. apply distinct_elem, list_elem_of_In, in_flat_map.
    exists v. split; [now apply list_elem_of_In|].
    apply in_map, list_elem_of_In, Hp. }
  rewrite Hids in Hin. now apply list_elem_of_singleton in Hin.
Qed.

Lemma checkMainEverywhere_single a idx variants :
  forallb Controller.variantShapeOk variants = true ->
  (forall v pair, v ∈ variants -> pair ∈ InputVariant.values v ->
     InputVariantValue.attributeId pair = a) ->
  Controller.checkMainEverywhere a idx variants = None.
Proof.
  revert idx; induction variants as [|v t IH]; intros idx Hshape Hall; [reflexivity|].
  simpl in Hshape. apply andb_prop in Hshape as [Hv Ht]. simpl.
  assert (Controller.inputHasPairFor a v = true) as ->.
  { unfold Controller.variantShapeOk in Hv. apply andb_prop in Hv as [_ Hv].
    apply negb_true_iff, bool_decide_eq_false in Hv.
    unfold Controller.inputHasPairFor.
    destruct (InputVariant.values v) as [|pair ps] eqn:E; [congruence|].
    simpl. rewrite (Hall v pair); [now rewrite String.eqb_refl|constructor|].
    rewrite E. constructor. }
  simpl. apply IH; [assumption|].
  intros w pair Hw. apply Hall. now constructor.
Qed.

Lemma resolveMain_single a supplied : Controller.resolveMain [a] supplied = inr a.
Proof. reflexivity. Qed.

Lemma created_main store ss doc p store' :
  Model.create store ss doc = inr (p, store') ->
  Product.mainAttributeId p = Product.mainAttributeId doc.
Proof.
  intros (Hp & _)%model_create_ok.
  now destruct (prepare_ok _ _ _ _ Hp) as (_ & _ & _ & ? & _).
Qed.

(** What [create] comes to when the variants use one attribute id. *)
Lemma create_single catalog store newId payload variants a :
  Payload.variants payload = Some variants ->
  Controller.allAttrIds variants = [a] ->
  (exists f, isMainFailure f = false
     /\ Controller.create catalog store newId payload = (BadRequest f, store))
  \/ Controller.create catalog store newId payload
       = (InternalError "Failed to create product", store)
  \/ Controller.create catalog store newId payload
     = Controller.persistNew store payload
         (Controller.newDocument newId payload (Some a)
            (map Controller.cleanVariant variants)).
Proof.
  intros Hv Hids. unfold Controller.create. rewrite Hv.
  destruct variants as [|v vs]; [discriminate|].
  set (variants := v :: vs) in *. clearbody variants.
  destruct (forallb Controller.variantShapeOk variants) eqn:Hshape; cbn [negb];
    [|left; eexists; split; [|reflexivity]; reflexivity].
  destruct (Controller.checkPairs variants) as [f|] eqn:Hpairs;
    [left; exists f; split; [now apply checkPairs_not_main in Hpairs|reflexivity]|].
  rewrite Hids.
  destruct (Model.findAttributes catalog [a]) as [attrs|]; [|now right; left].
  case_bool_decide; cbn [negb];
    [|left; eexists; split; [|reflexivity]; reflexivity].
  destruct (Controller.checkAllValues _ variants) as [f|] eqn:Hvalues;
    [left; exists f; split; [now apply checkAllValues_not_main in Hvalues|reflexivity]|].
  rewrite resolveMain_single.
  rewrite checkMainEverywhere_single; [now right; right|assumption|].
  intros w pair. now apply pair_attribute_single.
Qed.

Lemma created_single_main catalog store newId payload variants a p store' :
  Payload.variants payload = Some variants ->
  Controller.allAttrIds variants = [a] ->
  Controller.create catalog store newId payload = (Created p, store') ->
  Product.mainAttributeId p = Some a.
Proof.
  intros Hv Hids.
  destruct (create_single catalog store newId payload variants a Hv Hids)
    as [(f & Hf & ->)|[->| ->]]; try discriminate.
  intros [[_ H]|(ss & q & [= <-] & H)]%persistNew_cases; [now destruct (H p)|].
  now apply created_main in H.
Qed.

End MainAttributeFacts.

(** C4, as the code has it. When the variants of a create request use
    exactly one distinct attributeId, a caller-supplied [mainAttributeId]
    is ignored altogether: whatever is supplied (a well-formed id, a
    malformed one, nothing), the response and the collection are the
    same, and a product created stores the single distinct id. *)
Theorem supplied_main_ignored catalog store newId payload variants a m m' :
  Payload.variants payload = Some variants ->
  Controller.allAttrIds variants = [a] ->
  Controller.create catalog store newId (withMain payload m)
  = Controller.create catalog store newId (withMain payload m')
  /\ (forall p store',
        Controller.create catalog store newId (withMain payload m) = (Created p, store') ->
        Product.mainAttributeId p = Some a).
Proof.
  intros Hv Hids. split.
  - unfold Controller.create. cbn [withMain Payload.variants Payload.mainAttributeId
      Payload.price Payload.stock]. rewrite Hv.
    destruct variants as [|v vs]; [discriminate|].
    set (variants := v :: vs) in *. clearbody variants.
    destruct (forallb Controller.variantShapeOk variants); cbn [negb]; [|reflexivity].
    destruct (Controller.checkPairs variants); [reflexivity|].
    rewrite Hids.
    destruct (Model.findAttributes catalog [a]) as [attrs|]; [|reflexivity].
    case_bool_decide; cbn [negb]; [|reflexivity].
    destruct (Controller.checkAllValues _ variants); [reflexivity|].
    rewrite !resolveMain_single.
    destruct (Controller.checkMainEverywhere a 0 variants); reflexivity.
  - intros p store'. now apply created_single_main with (variants := variants).
Qed.

Lemma supplied_main_ignored_witness :
  Controller.create Sample.catalog [] Sample.idA
    (withMain (Sample.socks None) (Some "bad"))
  = Controller.create Sample.catalog [] Sample.idA (withMain (Sample.socks None) None)
  /\ (forall p store',
        Controller.create Sample.catalog [] Sample.idA
          (withMain (Sample.socks None) (Some "bad")) = (Created p, store') ->
        Product.mainAttributeId p = Some Sample.sizeId).
Proof.
  apply (supplied_main_ignored Sample.catalog [] Sample.idA (Sample.socks None)
           (default [] (Payload.variants (Sample.socks None))) Sample.sizeId).
  - reflexivity.
  - vm_compute. reflexivity.
Defined.

(** C4 as stated fails: one attribute id across the variants, a supplied
    [mainAttributeId] that is not 24-hex, and the product is created. *)
Lemma invalid_supplied_main_accepted :
  Js.isHex24 "bad" = false
  /\ Controller.allAttrIds (default [] (Payload.variants (Sample.socks (Some "bad"))))
     = [Sample.sizeId]
  /\ Controller.create Sample.catalog [] Sample.idA (Sample.socks (Some "bad"))
     = (Created Sample.socksDoc, [Sample.socksDoc]).
Proof. vm_compute. auto. Qed.

(** ** Value ids against the catalog *)

Section ValueFacts.

Lemma firstFailure_flat {A B} (inner : A -> list B) (check : B -> option Failure) l :
  Controller.firstFailure (fun x => Controller.firstFailure check (inner x)) l
  = Controller.firstFailure check (flat_map inner l).
Proof.
  induction l as [|x t IH]; simpl; [reflexivity|]. rewrite IH. clear IH.
  induction (inner x) as [|y u IHu]; simpl; [reflexivity|].
  destruct (check y); [reflexivity|exact IHu].
Qed.

Lemma firstFailure_split {A} (check : A -> option Failure) l f :
  Controller.firstFailure check l = Some f ->
  exists before x after,
    l = (before ++ x :: after)%list
    /\ Forall (fun y => check y = None) before
    /\ check x = Some f.
Proof.
  induction l as [|y t IH]; simpl; [discriminate|].
  destruct (check y) as [g|] eqn:E.
  - intros [= ->]. exists [], y, t. auto.
  - intros H. destruct (IH H) as (before & x & after & -> & Hb & Hx).
    exists (y :: before), x, after. auto.
Qed.

Lemma checkValues_offending byAttr pair a bad :
  Controller.checkValues byAttr pair = Some (ValuesNotOnAttribute a bad) ->
  InputVariantValue.attributeId pair = a
  /\ exists allowed, byAttr !! a = Some allowed
       /\ bad = offending allowed pair /\ bad <> [].
Proof.
  unfold Controller.checkValues, offending.
  destruct (byAttr !! InputVariantValue.attributeId pair) as [allowed|] eqn:E;
    [|discriminate].
  case_bool_decide as Hbad; [discriminate|].
  intros [= <- <-]. split; [reflexivity|]. exists allowed. auto.
Qed.

End ValueFacts.

(** C5, as the code has it. When the check of the value ids fails, the
    failure names the attribute of the first pair (in the order of the
    variants, then of their pairs) that has a value id outside the value
    set of its attribute, and lists all the offending value ids of that
    pair; the pairs before it have none, the pairs after it are not
    looked at. *)
Theorem offending_values_of_first_pair byAttr variants a bad :
  Controller.checkAllValues byAttr variants = Some (ValuesNotOnAttribute a bad) ->
  exists before pair after allowed,
    pairsOf variants = (before ++ pair :: after)%list
    /\ Forall (fun q => Controller.checkValues byAttr q = None) before
    /\ InputVariantValue.attributeId pair = a
    /\ byAttr !! a = Some allowed
    /\ bad <> []
    /\ forall vid,
         vid ∈ bad <->
         vid ∈ toArray (InputVariantValue.attributesValueId pair) /\ vid ∉ allowed.
Proof.
  unfold Controller.checkAllValues. rewrite firstFailure_flat.
  intros (before & pair & after & Hsplit & Hbefore & Hpair)%firstFailure_split.
  apply checkValues_offending in Hpair as (Ha & allowed & Hallowed & -> & Hne).
  exists before, pair, after, allowed.
  do 5 (split; [assumption|]).
  intros vid. unfold offending. rewrite list_elem_of_filter. tauto.
Qed.

Lemma offending_values_of_first_pair_witness :
  exists before pair after allowed,
    pairsOf (default [] (Payload.variants Sample.staleSocks))
    = (before ++ pair :: after)%list
    /\ Forall (fun q => Controller.checkValues
                          (Controller.valuesByAttr Sample.catalog) q = None) before
    /\ InputVariantValue.attributeId pair = Sample.sizeId
    /\ Controller.valuesByAttr Sample.catalog !! Sample.sizeId = Some allowed
    /\ [Sample.stale1] <> []
    /\ forall vid,
         vid ∈ [Sample.stale1] <->
         vid ∈ toArray (InputVariantValue.attributesValueId pair) /\ vid ∉ allowed.
Proof.
  apply (offending_values_of_first_pair (Controller.valuesByAttr Sample.catalog)
           (default [] (Payload.variants Sample.staleSocks)) Sample.sizeId
           [Sample.stale1]).
  vm_compute. reflexivity.
Defined.

(** C5 as stated fails: two pairs for Size, each with a value id Size does
    not have; the failure lists the one of the first pair only. *)
Lemma later_offending_values_not_listed :
  Controller.create Sample.catalog [] Sample.idA Sample.staleSocks
  = (BadRequest (ValuesNotOnAttribute Sample.sizeId [Sample.stale1]), [])
  /\ In (Sample.pair Sample.sizeId Sample.stale2 40)
       (pairsOf (default [] (Payload.variants Sample.staleSocks)))
  /\ ~ In Sample.stale2 (map AttributeValue._id (Attribute.values Sample.sizeAttr))
  /\ ~ In Sample.stale2 [Sample.stale1].
Proof.
  split; [vm_compute; reflexivity|].
  split; [right; left; reflexivity|].
  split; simpl; intuition discriminate.
Qed.

(** ** Stored documents *)

Section StoredFacts.

Lemma reachable_stored_valid store p : Reachable store -> p ∈ store -> storedValid p.
Proof.
  intros H. revert p. apply (reachable_all storedValid); [|exact H].
  intros st q st' Hw. now destruct (written_facts _ _ _ Hw) as (_ & _ & ? & _).
Qed.

Lemma inWindow_spec now p : Model.inWindow now p = true <-> withinOffer now p.
Proof.
  unfold Model.inWindow, withinOffer. rewrite andb_true_iff.
  destruct (Product.offerStart p) as [s|], (Product.offerEnd p) as [e|];
    rewrite ?Z.leb_le; split.
  all: try (intros [? ?]; split; intros ? [= <-]; assumption).
  all: try (intros [Hs He]; split; auto).
  all: try (split; congruence).
Qed.

Lemma effectivePrice_cases now p :
  (exists s, Product.salePrice p = Some s /\ withinOffer now p
             /\ Model.effectivePrice now p = Some s)
  \/ ((forall s, Product.salePrice p = Some s -> ~ withinOffer now p)
      /\ Model.effectivePrice now p = Product.price p).
Proof.
  unfold Model.effectivePrice.
  destruct (Product.salePrice p) as [s|]; [|right; split; [discriminate|reflexivity]].
  destruct (Model.inWindow now p) eqn:E.
  - left. exists s. rewrite <- inWindow_spec. auto.
  - right. split; [|reflexivity]. intros ? _ Hw%inWindow_spec. congruence.
Qed.

Lemma percentOff_below b e :
  Num.leb Num.zero e = true -> Num.ltb e b = true ->
  Model.percentOff (Some b) (Some e)
  = Num.round (Num.mul (Num.div (Num.sub b e) b) (Num.ofZ 100)).
Proof.
  intros H0 Hlt. unfold Model.percentOff.
  now rewrite (ltb_above_nonneg e b H0 Hlt), Hlt.
Qed.

Lemma percentOff_not_below base eff :
  (forall b e, base = Some b -> eff = Some e -> Num.ltb e b = false) ->
  Model.percentOff base eff = Num.zero.
Proof.
  intros H. unfold Model.percentOff.
  destruct base as [b|], eff as [e|]; try reflexivity.
  now rewrite (H b e eq_refl eq_refl), andb_false_r.
Qed.

Lemma effectivePrice_nonneg now p b e :
  storedValid p -> Product.price p = Some b -> Model.effectivePrice now p = Some e ->
  Num.ltb e b = true -> Num.leb Num.zero e = true.
Proof.
  intros (_ & Hp & Hs) Hb He Hlt.
  destruct (effectivePrice_cases now p) as [(s & Hsale & _ & Heff)|[_ Heff]].
  - rewrite Hsale in Hs. simpl in Hs. congruence.
  - rewrite Heff, Hb in He. injection He as ->. now rewrite ltb_irrefl in Hlt.
Qed.

End StoredFacts.

(** C6. For a stored product read at [now], [effectivePrice] is
    [salePrice] when [salePrice] is a number and [now] is within the offer
    window (a bound that is absent does not bind), and [price] otherwise;
    [discountPercent] is [Math.round(((price - effectivePrice) / price) *
    100)], each operation rounding as binary64 arithmetic does, when
    [effectivePrice < price], and 0 otherwise. Both are computed from the
    document, which has no field for them. With price 20 and sale price
    15: 15 and 25 within the window, 20 and 0 once [offerEnd] is past. *)
Theorem effective_price_rule store p now :
  Reachable store -> p ∈ store ->
  (forall s, Product.salePrice p = Some s -> withinOffer now p ->
     Model.effectivePrice now p = Some s)
  /\ ((forall s, Product.salePrice p = Some s -> ~ withinOffer now p) ->
      Model.effectivePrice now p = Product.price p)
  /\ (forall b e, Product.price p = Some b -> Model.effectivePrice now p = Some e ->
        Num.ltb e b = true ->
        Model.discountPercent now p
        = Num.round (Num.mul (Num.div (Num.sub b e) b) (Num.ofZ 100)))
  /\ ((forall b e, Product.price p = Some b -> Model.effectivePrice now p = Some e ->
         Num.ltb e b = false) ->
      Model.discountPercent now p = Num.zero)
  /\ (Product.price p = Some (Num.ofZ 20) -> Product.salePrice p = Some (Num.ofZ 15) ->
      withinOffer now p ->
      Model.effectivePrice now p = Some (Num.ofZ 15)
      /\ Model.discountPercent now p = Num.ofZ 25)
  /\ (Product.price p = Some (Num.ofZ 20) -> Product.salePrice p = Some (Num.ofZ 15) ->
      (exists e, Product.offerEnd p = Some e /\ (e < now)%Z) ->
      Model.effectivePrice now p = Some (Num.ofZ 20)
      /\ Model.discountPercent now p = Num.zero).
Proof.
  intros Hreach Hin. pose proof (reachable_stored_valid store p Hreach Hin) as Hvalid.
  assert (forall s, Product.salePrice p = Some s -> withinOffer now p ->
            Model.effectivePrice now p = Some s) as Hsale.
  { intros s Hs Hw.
    destruct (effectivePrice_cases now p) as [(s' & Hs' & _ & ->)|[Hno _]];
      [congruence|now destruct (Hno s Hs)]. }
  assert ((forall s, Product.salePrice p = Some s -> ~ withinOffer now p) ->
            Model.effectivePrice now p = Product.price p) as Hbase.
  { intros Hno.
    destruct (effectivePrice_cases now p) as [(s' & Hs' & Hw & _)|[_ ->]];
      [now destruct (Hno s' Hs')|reflexivity]. }
  split; [exact Hsale|]. split; [exact Hbase|]. split; [|split; [|split]].
  - intros b e Hb He Hlt. unfold Model.discountPercent. rewrite Hb, He.
    apply percentOff_below; [|assumption].
    now apply (effectivePrice_nonneg now p b e).
  - intros Hno. unfold Model.discountPercent. now apply percentOff_not_below.
  - intros Hb Hs Hw. unfold Model.discountPercent. rewrite (Hsale _ Hs Hw), Hb.
    split; [reflexivity|]. vm_compute. reflexivity.
  - intros Hb Hs (e & He & Hpast). unfold Model.discountPercent.
    rewrite Hbase, Hb; [split; [reflexivity|]; vm_compute; reflexivity|].
    intros s _ [_ Hw]. specialize (Hw e He). lia.
Qed.

Lemma effective_price_rule_witness :
  let p := Sample.onOfferDoc (Some 0%Z) (Some 100%Z) in
  Reachable [p]
  /\ Model.effectivePrice 50 p = Some (Num.ofZ 15)
  /\ Model.discountPercent 50 p = Num.ofZ 25
  /\ Model.effectivePrice 150 p = Some (Num.ofZ 20)
  /\ Model.discountPercent 150 p = Num.zero.
Proof.
  intros p.
  assert (Reachable [p]) as H.
  { assert (snd (Controller.create [] [] Sample.idB
                   (Sample.onOffer (Some 0%Z) (Some 100%Z))) = [p]) as E
      by (vm_compute; reflexivity).
    rewrite <- E. apply reach_create, reach_empty. }
  assert (p ∈ [p]) as Hin by constructor.
  split; [exact H|].
  destruct (effective_price_rule [p] p 50 H Hin) as (_ & _ & _ & _ & Hnow & _).
  destruct (effective_price_rule [p] p 150 H Hin) as (_ & _ & _ & _ & _ & Hlate).
  split; [|split; [|split]].
  - apply Hnow; [reflexivity..|]. split; intros ? [= <-]; lia.
  - apply Hnow; [reflexivity..|]. split; intros ? [= <-]; lia.
  - apply Hlate; [reflexivity..|]. exists 100%Z. split; [reflexivity|lia].
  - apply Hlate; [reflexivity..|]. exists 100%Z. split; [reflexivity|lia].
Defined.

(** ** Bulk delete *)

Section DeleteFacts.


Lemma validIds_elem ids id :
  id ∈ Controller.validIds ids <-> id ∈ ids /\ Js.isHex24 id = true.
Proof.
  unfold Controller.validIds. rewrite !list_elem_of_In, filter_In. reflexivity.
Qed.


End DeleteFacts.




(** C10 fails on the code: replacing the variants of a stored simple
    product by a list along two attributes, with no [mainAttributeId], is
    answered 500 by [updateById] (the hook's error reaches the [catch]),
    where [create] answers the same variants with a 400; and a simple
    product created with a negative stock is answered 500 too. *)
Theorem variant_rules_surface_as_internal_error :
  Controller.updateById [Sample.teeDoc 120] (Sample.replaceVariants Sample.idA Sample.twoAxes)
  = (InternalError "Failed to update product", [Sample.teeDoc 120])
  /\ Controller.create Sample.catalog [] Sample.idB
       (Sample.payload "Tee" "tee" None None None (Some Sample.twoAxes))
     = (BadRequest MainAttributeRequired, [])
  /\ Controller.create Sample.catalog [] Sample.idA (Sample.tee (-1))
     = (InternalError "Failed to create product", []).
Proof. vm_compute. auto. Qed.

(** ** The read path *)

Section ProjectionFacts.

Lemma fold_insert_lookup {A V} (key : A -> string) (val : A -> V)
    (l : list A) (m0 : gmap string V) k x :
  fold_left (fun m a => <[key a := val a]> m) l m0 !! k = Some x ->
  (exists a, a ∈ l /\ key a = k /\ x = val a) \/ m0 !! k = Some x.
Proof.
  revert m0; induction l as [|a t IH]; intros m0; simpl; [now right|].
  intros [(b & Hb & Hk & Hx)|H]%IH.
  - left. exists b. split; [now constructor|auto].
  - destruct (decide (key a = k)) as [Heq|Hne].
    + rewrite Heq, lookup_insert_eq in H. injection H as <-.
      left. exists a. split; [constructor|auto].
    + rewrite lookup_insert_ne in H by assumption. now right.
Qed.

Lemma attrById_lookup attrs k info :
  Controller.attrById attrs !! k = Some info ->
  exists a, a ∈ attrs /\ Attribute._id a = k.
Proof.
  unfold Controller.attrById.
  intros [(a & Ha & Hk & _)|H]%fold_insert_lookup; [eauto|].
  now rewrite lookup_empty in H.
Qed.

Lemma valByAttrId_lookup attrs k vmap :
  Controller.valByAttrId attrs !! k = Some vmap ->
  exists a, a ∈ attrs /\ Attribute._id a = k
            /\ vmap = Controller.valueMap (Attribute.values a).
Proof.
  unfold Controller.valByAttrId.
  intros [(a & Ha & Hk & Hx)|H]%fold_insert_lookup; [eauto|].
  now rewrite lookup_empty in H.
Qed.

Lemma valueMap_lookup vs vid info :
  Controller.valueMap vs !! vid = Some info ->
  exists v, v ∈ vs /\ AttributeValue._id v = vid /\ info = Controller.valueInfoOf v.
Proof.
  unfold Controller.valueMap.
  intros [(v & Hv & Hk & Hx)|H]%fold_insert_lookup; [eauto|].
  now rewrite lookup_empty in H.
Qed.

Lemma resolved_value catalog attrs attributeId vid :
  (forall a, a ∈ attrs -> a ∈ catalog) ->
  valueStandsFor catalog attributeId vid
    (default (Controller.valuePlaceholder vid)
       (Controller.valByAttrId attrs !! attributeId ≫= fun vmap => vmap !! vid)).
Proof.
  intros Hsub. unfold valueStandsFor.
  destruct (Controller.valByAttrId attrs !! attributeId) as [vmap|] eqn:Ea; simpl;
    [|split; reflexivity].
  destruct (vmap !! vid) as [info|] eqn:Ev; simpl; [|split; reflexivity].
  apply valByAttrId_lookup in Ea as (a & Ha & Hid & ->).
  apply valueMap_lookup in Ev as (v & Hv & Hvid & ->).
  split; [exact Hvid|]. intros Hmissing. exfalso.
  apply (Hmissing a (Hsub a Ha) Hid). rewrite <- Hvid.
  apply list_elem_of_fmap. eauto.
Qed.

Lemma resolved_pair catalog attrs pair :
  (forall a, a ∈ attrs -> a ∈ catalog) ->
  pairStandsFor catalog pair (Controller.resolvePair attrs pair).
Proof.
  intros Hsub. unfold pairStandsFor, Controller.resolvePair. simpl. split.
  - intros Hmissing.
    destruct (Controller.attrById attrs !! VariantValue.attributeId pair) as [info|] eqn:E;
      [|reflexivity].
    apply attrById_lookup in E as (a & Ha & Hid). destruct Hmissing.
    rewrite <- Hid. apply list_elem_of_fmap. eauto.
  - induction (toArray (VariantValue.attributesValueId pair)) as [|vid t IH];
      simpl; constructor; [now apply resolved_value|exact IH].
Qed.

Lemma resolved_variants catalog attrs vs :
  (forall a, a ∈ attrs -> a ∈ catalog) ->
  Forall2 (variantStandsFor catalog) vs (map (Controller.resolveVariant attrs) vs).
Proof.
  intros Hsub. induction vs as [|v t IH]; simpl; constructor; [|exact IH].
  unfold variantStandsFor. simpl.
  induction (Variant.values v) as [|pair ps IHp]; simpl; constructor;
    [now apply resolved_pair|exact IHp].
Qed.

Lemma findAttributes_sub catalog ids attrs :
  Model.findAttributes catalog ids = Some attrs -> forall a, a ∈ attrs -> a ∈ catalog.
Proof.
  unfold Model.findAttributes. destruct (mapM castObjectId ids) as [oids|]; [|discriminate].
  simpl. intros [= <-] a. now intros [_ ?]%list_elem_of_filter.
Qed.

Lemma findAttributes_hex catalog ids :
  Forall (fun id => Js.isHex24 id = true) ids ->
  is_Some (Model.findAttributes catalog ids).
Proof.
  intros H. unfold Model.findAttributes.
  assert (is_Some (mapM castObjectId ids)) as [oids ->]; [|now eexists].
  apply mapM_is_Some. eapply Forall_impl; [exact H|].
  intros id Hid. unfold compose, castObjectId. rewrite Hid. now eexists.
Qed.

Lemma valid_pair_docs v :
  Model.validVariantDoc v = true ->
  forallb Model.validVariantValueDoc (Variant.values v) = true.
Proof.
  unfold Model.validVariantDoc. intros H.
  repeat (apply andb_prop in H as [H ?]). assumption.
Qed.

Lemma valid_pair_hex pair :
  Model.validVariantValueDoc pair = true ->
  Js.isHex24 (VariantValue.attributeId pair) = true.
Proof.
  unfold Model.validVariantValueDoc. intros H.
  do 4 (apply andb_prop in H as [H _]). exact H.
Qed.

Lemma referenced_hex p :
  storedValid p ->
  Forall (fun id => Js.isHex24 id = true) (Controller.referencedAttrIds p).
Proof.
  intros (Hvs & _). apply Forall_forall. intros id.
  unfold Controller.referencedAttrIds.
  intros (v & Hv & (pair & <- & Hpair)%in_map_iff)%distinct_elem%list_elem_of_In%in_flat_map.
  rewrite forallb_forall in Hvs. specialize (Hvs v Hv).
  apply valid_pair_docs in Hvs. rewrite forallb_forall in Hvs.
  now apply valid_pair_hex, Hvs.
Qed.

Lemma project_total catalog p :
  storedValid p ->
  exists view, Controller.project catalog p = Some view
    /\ Controller.ProductView.flat view = p
    /\ Forall2 (variantStandsFor catalog) (Product.variants p)
         (Controller.ProductView.variants view).
Proof.
  intros Hvalid. unfold Controller.project.
  case_bool_decide as Hids; simpl.
  - eexists. split; [reflexivity|]. split; [reflexivity|].
    apply resolved_variants. intros a Ha. inversion Ha.
  - destruct (findAttributes_hex catalog _ (referenced_hex p Hvalid)) as [attrs E].
    rewrite E. simpl. eexists. split; [reflexivity|]. split; [reflexivity|].
    apply resolved_variants. now apply findAttributes_sub with (ids := Controller.referencedAttrIds p).
Qed.

End ProjectionFacts.

(** C8. For every product of a collection the handlers can produce and
    every catalog, reading it is answered 200 with its projection, however
    stale its references: the flat fields are the product's, each variant
    keeps its pairs in order, a pair whose [attributeId] the catalog does
    not have carries the placeholder attribute (name, code, type and
    isActive null), and each value id of a pair is answered by one record
    with that id, the placeholder (label, value and meta null) when no
    attribute with the pair's id has that value. *)
Theorem projection_total catalog store id oid product :
  Reachable store ->
  castObjectId id = Some oid ->
  Model.findById store oid = Some product ->
  exists view,
    Controller.getOne catalog store id = Ok view
    /\ Controller.ProductView.flat view = product
    /\ Forall2 (variantStandsFor catalog) (Product.variants product)
         (Controller.ProductView.variants view).
Proof.
  intros Hreach Hoid Hfind.
  assert (product ∈ store) as Hin.
  { unfold Model.findById in Hfind. apply find_some in Hfind as [Hin _].
    now apply list_elem_of_In. }
  destruct (project_total catalog product (reachable_stored_valid _ _ Hreach Hin))
    as (view & Hview & Hrest).
  exists view. split; [|exact Hrest].
  unfold Controller.getOne. now rewrite Hoid, Hfind, Hview.
Qed.

Lemma projection_total_witness :
  Reachable [Sample.danglingDoc]
  /\ exists view,
       Controller.getOne Sample.catalog [Sample.danglingDoc] Sample.idB = Ok view
       /\ Controller.ProductView.flat view = Sample.danglingDoc
       /\ Forall2 (variantStandsFor Sample.catalog) (Product.variants Sample.danglingDoc)
            (Controller.ProductView.variants view).
Proof.
  assert (Reachable [Sample.danglingDoc]) as H.
  { assert (snd (Controller.create Sample.oldCatalog [] Sample.idB Sample.dangling)
            = [Sample.danglingDoc]) as E by (vm_compute; reflexivity).
    rewrite <- E. apply reach_create, reach_empty. }
  split; [exact H|].
  apply (projection_total Sample.catalog [Sample.danglingDoc] Sample.idB Sample.idB
           Sample.danglingDoc H); vm_compute; reflexivity.
Defined.

(** ** More on slugs *)

Section SlugShape.

Import Js.

Lemma space_not_alnum c : is_space c = true -> is_lower_alnum c = false.
Proof. destruct c as [[] [] [] [] [] [] [] []]; vm_compute; congruence. Qed.

Lemma drop_first_replace l :
  drop_first_hyphen (replace_runs false l) = replace_runs true l.
Proof.
  destruct l as [|c t]; simpl; [reflexivity|].
  destruct (is_lower_alnum c) eqn:E; simpl; [|reflexivity].
  now rewrite (alnum_not_hyphen c E).
Qed.

Lemma replace_true_drop_while l :
  replace_runs true (drop_while is_space l) = replace_runs true l.
Proof.
  induction l as [|c t IH]; simpl; [reflexivity|].
  destruct (is_space c) eqn:E; [|reflexivity].
  now rewrite (space_not_alnum c E).
Qed.

Lemma drop_while_split f l :
  exists pre, l = (pre ++ drop_while f l)%list /\ Forall (fun c => f c = true) pre.
Proof.
  induction l as [|c t (pre & Hl & Hpre)]; simpl; [now exists []|].
  destruct (f c) eqn:E; [|now exists []].
  exists (c :: pre). split; [simpl; now rewrite <- Hl|now constructor].
Qed.

Lemma trim_chars_split l :
  exists ws, drop_while is_space l = (trim_chars l ++ ws)%list
             /\ Forall (fun c => is_space c = true) ws.
Proof.
  unfold trim_chars.
  destruct (drop_while_split is_space (rev (drop_while is_space l))) as (pre & H & Hpre).
  exists (rev pre). split; [|now apply Forall_rev].
  rewrite <- (rev_involutive (drop_while is_space l)) at 1.
  rewrite H at 1. now rewrite rev_app_distr.
Qed.

Lemma drop_last_cons c l :
  is_hyphen c = false -> drop_last_hyphen (c :: l) = c :: drop_last_hyphen l.
Proof. intros H. destruct l; simpl; [now rewrite H|reflexivity]. Qed.

Lemma replace_true_head l :
  replace_runs true l = []
  \/ exists c t, replace_runs true l = c :: t /\ is_lower_alnum c = true.
Proof.
  induction l as [|c t IH]; simpl; [now left|].
  destruct (is_lower_alnum c) eqn:E; [right; eauto|exact IH].
Qed.

Lemma drop_last_nil_replace l :
  drop_last_hyphen (replace_runs true l) = [] -> replace_runs true l = [].
Proof.
  destruct (replace_true_head l) as [->|(c & t & -> & Hc)]; [reflexivity|].
  now rewrite drop_last_cons by now apply alnum_not_hyphen.
Qed.

Lemma drop_last_replace_spaces b l ws :
  Forall (fun c => is_space c = true) ws ->
  drop_last_hyphen (replace_runs b (l ++ ws)) = drop_last_hyphen (replace_runs b l).
Proof.
  intros Hws. revert b. induction l as [|c t IH]; intros b.
  - simpl. induction Hws as [|w ws Hw _ IHws] in b |- *; [reflexivity|].
    simpl. rewrite (space_not_alnum w Hw). destruct b; [apply IHws|].
    destruct ws as [|w' ws']; [reflexivity|].
    specialize (IHws true). apply drop_last_nil_replace in IHws.
    simpl in *. now rewrite IHws.
  - simpl. destruct (is_lower_alnum c) eqn:E.
    + rewrite !drop_last_cons by now apply alnum_not_hyphen. now rewrite IH.
    + destruct b; [apply IH|]. specialize (IH true).
      destruct (replace_runs true (t ++ ws)) as [|x xs] eqn:E1,
               (replace_runs true t) as [|y ys] eqn:E2; try reflexivity.
      * symmetry in IH. rewrite <- E2 in IH. apply drop_last_nil_replace in IH. congruence.
      * rewrite <- E1 in IH. apply drop_last_nil_replace in IH. congruence.
      * change (drop_last_hyphen ("-"%char :: x :: xs))
          with ("-"%char :: drop_last_hyphen (x :: xs)).
        change (drop_last_hyphen ("-"%char :: y :: ys))
          with ("-"%char :: drop_last_hyphen (y :: ys)).
        now rewrite IH.
Qed.

Lemma strip_replace_trim l :
  strip_edges (replace_runs false (trim_chars l)) = strip_edges (replace_runs false l).
Proof.
  unfold strip_edges. rewrite !drop_first_replace.
  destruct (trim_chars_split l) as (ws & H & Hws).
  rewrite <- (replace_true_drop_while l), H.
  symmetry. now apply drop_last_replace_spaces.
Qed.

Lemma slug_run_alphabet b l :
  slug_run b l = true ->
  Forall (fun c => is_lower_alnum c = true \/ c = "-"%char) l.
Proof.
  revert b; induction l as [|c t IH]; intros b H; constructor; simpl in H.
  - destruct (is_lower_alnum c); [now left|].
    apply andb_prop in H as [H _]. apply andb_prop in H as [H _].
    right. now apply hyphen_char.
  - destruct (is_lower_alnum c); [now apply (IH false)|].
    apply andb_prop in H as [_ H]. now apply (IH true).
Qed.

Lemma slug_run_no_double b x y :
  slug_run b (x ++ "-"%char :: "-"%char :: y) = false.
Proof.
  revert b; induction x as [|c t IH]; intros b; simpl.
  - now rewrite andb_false_r.
  - destruct (is_lower_alnum c); [apply IH|]. rewrite IH. apply andb_false_r.
Qed.

Lemma ends_hyphen_snoc b l : ends_hyphen_from b (l ++ ["-"%char]) = true.
Proof. revert b; induction l as [|c t IH]; intros b; simpl; [reflexivity|apply IH]. Qed.

End SlugShape.

(** X1. The slug the [pre("save")] hook derives from a title (lower-case,
    collapse, strip: no [trim]) is the slug the controller's normalisation
    (with [trim]) gives for the same string: white space at the two ends
    falls into the runs that are collapsed and stripped anyway. *)
Theorem slugFromTitle_is_normalizeSlug (s : string) :
  slugFromTitle s = normalizeSlug s.
Proof.
  unfold slugFromTitle, normalizeSlug, Js.trim, Js.toLowerCase.
  rewrite !chars_str. f_equal. symmetry. apply strip_replace_trim.
Qed.

(** X2. A normalised slug is made of the code units a-z, 0-9 and hyphen
    only; it does not start with a hyphen, does not end with one, and has
    no two hyphens in a row. *)
Theorem normalizeSlug_shape (s : string) :
  let l := Js.chars (normalizeSlug s) in
  Forall (fun c => Js.is_lower_alnum c = true \/ c = "-"%char) l
  /\ (forall t, l <> "-"%char :: t)
  /\ (forall t, l <> (t ++ ["-"%char])%list)
  /\ (forall x y, l <> (x ++ "-"%char :: "-"%char :: y)%list).
Proof.
  intros l. subst l. rewrite normalizeSlug_chars.
  destruct (normalize_chars_shaped (Js.chars s)) as [Hrun Hend].
  set (l := Js.normalize_chars (Js.chars s)) in *. clearbody l.
  split; [now apply slug_run_alphabet with (b := true)|].
  split; [|split].
  - intros t ->. discriminate Hrun.
  - intros t ->. now rewrite ends_hyphen_snoc in Hend.
  - intros x y ->. now rewrite slug_run_no_double in Hrun.
Qed.

(** ** The collection under the handlers *)

Section CollectionFacts.

Lemma model_create_fresh store ss doc p store' :
  Model.create store ss doc = inr (p, store') ->
  Product._id p = Product._id doc
  /\ store' = (store ++ [p])%list
  /\ Model.holdsId store (Product._id p) = false
  /\ Model.sameSlugElsewhere store p = false
  /\ storedValid p.
Proof.
  intros H. pose proof H as (Hp & Hs & Hf)%model_create_ok.
  destruct (prepare_ok _ _ _ _ Hp) as (_ & _ & Hid & _ & Hv).
  assert (Model.sameSlugElsewhere store p = false) as Hslug.
  { unfold Model.create in H. rewrite Hp, Hf in H. simpl in H.
    now destruct (Model.sameSlugElsewhere store p). }
  auto 10.
Qed.

Lemma model_save_slug store old doc p store' :
  Model.save store old doc = inr (p, store') ->
  Product._id p = Product._id doc
  /\ store' = Model.replaceDoc store p
  /\ Model.sameSlugElsewhere store p = false.
Proof.
  intros H. pose proof H as ((tm & sm & Hp) & Hs)%model_save_ok.
  destruct (prepare_ok _ _ _ _ Hp) as (_ & _ & Hid & _).
  assert (Model.sameSlugElsewhere store p = false) as Hslug.
  { unfold Model.save in H.
    destruct (Model.prepare _ _ doc) as [e|q]; [discriminate|].
    destruct (Model.sameSlugElsewhere store q) eqn:E; [discriminate|].
    now injection H as <- _. }
  auto.
Qed.

Lemma holdsId_false store id :
  Model.holdsId store id = false <-> forall d, d ∈ store -> Product._id d <> id.
Proof.
  unfold Model.holdsId. induction store as [|x t IH]; simpl.
  - split; [intros _ d Hd; inversion Hd|reflexivity].
  - rewrite orb_false_iff, IH, String.eqb_neq. split.
    + intros [Hx Ht] d [->|Hd]%elem_of_cons; auto.
    + intros H. split; [apply H; constructor|]. intros d Hd. apply H. now constructor.
Qed.

Lemma sameSlugElsewhere_false store p :
  Model.sameSlugElsewhere store p = false <->
  forall d, d ∈ store -> Product._id d <> Product._id p -> Product.slug d <> Product.slug p.
Proof.
  unfold Model.sameSlugElsewhere. induction store as [|x t IH]; simpl.
  - split; [intros _ d Hd; inversion Hd|reflexivity].
  - rewrite orb_false_iff, IH, andb_false_iff, negb_false_iff, String.eqb_eq,
      bool_decide_eq_false. split.
    + intros [Hx Ht] d [->|Hd]%elem_of_cons Hne; [|now apply Ht].
      destruct Hx; [contradiction|assumption].
    + intros H. split.
      * destruct (decide (Product._id x = Product._id p)) as [|Hne]; [now left|].
        right. apply H; [constructor|assumption].
      * intros d Hd. apply H. now constructor.
Qed.

Lemma replaceDoc_ids store p :
  map Product._id (Model.replaceDoc store p) = map Product._id store.
Proof.
  unfold Model.replaceDoc. induction store as [|d t IH]; simpl; [reflexivity|].
  rewrite IH. f_equal. destruct (String.eqb _ _) eqn:E; [|reflexivity].
  symmetry. now apply String.eqb_eq.
Qed.

Lemma replaceDoc_absent store p :
  (forall d, d ∈ store -> Product._id d <> Product._id p) ->
  Model.replaceDoc store p = store.
Proof.
  unfold Model.replaceDoc. induction store as [|d t IH]; simpl; intros H; [reflexivity|].
  rewrite IH by (intros x Hx; apply H; now constructor).
  destruct (String.eqb _ _) eqn:E; [|reflexivity].
  apply String.eqb_eq in E. destruct (H d); [constructor|assumption].
Qed.

Lemma replaceDoc_slugs store p :
  NoDup (map Product._id store) ->
  NoDup (map Product.slug store) ->
  (forall d, d ∈ store -> Product._id d <> Product._id p ->
     Product.slug d <> Product.slug p) ->
  NoDup (map Product.slug (Model.replaceDoc store p)).
Proof.
  induction store as [|d t IH]; simpl; intros Hids Hslugs Hp; [constructor|].
  apply NoDup_cons in Hids as [Hd Hids]. apply NoDup_cons in Hslugs as [Hsd Hslugs].
  assert (forall x, x ∈ t -> Product._id x <> Product._id p ->
            Product.slug x <> Product.slug p) as Hp'
    by (intros x Hx; apply Hp; now constructor).
  destruct (String.eqb (Product._id d) (Product._id p)) eqn:E.
  - apply String.eqb_eq in E.
    assert (forall x, x ∈ t -> Product._id x <> Product._id p) as Habs.
    { intros x Hx Heq. apply Hd. rewrite E, <- Heq. apply list_elem_of_fmap. eauto. }
    rewrite (replaceDoc_absent t p Habs). apply NoDup_cons. split; [|assumption].
    intros (x & Hs & Hx)%list_elem_of_fmap. apply (Hp' x Hx); [now apply Habs|congruence].
  - apply String.eqb_neq in E. apply NoDup_cons. split; [|now apply IH].
    intros (x & Hs & Hx)%list_elem_of_fmap.
    apply elem_of_replaceDoc in Hx as [->|Hx].
    + apply (Hp d); [constructor|assumption|assumption].
    + apply Hsd. rewrite Hs. apply list_elem_of_fmap. eauto.
Qed.

Lemma NoDup_fmap_filter {A B} (f : A -> B) (P : A -> Prop)
    `{!forall x, Decision (P x)} (l : list A) :
  NoDup (map f l) -> NoDup (map f (filter P l)).
Proof.
  induction l as [|x t IH]; simpl; [constructor|].
  intros [Hx Ht]%NoDup_cons. rewrite filter_cons.
  destruct (decide (P x)); [|now apply IH].
  simpl. apply NoDup_cons. split; [|now apply IH].
  intros (y & Hy & Hin)%list_elem_of_fmap. apply Hx. rewrite Hy.
  apply list_elem_of_fmap. exists y. split; [reflexivity|].
  now apply list_elem_of_filter in Hin as [_ ?].
Qed.

Lemma create_outcome catalog store newId payload r store' :
  Controller.create catalog store newId payload = (r, store') ->
  (exists p, r = Created p /\ store' = (store ++ [p])%list
     /\ Product._id p = newId
     /\ Model.holdsId store newId = false
     /\ Model.sameSlugElsewhere store p = false
     /\ storedValid p)
  \/ (store' = store /\ forall p, r <> Created p).
Proof.
  intros [[-> H]|(ss & doc & p & -> & Hdoc & H)]%create_cases; [now right|].
  left. apply model_create_fresh in H as (Hid & Hs & Hf & Hslug & Hv).
  exists p. rewrite Hid, Hdoc in *. auto 10.
Qed.

Lemma update_outcome store body r store' :
  Controller.updateById store body = (r, store') ->
  (exists p id, r = Ok p /\ UpdateBody.id body = Some id
     /\ castObjectId id = Some (Product._id p)
     /\ (exists old, Model.findById store (Product._id p) = Some old)
     /\ store' = Model.replaceDoc store p
     /\ Model.sameSlugElsewhere store p = false)
  \/ (store' = store /\ forall p, r <> Ok p).
Proof.
  unfold Controller.updateById. intros H.
  destruct (UpdateBody.id body) as [id|]; [|right; injection H as <- <-; easy].
  destruct (isValidObjectId id); simpl in H; [|right; injection H as <- <-; easy].
  destruct (castObjectId id) as [oid|] eqn:Ec; simpl in H;
    [|right; injection H as <- <-; easy].
  destruct (Model.findById store oid) as [old|] eqn:Ef;
    [|right; injection H as <- <-; easy].
  assert (Product._id old = oid) as Hold.
  { unfold Model.findById in Ef. apply find_some in Ef as [_ Ef].
    now apply String.eqb_eq in Ef. }
  destruct (UpdateBody.mainBuild body); [right; injection H as <- <-; easy|].
  destruct (Controller.updatedCategory _ _) as [category|];
    [|right; injection H as <- <-; easy].
  set (doc := Controller.applyBody body old category) in *.
  assert (match Model.save store old doc with
          | inr (saved, st) => (Ok saved, st)
          | inl e => (Controller.caught "Failed to update product" e, store)
          end = (r, store') \/ (r, store') = (BadRequest VariantsNotArray, store)) as [Hs|Hs]
    by (destruct (UpdateBody.variants body); auto).
  - destruct (Model.save store old doc) as [e|[p st]] eqn:Es.
    + injection Hs as <- <-. right. split; [reflexivity|]. intros p. apply caught_not_ok.
    + injection Hs as <- <-. left.
      apply model_save_slug in Es as (Hid & -> & Hslug).
      exists p, id. change (Product._id doc) with (Product._id old) in Hid.
      rewrite Hid, Hold. repeat split; eauto.
  - injection Hs as -> ->. right. easy.
Qed.

End CollectionFacts.

(** X3. [create] either answers 201 and appends exactly the created
    document, whose [_id] is the new id and was held by no document before,
    or answers something else and leaves the collection as it was. *)
Theorem create_all_or_nothing catalog store newId payload r store' :
  Controller.create catalog store newId payload = (r, store') ->
  (exists p, r = Created p /\ store' = (store ++ [p])%list /\ Product._id p = newId
             /\ forall d, d ∈ store -> Product._id d <> newId)
  \/ (store' = store /\ forall p, r <> Created p).
Proof.
  intros [(p & -> & -> & Hid & Hf & _)|H]%create_outcome; [left|now right].
  exists p. repeat split; try assumption. now apply holdsId_false.
Qed.

Lemma create_all_or_nothing_witness :
  (exists p, Created Sample.socksDoc = Created p
     /\ [Sample.socksDoc] = ([] ++ [p])%list /\ Product._id p = Sample.idA
     /\ forall d, d ∈ [] -> Product._id d <> Sample.idA)
  \/ ([Sample.socksDoc] = [] /\ forall p, Created Sample.socksDoc <> Created p).
Proof.
  apply (create_all_or_nothing Sample.catalog [] Sample.idA (Sample.socks None)).
  vm_compute. reflexivity.
Defined.

(** X4. [updateById] either answers 200 with the document of the id of the
    body, and then the collection has the same ids in the same order, every
    document is that one or an untouched one with another id, and no
    document with another id is lost; or it answers something else and
    leaves the collection as it was. *)
Theorem update_touches_one store body r store' :
  Controller.updateById store body = (r, store') ->
  (exists p id, r = Ok p /\ UpdateBody.id body = Some id
     /\ castObjectId id = Some (Product._id p)
     /\ map Product._id store' = map Product._id store
     /\ (forall d, d ∈ store' -> d = p \/ (d ∈ store /\ Product._id d <> Product._id p))
     /\ (forall d, d ∈ store -> Product._id d <> Product._id p -> d ∈ store'))
  \/ (store' = store /\ forall p, r <> Ok p).
Proof.
  intros [(p & id & -> & Hbody & Hcast & _ & -> & _)|H]%update_outcome; [left|now right].
  exists p, id. repeat split; try assumption.
  - apply replaceDoc_ids.
  - unfold Model.replaceDoc. intros d (x & -> & Hx)%list_elem_of_fmap.
    destruct (String.eqb _ _) eqn:E; [now left|].
    right. split; [assumption|]. now apply String.eqb_neq.
  - intros d Hd Hne. unfold Model.replaceDoc. apply list_elem_of_fmap.
    exists d. split; [|assumption]. apply String.eqb_neq in Hne. cbv beta. now rewrite Hne.
Qed.

Lemma update_touches_one_witness :
  (exists p id, Ok (Sample.teeDoc 5) = Ok p
     /\ UpdateBody.id (Sample.restock Sample.idA 5) = Some id
     /\ castObjectId id = Some (Product._id p)
     /\ map Product._id [Sample.teeDoc 5] = map Product._id [Sample.teeDoc 120]
     /\ (forall d, d ∈ [Sample.teeDoc 5] ->
           d = p \/ (d ∈ [Sample.teeDoc 120] /\ Product._id d <> Product._id p))
     /\ (forall d, d ∈ [Sample.teeDoc 120] -> Product._id d <> Product._id p ->
           d ∈ [Sample.teeDoc 5]))
  \/ ([Sample.teeDoc 5] = [Sample.teeDoc 120]
      /\ forall p, Ok (Sample.teeDoc 5) <> Ok p).
Proof.
  apply (update_touches_one [Sample.teeDoc 120] (Sample.restock Sample.idA 5)).
  vm_compute. reflexivity.
Defined.

(** X5. In every collection the handlers can produce no two documents share
    an [_id] and no two share a [slug]. *)
Theorem unique_ids_and_slugs store :
  Reachable store ->
  NoDup (map Product._id store) /\ NoDup (map Product.slug store).
Proof.
  induction 1 as [|catalog store newId payload _ [Hids Hslugs]
                  |store body _ [Hids Hslugs]|store ids _ [Hids Hslugs]].
  - split; constructor.
  - destruct (Controller.create catalog store newId payload) as [r st] eqn:E. simpl.
    apply create_outcome in E as [(p & _ & -> & Hid & Hf & Hslug & _)|[-> _]];
      [|now split].
    rewrite holdsId_false in Hf. rewrite sameSlugElsewhere_false in Hslug.
    rewrite !map_app. simpl. split; apply NoDup_app; (split; [assumption|]);
      (split; [|apply NoDup_singleton]).
    + intros x (d & -> & Hd)%list_elem_of_fmap Heq%list_elem_of_singleton.
      apply (Hf d Hd). congruence.
    + intros x (d & -> & Hd)%list_elem_of_fmap Heq%list_elem_of_singleton.
      apply (Hslug d Hd); [|assumption]. rewrite Hid. now apply Hf.
  - destruct (Controller.updateById store body) as [r st] eqn:E. simpl.
    apply update_outcome in E as [(p & id & _ & _ & _ & _ & -> & Hslug)|[-> _]];
      [|now split].
    split; [now rewrite replaceDoc_ids|].
    apply replaceDoc_slugs; [assumption..|]. now apply sameSlugElsewhere_false.
  - unfold Controller.bulkDelete, Model.deleteMany.
    repeat case_match; simplify_eq; simpl; try (now split);
      split; now apply NoDup_fmap_filter.
Qed.

Lemma unique_ids_and_slugs_witness :
  NoDup (map Product._id [Sample.socksDoc]) /\ NoDup (map Product.slug [Sample.socksDoc]).
Proof.
  apply (unique_ids_and_slugs [Sample.socksDoc]).
  assert (snd (Controller.create Sample.catalog [] Sample.idA (Sample.socks None))
          = [Sample.socksDoc]) as E by (vm_compute; reflexivity).
  rewrite <- E. apply reach_create, reach_empty.
Defined.

Section DeleteMore.

Lemma validIds_nonempty store ids r store' :
  Controller.bulkDelete store ids = (Ok r, store') ->
  exists l, ids = Some l /\ Controller.validIds l <> []
    /\ Controller.DeleteReport.requested r = Controller.validIds l
    /\ store' = filter (fun d => Product._id d ∉ map newObjectId (Controller.validIds l)) store
    /\ Controller.DeleteReport.deletedCount r
       = length (filter (fun d => Product._id d ∈ map newObjectId (Controller.validIds l))
                   store).
Proof.
  unfold Controller.bulkDelete, Model.deleteMany.
  destruct ids as [[|i l]|]; try discriminate.
  destruct (Controller.validIds (i :: l)) as [|v vs] eqn:E; [discriminate|].
  intros [= <- <-]. exists (i :: l). rewrite E. simpl. auto 10.
Qed.

Lemma bulkDelete_eq store l :
  Controller.validIds l <> [] ->
  Controller.bulkDelete store (Some l)
  = (Ok {| Controller.DeleteReport.requested := Controller.validIds l;
           Controller.DeleteReport.deletedCount :=
             length (filter (fun d => Product._id d
                                      ∈ map newObjectId (Controller.validIds l)) store) |},
     filter (fun d => Product._id d ∉ map newObjectId (Controller.validIds l)) store).
Proof.
  intros Hne. unfold Controller.bulkDelete, Model.deleteMany.
  destruct l as [|i l']; [now destruct Hne|].
  destruct (Controller.validIds (i :: l')) as [|v vs] eqn:E; [now destruct Hne|].
  reflexivity.
Qed.

Lemma filter_fixed {A} (P : A -> Prop) `{!forall x, Decision (P x)} (l : list A) :
  Forall P l -> filter P l = l.
Proof.
  induction 1 as [|x t Hx _ IH]; [reflexivity|].
  rewrite filter_cons. destruct (decide (P x)); [now rewrite IH|contradiction].
Qed.

Lemma filter_none {A} (P : A -> Prop) `{!forall x, Decision (P x)} (l : list A) :
  Forall (fun x => ~ P x) l -> filter P l = [].
Proof.
  induction 1 as [|x t Hx _ IH]; [reflexivity|].
  rewrite filter_cons. destruct (decide (P x)); [contradiction|exact IH].
Qed.

Lemma findById_none store oid :
  (forall d, d ∈ store -> Product._id d <> oid) -> Model.findById store oid = None.
Proof.
  unfold Model.findById. induction store as [|d t IH]; simpl; intros H; [reflexivity|].
  assert (String.eqb (Product._id d) oid = false) as ->
    by (apply String.eqb_neq, H; constructor).
  apply IH. intros x Hx. apply H. now constructor.
Qed.

End DeleteMore.

(** X6. Repeating a bulk delete that was answered 200 is answered 200 again
    with the same requested ids, [deletedCount] 0 and the collection
    unchanged. *)
Theorem bulkDelete_twice store ids r store' :
  Controller.bulkDelete store ids = (Ok r, store') ->
  Controller.bulkDelete store' ids
  = (Ok {| Controller.DeleteReport.requested := Controller.DeleteReport.requested r;
           Controller.DeleteReport.deletedCount := 0 |}, store').
Proof.
  intros (l & -> & Hne & Hreq & -> & _)%validIds_nonempty.
  rewrite (bulkDelete_eq _ l Hne), Hreq.
  set (oids := map newObjectId (Controller.validIds l)) in *.
  assert (Forall (fun d => Product._id d ∉ oids)
            (filter (fun d => Product._id d ∉ oids) store)) as Hall.
  { apply Forall_forall. now intros d [? _]%list_elem_of_filter. }
  rewrite (filter_fixed _ _ Hall).
  rewrite (filter_none (fun d => Product._id d ∈ oids)); [reflexivity|].
  eapply Forall_impl; [exact Hall|]. simpl. tauto.
Qed.

Lemma bulkDelete_twice_witness :
  Controller.bulkDelete [] (Some [Sample.idA; "bad-id"; Sample.idB])
  = (Ok {| Controller.DeleteReport.requested := [Sample.idA; Sample.idB];
           Controller.DeleteReport.deletedCount := 0 |}, []).
Proof.
  apply (bulkDelete_twice [Sample.teeDoc 120] (Some [Sample.idA; "bad-id"; Sample.idB])
           {| Controller.DeleteReport.requested := [Sample.idA; Sample.idB];
              Controller.DeleteReport.deletedCount := 1 |} []).
  vm_compute. reflexivity.
Defined.

(** X7. After a bulk delete answered 200, [getOne] on any well-formed id of
    the request is answered 404, whatever the catalog. *)
Theorem deleted_is_not_found catalog store ids r store' l id :
  Controller.bulkDelete store ids = (Ok r, store') ->
  ids = Some l -> id ∈ l -> Js.isHex24 id = true ->
  Controller.getOne catalog store' id = NotFound.
Proof.
  intros (l' & Hids & _ & _ & -> & _)%validIds_nonempty -> Hin Hhex.
  injection Hids as <-.
  unfold Controller.getOne, castObjectId. rewrite Hhex.
  rewrite findById_none; [reflexivity|].
  intros d [Hd _]%list_elem_of_filter Heq. apply Hd. rewrite Heq.
  apply list_elem_of_fmap. exists id. split; [reflexivity|].
  now apply validIds_elem.
Qed.

Lemma deleted_is_not_found_witness :
  Controller.getOne Sample.catalog [] Sample.idA = NotFound.
Proof.
  apply (deleted_is_not_found Sample.catalog [Sample.teeDoc 120]
           (Some [Sample.idA; "bad-id"; Sample.idB])
           {| Controller.DeleteReport.requested := [Sample.idA; Sample.idB];
              Controller.DeleteReport.deletedCount := 1 |} []
           [Sample.idA; "bad-id"; Sample.idB] Sample.idA).
  - vm_compute. reflexivity.
  - reflexivity.
  - constructor.
  - vm_compute. reflexivity.
Defined.

(** X9. After [create] answered 201 under a canonical new id, a bulk delete
    of that one id removes one document and gives back the collection as
    it was before the create. *)
Theorem create_then_delete catalog store newId payload p store' :
  Controller.create catalog store newId payload = (Created p, store') ->
  castObjectId newId = Some newId ->
  Controller.bulkDelete store' (Some [newId])
  = (Ok {| Controller.DeleteReport.requested := [newId];
           Controller.DeleteReport.deletedCount := 1 |}, store).
Proof.
  intros [(q & [= <-] & -> & Hid & Hf & _)|[_ H]]%create_outcome Hcast;
    [|now destruct (H p)].
  unfold castObjectId in Hcast. destruct (Js.isHex24 newId) eqn:Hhex; [|discriminate].
  injection Hcast as Hcanon. rewrite holdsId_false in Hf.
  unfold Controller.bulkDelete, Controller.validIds, Model.deleteMany. simpl.
  rewrite Hhex. simpl. rewrite Hcanon. rewrite !filter_app, !filter_cons, !filter_nil.
  destruct (decide (Product._id p ∉ [newId])) as [Hn|_];
    [destruct Hn; rewrite Hid; constructor|].
  destruct (decide (Product._id p ∈ [newId])) as [_|Hn];
    [|destruct Hn; rewrite Hid; constructor].
  rewrite (filter_fixed (fun d => Product._id d ∉ [newId])),
    (filter_none (fun d => Product._id d ∈ [newId])).
  - now rewrite app_nil_r.
  - apply Forall_forall. intros d Hd Heq%list_elem_of_singleton. now apply (Hf d).
  - apply Forall_forall. intros d Hd Heq%list_elem_of_singleton. now apply (Hf d).
Qed.

Lemma create_then_delete_witness :
  Controller.bulkDelete [Sample.socksDoc] (Some [Sample.idA])
  = (Ok {| Controller.DeleteReport.requested := [Sample.idA];
           Controller.DeleteReport.deletedCount := 1 |}, []).
Proof.
  apply (create_then_delete Sample.catalog [] Sample.idA (Sample.socks None)
           Sample.socksDoc [Sample.socksDoc]); vm_compute; reflexivity.
Defined.

(** ** What create checks and what it stores *)

Section CreateFacts.

Lemma prepare_inv tm sm doc p :
  Model.prepare tm sm doc = inr p ->
  exists p1, Model.preValidate doc = inr p1
    /\ Model.validProductDoc p1 = true
    /\ p = Model.preSave tm sm p1.
Proof.
  unfold Model.prepare. destruct (Model.preValidate doc) as [e|p1]; [discriminate|].
  destruct (Model.validProductDoc p1) eqn:E; [|discriminate].
  intros [= <-]. eauto.
Qed.

Lemma preValidate_keeps doc p1 :
  Model.preValidate doc = inr p1 ->
  Product.variants p1 = Product.variants doc
  /\ Product.slug p1 = Product.slug doc
  /\ Product.title p1 = Product.title doc.
Proof.
  unfold Model.preValidate. repeat case_match; intros [= <-]; auto.
Qed.

Lemma prepare_variants tm sm doc p :
  Model.prepare tm sm doc = inr p -> Product.variants p = Product.variants doc.
Proof.
  intros (p1 & Hpre & _ & ->)%prepare_inv.
  destruct (preSave_keeps tm sm p1) as (_ & -> & _).
  now apply preValidate_keeps in Hpre as (-> & _).
Qed.

Lemma firstFailure_none {A} (check : A -> option Failure) l :
  Controller.firstFailure check l = None <-> forall x, x ∈ l -> check x = None.
Proof.
  induction l as [|y t IH]; simpl.
  - split; [intros _ x Hx; inversion Hx|reflexivity].
  - destruct (check y) eqn:E.
    + split; [discriminate|]. intros H. rewrite <- E. apply H. constructor.
    + rewrite IH. split.
      * intros H x [->|Hx]%elem_of_cons; auto.
      * intros H x Hx. apply H. now constructor.
Qed.

Lemma checkPairs_hex variants :
  Controller.checkPairs variants = None ->
  Forall (fun id => Js.isHex24 id = true) (Controller.allAttrIds variants).
Proof.
  unfold Controller.checkPairs. rewrite firstFailure_flat, firstFailure_none.
  intros H. apply Forall_forall. intros id.
  unfold Controller.allAttrIds.
  intros (v & Hv & (pair & <- & Hpair)%in_map_iff)%distinct_elem%list_elem_of_In%in_flat_map.
  assert (pair ∈ flat_map InputVariant.values variants) as Hin
    by (apply list_elem_of_In, in_flat_map; eauto).
  specialize (H pair Hin). unfold Controller.checkPair in H.
  destruct (Js.isHex24 (InputVariantValue.attributeId pair)); [reflexivity|discriminate].
Qed.

(** The path of [create] through its checks when the payload has variants. *)
Lemma create_variants catalog store newId payload v vs :
  Payload.variants payload = Some (v :: vs) ->
  let variants := v :: vs in
  let ids := Controller.allAttrIds variants in
  (exists f, Controller.create catalog store newId payload = (BadRequest f, store)
             /\ isMainFailure f = false)
  \/ exists attrs,
       Model.findAttributes catalog ids = Some attrs
       /\ (forall a, a ∈ attrs -> a ∈ catalog)
       /\ Controller.checkPairs variants = None
       /\ Controller.checkAllValues (Controller.valuesByAttr attrs) variants = None
       /\ match Controller.resolveMain ids (Payload.mainAttributeId payload) with
          | inl f => Controller.create catalog store newId payload = (BadRequest f, store)
          | inr main =>
              match Controller.checkMainEverywhere main 0 variants with
              | Some f =>
                  Controller.create catalog store newId payload = (BadRequest f, store)
              | None =>
                  Controller.create catalog store newId payload
                  = Controller.persistNew store payload
                      (Controller.newDocument newId payload (Some main)
                         (map Controller.cleanVariant variants))
              end
          end.
Proof.
  intros Hv variants ids. unfold Controller.create. rewrite Hv. fold variants.
  destruct (forallb Controller.variantShapeOk variants); cbn [negb];
    [|left; eexists; split; reflexivity].
  destruct (Controller.checkPairs variants) as [f|] eqn:Hpairs;
    [left; exists f; split; [reflexivity|now apply checkPairs_not_main in Hpairs]|].
  fold ids.
  destruct (findAttributes_hex catalog ids (checkPairs_hex _ Hpairs)) as [attrs Hattrs].
  rewrite Hattrs.
  case_bool_decide; cbn [negb]; [|left; eexists; split; reflexivity].
  destruct (Controller.checkAllValues _ variants) as [f|] eqn:Hvalues;
    [left; exists f; split; [reflexivity|now apply checkAllValues_not_main in Hvalues]|].
  right. exists attrs. split; [reflexivity|].
  split; [now apply findAttributes_sub with (ids := ids)|].
  split; [reflexivity|]. split; [assumption|].
  destruct (Controller.resolveMain _ _); [reflexivity|].
  destruct (Controller.checkMainEverywhere _ _ _); reflexivity.
Qed.

Lemma resolveMain_needs_main ids supplied :
  length ids <> 1%nat -> truthy supplied = false ->
  Controller.resolveMain ids supplied = inl MainAttributeRequired.
Proof.
  intros Hlen Hs. unfold Controller.resolveMain.
  destruct ids as [|a [|b t]]; [|now destruct Hlen|];
    (destruct supplied as [m|]; [|reflexivity]; now rewrite Hs).
Qed.

End CreateFacts.

(** ** One attribute across the variants *)

Section SingleAttributeFacts.

Lemma hex_truthy a : Js.isHex24 a = true -> truthy (Some a) = true.
Proof.
  intros H. unfold truthy. destruct (String.eqb_spec a ""); [|reflexivity].
  subst. discriminate.
Qed.

Lemma cast_hasPairFor a v :
  Model.hasPairFor a (Model.castVariant (Controller.cleanVariant v))
  = Controller.inputHasPairFor a v.
Proof.
  unfold Model.hasPairFor, Controller.inputHasPairFor. cbn.
  induction (InputVariant.values v) as [|p t IH]; [reflexivity|].
  cbn. now rewrite IH.
Qed.

Lemma single_has_pair a variants :
  forallb Controller.variantShapeOk variants = true ->
  Controller.allAttrIds variants = [a] ->
  forallb (Model.hasPairFor a)
    (map Model.castVariant (map Controller.cleanVariant variants)) = true.
Proof.
  intros Hshape Hids. apply forallb_forall.
  intros w (w' & <- & (v & <- & Hv)%in_map_iff)%in_map_iff.
  rewrite cast_hasPairFor.
  rewrite forallb_forall in Hshape. specialize (Hshape v Hv).
  unfold Controller.variantShapeOk in Hshape. apply andb_prop in Hshape as [_ Hne].
  apply negb_true_iff, bool_decide_eq_false in Hne.
  unfold Controller.inputHasPairFor.
  destruct (InputVariant.values v) as [|pair ps] eqn:E; [congruence|].
  simpl.
  rewrite (pair_attribute_single variants a v pair Hids);
    [now rewrite String.eqb_refl|now apply list_elem_of_In|].
  rewrite E. constructor.
Qed.

(** The hook accepts the document [create] builds when the variants use
    one attribute id. *)
Lemma hook_accepts_single newId payload variants a :
  variants <> [] ->
  forallb Controller.variantShapeOk variants = true ->
  Controller.checkPairs variants = None ->
  Controller.allAttrIds variants = [a] ->
  let doc := Controller.newDocument newId payload (Some a)
               (map Controller.cleanVariant variants) in
  Model.preValidate doc
  = inr (Model.withAggregate doc None (Model.sumStock (Product.variants doc))).
Proof.
  intros Hne Hshape Hpairs Hids doc.
  unfold Model.preValidate.
  assert (bool_decide (Product.variants doc = []) = false) as ->.
  { apply bool_decide_eq_false. cbn. destruct variants; [congruence|discriminate]. }
  cbn [negb].
  assert (Js.isHex24 a = true) as Hhex.
  { pose proof (checkPairs_hex _ Hpairs) as H. rewrite Hids in H.
    now apply Forall_cons in H as [H _]. }
  change (Product.mainAttributeId doc) with (Some a).
  rewrite (hex_truthy a Hhex). cbn [negb].
  change (default "" (Some a)) with a.
  change (Product.variants doc)
    with (map Model.castVariant (map Controller.cleanVariant variants)).
  now rewrite (single_has_pair a variants Hshape Hids).
Qed.

Lemma create_single_checked catalog store newId payload variants a :
  Payload.variants payload = Some variants ->
  Controller.allAttrIds variants = [a] ->
  (exists f, isMainFailure f = false
     /\ Controller.create catalog store newId payload = (BadRequest f, store))
  \/ (variants <> []
      /\ forallb Controller.variantShapeOk variants = true
      /\ Controller.checkPairs variants = None
      /\ Controller.create catalog store newId payload
         = Controller.persistNew store payload
             (Controller.newDocument newId payload (Some a)
                (map Controller.cleanVariant variants))).
Proof.
  intros Hv Hids. unfold Controller.create. rewrite Hv.
  destruct variants as [|v vs]; [discriminate|].
  set (variants := v :: vs) in *.
  assert (variants <> []) as Hne by discriminate. clearbody variants.
  destruct variants as [|v' vs']; [congruence|].
  set (variants := v' :: vs') in *. clearbody variants.
  destruct (forallb Controller.variantShapeOk variants) eqn:Hshape; cbn [negb];
    [|left; eexists; split; [|reflexivity]; reflexivity].
  destruct (Controller.checkPairs variants) as [f|] eqn:Hpairs;
    [left; exists f; split; [now apply checkPairs_not_main in Hpairs|reflexivity]|].
  destruct (findAttributes_hex catalog _ (checkPairs_hex _ Hpairs)) as [attrs Hattrs].
  rewrite Hattrs, Hids.
  case_bool_decide; cbn [negb];
    [|left; eexists; split; [|reflexivity]; reflexivity].
  destruct (Controller.checkAllValues _ variants) as [f|] eqn:Hvalues;
    [left; exists f; split; [now apply checkAllValues_not_main in Hvalues|reflexivity]|].
  rewrite resolveMain_single.
  rewrite checkMainEverywhere_single; [right; auto|assumption|].
  intros w pair. now apply pair_attribute_single.
Qed.

Lemma model_create_error store ss doc p1 e :
  Model.preValidate doc = inr p1 ->
  Model.create store ss doc = inl e ->
  e = ValidationError \/ e = DuplicateKey.
Proof.
  unfold Model.create, Model.prepare. intros ->.
  destruct (Model.validProductDoc p1); [|intros [= <-]; now left].
  destruct (_ || _); [intros [= <-]; now right|discriminate].
Qed.

End SingleAttributeFacts.

(** C3. When the variants of a create request use exactly one distinct
    attributeId [a], the main attribute is resolved to [a] whatever the
    caller supplied (nothing included). The request is then either refused
    with a 400 that is not about the main attribute, the collection
    unchanged, or it reaches the write with the document whose
    [mainAttributeId] is [a]. The [pre("validate")] hook accepts that
    document, and the answer follows the write: 201 with the product
    stored, whose [mainAttributeId] is [a], when the model stores it;
    otherwise 409 or 500, for a taken slug or id, a failed validator or a
    category that cannot be cast, and never for the main attribute. *)
Theorem single_attribute_is_main catalog store newId payload variants a :
  Payload.variants payload = Some variants ->
  Controller.allAttrIds variants = [a] ->
  let doc := Controller.newDocument newId payload (Some a)
               (map Controller.cleanVariant variants) in
  let slugSet := bool_decide (is_Some (Product.slug doc)) in
  (forall supplied,
     Controller.resolveMain (Controller.allAttrIds variants) supplied = inr a)
  /\ ((exists f, isMainFailure f = false
         /\ Controller.create catalog store newId payload = (BadRequest f, store))
      \/ ((exists p1, Model.preValidate doc = inr p1)
          /\ ((snd (Controller.payloadCategory payload) = false
               /\ Controller.create catalog store newId payload
                  = (InternalError "Failed to create product", store))
              \/ (exists e, Model.create store slugSet doc = inl e
                    /\ (e = ValidationError \/ e = DuplicateKey)
                    /\ Controller.create catalog store newId payload
                       = (Controller.caught "Failed to create product" e, store))
              \/ (exists p, Model.create store slugSet doc = inr (p, (store ++ [p])%list)
                    /\ Controller.create catalog store newId payload
                       = (Created p, (store ++ [p])%list)
                    /\ Product.mainAttributeId p = Some a)))).
Proof.
  intros Hv Hids doc slugSet. split; [intros supplied; now rewrite Hids|].
  destruct (create_single_checked catalog store newId payload variants a Hv Hids)
    as [Hbad|(Hne & Hshape & Hpairs & Hcreate)]; [now left|right].
  pose proof (hook_accepts_single newId payload variants a Hne Hshape Hpairs Hids) as Hhook.
  fold doc in Hhook, Hcreate. split; [eauto|].
  rewrite Hcreate. unfold Controller.persistNew. fold slugSet.
  destruct (snd (Controller.payloadCategory payload)); [|now left].
  right. destruct (Model.create store slugSet doc) as [e|[p store']] eqn:E.
  - left. exists e. split; [reflexivity|]. split; [|reflexivity].
    exact (model_create_error store slugSet doc _ e Hhook E).
  - right. exists p.
    pose proof (created_main _ _ _ _ _ E) as Hmain.
    apply model_create_ok in E as (_ & -> & _). auto.
Qed.

Lemma single_attribute_is_main_witness :
  Controller.allAttrIds (default [] (Payload.variants (Sample.socks None)))
  = [Sample.sizeId]
  /\ Payload.mainAttributeId (Sample.socks None) = None
  /\ Controller.create Sample.catalog [] Sample.idA (Sample.socks None)
     = (Created Sample.socksDoc, [Sample.socksDoc])
  /\ Product.mainAttributeId Sample.socksDoc = Some Sample.sizeId.
Proof.
  assert (Controller.allAttrIds (default [] (Payload.variants (Sample.socks None)))
          = [Sample.sizeId]) as Hids by (vm_compute; reflexivity).
  split; [exact Hids|]. split; [reflexivity|].
  destruct (single_attribute_is_main Sample.catalog [] Sample.idA (Sample.socks None)
              _ Sample.sizeId eq_refl Hids)
    as (_ & [(f & _ & H)|(_ & [(H & _)|[(e & H & _)|(p & H & Hc & Hm)]])]).
  - vm_compute in H. discriminate.
  - vm_compute in H. discriminate.
  - vm_compute in H. discriminate.
  - vm_compute in H. injection H as <-. split; [|exact Hm].
    rewrite Hc. reflexivity.
Defined.

(** X10. A create request whose variants do not use exactly one distinct
    attributeId and that carries no (or an empty) [mainAttributeId] is
    answered 400 and changes nothing: by an earlier check of the request,
    or else with "Provide 'mainAttributeId' explicitly". *)
Theorem several_attributes_need_main catalog store newId payload v vs :
  Payload.variants payload = Some (v :: vs) ->
  length (Controller.allAttrIds (v :: vs)) <> 1%nat ->
  truthy (Payload.mainAttributeId payload) = false ->
  exists f,
    Controller.create catalog store newId payload = (BadRequest f, store)
    /\ (f = MainAttributeRequired \/ isMainFailure f = false).
Proof.
  intros Hv Hlen Hmain.
  destruct (create_variants catalog store newId payload v vs Hv)
    as [(f & Hf & Hnot)|(attrs & _ & _ & _ & _ & H)]; [eauto|].
  rewrite (resolveMain_needs_main _ _ Hlen Hmain) in H. eauto.
Qed.

Lemma several_attributes_need_main_witness :
  exists f,
    Controller.create Sample.catalog [] Sample.idB
      (Sample.payload "Tee" "tee" None None None (Some Sample.twoAxes))
    = (BadRequest f, [])
    /\ (f = MainAttributeRequired \/ isMainFailure f = false).
Proof.
  apply (several_attributes_need_main Sample.catalog [] Sample.idB
           (Sample.payload "Tee" "tee" None None None (Some Sample.twoAxes))
           (Sample.variant "TEE-S-BLK" 18
              [Sample.pair Sample.sizeId Sample.sizeS 8;
               Sample.pair Sample.colorId Sample.black 10]) []).
  - reflexivity.
  - vm_compute. discriminate.
  - reflexivity.
Defined.

Section CreatedFacts.

Lemma persistNew_created store payload doc p store' :
  Controller.persistNew store payload doc = (Created p, store') ->
  exists p1, Model.preValidate doc = inr p1
    /\ Model.validProductDoc p1 = true
    /\ p = Model.preSave true (bool_decide (is_Some (Product.slug doc))) p1.
Proof.
  unfold Controller.persistNew.
  destruct (snd (Controller.payloadCategory payload)); [|discriminate].
  destruct (Model.create store _ doc) as [e|[q st]] eqn:E.
  - intros H. injection H as H _. now apply caught_not_created in H.
  - intros [= <- <-]. apply model_create_ok in E as (E & _). now apply prepare_inv.
Qed.

Lemma created_variants_of catalog store newId payload p store' :
  Controller.create catalog store newId payload = (Created p, store') ->
  match Payload.variants payload with
  | None | Some [] => Product.variants p = []
  | Some variants =>
      Product.variants p
      = map Model.castVariant (map Controller.cleanVariant variants)
      /\ exists attrs,
           (forall a, a ∈ attrs -> a ∈ catalog)
           /\ Controller.checkAllValues (Controller.valuesByAttr attrs) variants = None
  end.
Proof.
  intros H.
  assert (forall doc, Controller.persistNew store payload doc = (Created p, store') ->
            Product.variants p = Product.variants doc) as Hkeep.
  { intros doc (p1 & Hpre & _ & ->)%persistNew_created.
    destruct (preSave_keeps true (bool_decide (is_Some (Product.slug doc))) p1)
      as (_ & -> & _).
    now apply preValidate_keeps in Hpre as (-> & _). }
  destruct (Payload.variants payload) as [[|v vs]|] eqn:Hv.
  - unfold Controller.create in H. rewrite Hv in H.
    repeat case_match; simplify_eq. now apply Hkeep in H.
  - destruct (create_variants catalog store newId payload v vs Hv)
      as [(f & Hf & _)|(attrs & _ & Hsub & _ & Hvalues & Hrest)]; [congruence|].
    destruct (Controller.resolveMain _ _) as [f|main]; [congruence|].
    destruct (Controller.checkMainEverywhere _ _ _) as [f|]; [congruence|].
    rewrite Hrest in H. apply Hkeep in H. split; [exact H|]. eauto.
  - unfold Controller.create in H. rewrite Hv in H.
    repeat case_match; simplify_eq. now apply Hkeep in H.
Qed.

Lemma valuesByAttr_lookup attrs k allowed :
  Controller.valuesByAttr attrs !! k = Some allowed ->
  exists a, a ∈ attrs /\ Attribute._id a = k
    /\ allowed = list_to_set (map AttributeValue._id (Attribute.values a)).
Proof.
  unfold Controller.valuesByAttr.
  intros [(a & Ha & Hk & Hx)|H]%fold_insert_lookup; [eauto|].
  now rewrite lookup_empty in H.
Qed.

Lemma checkValues_none attrs pair :
  Controller.checkValues (Controller.valuesByAttr attrs) pair = None ->
  exists a, a ∈ attrs
    /\ Attribute._id a = InputVariantValue.attributeId pair
    /\ forall vid, vid ∈ toArray (InputVariantValue.attributesValueId pair) ->
         vid ∈ map AttributeValue._id (Attribute.values a).
Proof.
  unfold Controller.checkValues.
  destruct (_ !! _) as [allowed|] eqn:E; [|discriminate].
  case_bool_decide as Hbad; [|discriminate]. intros _.
  apply valuesByAttr_lookup in E as (a & Ha & Hid & ->).
  exists a. split; [assumption|]. split; [assumption|].
  intros vid Hvid.
  destruct (decide (vid ∈ map AttributeValue._id (Attribute.values a))) as [|Hn];
    [assumption|].
  assert (vid ∈ filter (fun x => x ∉ (list_to_set (map AttributeValue._id
            (Attribute.values a)) : gset string))
            (toArray (InputVariantValue.attributesValueId pair))) as Hin.
  { apply list_elem_of_filter. split; [|assumption]. now rewrite elem_of_list_to_set. }
  rewrite Hbad in Hin. inversion Hin.
Qed.

End CreatedFacts.

(** X11. Every pair of a product [create] has just stored refers to an
    attribute of the catalog the request was checked against, and each of
    its value ids is a value of that attribute. *)
Theorem created_references_exist catalog store newId payload p store' v pair :
  Controller.create catalog store newId payload = (Created p, store') ->
  v ∈ Product.variants p -> pair ∈ Variant.values v ->
  exists a, a ∈ catalog
    /\ Attribute._id a = VariantValue.attributeId pair
    /\ forall vid, vid ∈ toArray (VariantValue.attributesValueId pair) ->
         vid ∈ map AttributeValue._id (Attribute.values a).
Proof.
  intros H%created_variants_of Hv Hpair.
  destruct (Payload.variants payload) as [[|w ws]|];
    [rewrite H in Hv; inversion Hv| |rewrite H in Hv; inversion Hv].
  destruct H as (Hvs & attrs & Hsub & Hvalues).
  rewrite Hvs, map_map in Hv.
  apply list_elem_of_fmap in Hv as (iv & -> & Hiv).
  simpl in Hpair. rewrite map_map in Hpair.
  apply list_elem_of_fmap in Hpair as (ip & -> & Hip). simpl.
  unfold Controller.checkAllValues in Hvalues.
  rewrite firstFailure_flat, firstFailure_none in Hvalues.
  assert (ip ∈ flat_map InputVariant.values (w :: ws)) as Hin.
  { apply list_elem_of_In, in_flat_map. exists iv.
    split; now apply list_elem_of_In. }
  destruct (checkValues_none attrs ip (Hvalues ip Hin)) as (a & Ha & Hid & Hall).
  exists a. auto.
Qed.

Lemma created_references_exist_witness :
  exists a, a ∈ Sample.catalog
    /\ Attribute._id a = Sample.sizeId
    /\ forall vid, vid ∈ [Sample.sizeS] ->
         vid ∈ map AttributeValue._id (Attribute.values a).
Proof.
  apply (created_references_exist Sample.catalog [] Sample.idA (Sample.socks None)
           Sample.socksDoc [Sample.socksDoc]
           (Sample.variantDoc "SOCKS-S" 30 [Sample.pairDoc Sample.sizeId Sample.sizeS 30])
           (Sample.pairDoc Sample.sizeId Sample.sizeS 30)).
  - vm_compute. reflexivity.
  - constructor.
  - constructor.
Defined.

(** ** Reading what was created *)

Section ResolutionFacts.











End ResolutionFacts.



Section SlugOnWrite.

Lemma normalized_setters s :
  Js.trim (Js.toLowerCase (normalizeSlug s)) = normalizeSlug s.
Proof.
  rewrite <- (str_chars (normalizeSlug s)) at 2.
  unfold Js.trim, Js.toLowerCase. rewrite chars_str. f_equal.
  destruct (normalize_chars_shaped (Js.chars s)) as [Hrun _].
  rewrite <- normalizeSlug_chars in Hrun.
  pose proof (slug_run_chars true _ Hrun) as Hall.
  rewrite map_lower_fixed by (eapply Forall_impl; [exact Hall|]; simpl; tauto).
  apply trim_chars_fixed. eapply Forall_impl; [exact Hall|]. simpl. tauto.
Qed.

Lemma create_persisted catalog store newId payload p store' :
  Controller.create catalog store newId payload = (Created p, store') ->
  exists main variants,
    Controller.persistNew store payload
      (Controller.newDocument newId payload main variants) = (Created p, store').
Proof.
  unfold Controller.create. intros H. repeat case_match; simplify_eq; eauto.
Qed.

Lemma update_saved store body p store' :
  Controller.updateById store body = (Ok p, store') ->
  exists old category,
    Model.findById store (Product._id p) = Some old
    /\ Model.save store old (Controller.applyBody body old category) = inr (p, store').
Proof.
  intros H. pose proof H as [(q & id & [= <-] & _ & _ & [old Hold] & _)|[_ Hno]]%update_outcome;
    [|now destruct (Hno p)].
  unfold Controller.updateById in H.
  destruct (UpdateBody.id body) as [id'|]; [|discriminate].
  destruct (isValidObjectId id'); simpl in H; [|discriminate].
  destruct (castObjectId id' ≫= Model.findById store) as [old'|] eqn:Ef; [|discriminate].
  destruct (UpdateBody.mainBuild body); [discriminate|].
  destruct (Controller.updatedCategory _ _) as [category|]; [|discriminate].
  assert (exists q st, Model.save store old' (Controller.applyBody body old' category)
                       = inr (q, st) /\ (Ok q, st) = (Ok p, store')) as (q & st & Hs & Heq).
  { destruct (UpdateBody.variants body); try discriminate;
      (destruct (Model.save store old' _) as [e|[q st]];
       [injection H as H _; now apply caught_not_ok in H|eauto]). }
  injection Heq as -> ->. exists old', category. split; [|exact Hs].
  apply bind_Some in Ef as (oid & _ & Ef).
  apply model_save_slug in Hs as (Hid & _).
  change (Product._id (Controller.applyBody body old' category))
    with (Product._id old') in Hid.
  assert (Product._id old' = oid) as Hoid.
  { unfold Model.findById in Ef. apply find_some in Ef as [_ Ef].
    now apply String.eqb_eq in Ef. }
  now rewrite Hid, Hoid.
Qed.

Lemma preSave_title_slug tm sm p1 :
  Product.title (Model.preSave tm sm p1) = Product.title p1
  /\ Product.slug (Model.preSave tm sm p1)
     = if tm && negb sm
       then match Product.title p1 with
            | Some t => Some (slugFromTitle t)
            | None => Product.slug p1
            end
       else Product.slug p1.
Proof.
  unfold Model.preSave. destruct tm, sm; simpl;
    destruct (Product.title p1) eqn:E; simpl; rewrite ?E; split; reflexivity.
Qed.

End SlugOnWrite.

(** X12. A product is only created when the payload carries a slug, and the
    slug stored is its normalisation, which is not empty. (The hook that
    derives a slug from the title runs after the validators, so it cannot
    stand in for a missing slug on create.) *)
Theorem created_slug_is_normalized catalog store newId payload p store' :
  Controller.create catalog store newId payload = (Created p, store') ->
  exists s, Payload.slug payload = Some s
    /\ Product.slug p = Some (normalizeSlug s)
    /\ normalizeSlug s <> "".
Proof.
  intros (main & variants & (p1 & Hpre & Hvalid & ->)%persistNew_created)%create_persisted.
  apply preValidate_keeps in Hpre as (_ & Hslug & _).
  assert (Model.requiredString (Product.slug p1) = true) as Hreq.
  { unfold Model.validProductDoc in Hvalid.
    do 7 (apply andb_prop in Hvalid as [Hvalid _]).
    now apply andb_prop in Hvalid as [_ Hvalid]. }
  set (doc := Controller.newDocument newId payload main variants) in *.
  assert (Product.slug doc
          = (fun s => Js.trim (Js.toLowerCase s)) <$> Controller.payloadSlug payload)
    as Hdoc by reflexivity.
  clearbody doc. unfold Controller.payloadSlug in Hdoc.
  destruct (Payload.slug payload) as [s|] eqn:Es;
    [|rewrite Hslug, Hdoc in Hreq; discriminate Hreq].
  exists s. split; [reflexivity|].
  destruct (truthy (Some s)) eqn:Et.
  - change (Product.slug doc = Some (Js.trim (Js.toLowerCase (normalizeSlug s)))) in Hdoc.
    rewrite normalized_setters in Hdoc. rewrite Hdoc in *.
    assert (Model.preSave true (bool_decide (is_Some (Some (normalizeSlug s)))) p1 = p1)
      as -> by reflexivity.
    split; [assumption|]. intros E. rewrite Hslug, E in Hreq. discriminate.
  - destruct s; [|discriminate Et]. rewrite Hslug, Hdoc in Hreq. discriminate Hreq.
Qed.

Lemma created_slug_is_normalized_witness :
  exists s, Payload.slug (Sample.socks None) = Some s
    /\ Product.slug Sample.socksDoc = Some (normalizeSlug s)
    /\ normalizeSlug s <> "".
Proof.
  apply (created_slug_is_normalized Sample.catalog [] Sample.idA (Sample.socks None)
           Sample.socksDoc [Sample.socksDoc]).
  vm_compute. reflexivity.
Defined.

(** X13. When an update sets [title] and no [slug], the stored title is the
    trimmed new title; if that differs from the old title the stored slug
    is derived from it by the [pre("save")] hook, otherwise the slug is
    kept. *)
Theorem renamed_slug_follows_title store body p store' old t :
  Controller.updateById store body = (Ok p, store') ->
  Model.findById store (Product._id p) = Some old ->
  UpdateBody.title body = Val t ->
  UpdateBody.slug body = Undefined ->
  Product.title p = Some (Js.trim t)
  /\ (Product.title old <> Some (Js.trim t) ->
      Product.slug p = Some (slugFromTitle (Js.trim t)))
  /\ (Product.title old = Some (Js.trim t) -> Product.slug p = Product.slug old).
Proof.
  intros (old' & category & Hold & Hsave)%update_saved Hfind Ht Hs.
  rewrite Hfind in Hold. injection Hold as <-.
  unfold Model.save in Hsave.
  set (doc := Controller.applyBody body old category) in *.
  assert (Product.title doc = Some (Js.trim t)) as Hdt.
  { subst doc. cbn [Controller.applyBody Product.title]. now rewrite Ht. }
  assert (Product.slug doc = Product.slug old) as Hds.
  { subst doc. cbn [Controller.applyBody Product.slug]. now rewrite Hs. }
  clearbody doc. rewrite Hdt, Hds in Hsave.
  assert (bool_decide (Product.slug old = Product.slug old) = true) as Hrefl
    by now apply bool_decide_eq_true.
  rewrite Hrefl in Hsave. cbn [negb] in Hsave.
  destruct (Model.prepare _ false doc) as [e|q] eqn:Hp; [discriminate|].
  destruct (Model.sameSlugElsewhere store q); [discriminate|].
  injection Hsave as -> _.
  apply prepare_inv in Hp as (p1 & Hpre & _ & ->).
  apply preValidate_keeps in Hpre as (_ & Hslug & Htitle).
  destruct (preSave_title_slug
              (negb (bool_decide (Some (Js.trim t) = Product.title old))) false p1)
    as [-> ->].
  rewrite Htitle, Hslug, Hdt, Hds, andb_true_r.
  split; [reflexivity|].
  destruct (bool_decide (Some (Js.trim t) = Product.title old)) eqn:E; cbn [negb].
  - apply bool_decide_eq_true in E. split; intros; congruence.
  - apply bool_decide_eq_false in E. split; intros; congruence.
Qed.

Lemma renamed_slug_follows_title_witness :
  Product.title Sample.unnamedTee = Some (Js.trim "!!!")
  /\ (Product.title (Sample.teeDoc 120) <> Some (Js.trim "!!!") ->
      Product.slug Sample.unnamedTee = Some (slugFromTitle (Js.trim "!!!")))
  /\ (Product.title (Sample.teeDoc 120) = Some (Js.trim "!!!") ->
      Product.slug Sample.unnamedTee = Product.slug (Sample.teeDoc 120)).
Proof.
  apply (renamed_slug_follows_title [Sample.teeDoc 120] (Sample.rename Sample.idA "!!!")
           Sample.unnamedTee [Sample.unnamedTee]); vm_compute; reflexivity.
Defined.

(** ** When a discount is not a number *)

Section DiscountFacts.

Lemma signed_not_nan s x : signed s x -> Num.isNaN x = false.
Proof. now destruct x. Qed.

Lemma binary_normalize_not_nan m e :
  Num.isNaN (binary_normalize Num.prec Num.emax m e false) = false.
Proof.
  destruct m as [|q|q]; [reflexivity| |]; simpl;
    eapply signed_not_nan, binary_round_signed.
Qed.

Lemma sub_not_nan mb eb e :
  Num.leb Num.zero e = true -> Num.ltb e Num.infinity = true ->
  Num.isNaN (Num.sub (S754_finite false mb eb) e) = false.
Proof.
  intros H0 Hlt. destruct e as [s|[]| |s m ex]; cbn in H0, Hlt; try discriminate.
  - reflexivity.
  - unfold Num.sub, SFsub. apply binary_normalize_not_nan.
Qed.

Lemma div_not_nan x s m e :
  Num.isNaN x = false -> Num.isNaN (Num.div x (S754_finite s m e)) = false.
Proof.
  intros Hx. destruct x as [sx|sx| |sx mx ex]; try discriminate; try reflexivity.
  unfold Num.div, SFdiv, SFdiv_core_binary.
  set (m' := match _ with Z.pos _ => _ | 0%Z => _ | Z.neg _ => _ end).
  assert (0 <= m')%Z as Hm'.
  { subst m'. destruct (_ - _ - _)%Z; [lia| |lia].
    rewrite Z.shiftl_mul_pow2 by lia. lia. }
  pose proof (Z.div_pos m' (Z.pos m) Hm' eq_refl) as Hq.
  unfold Z.div in Hq. destruct (Z.div_eucl m' (Z.pos m)) as [q r].
  eapply signed_not_nan, binary_round_aux_signed, Hq.
Qed.

Lemma mul_not_nan x s m e :
  Num.isNaN x = false -> Num.isNaN (Num.mul x (S754_finite s m e)) = false.
Proof.
  intros Hx. destruct x as [sx|sx| |sx mx ex]; try discriminate; try reflexivity.
  unfold Num.mul, SFmul. eapply signed_not_nan, binary_round_aux_signed. lia.
Qed.

Lemma round_not_nan x : Num.isNaN x = false -> Num.isNaN (Num.round x) = false.
Proof.
  intros Hx. destruct x as [sx|sx| |sx mx ex]; try discriminate; try reflexivity.
  unfold Num.round. destruct (0 <=? ex)%Z; [reflexivity|].
  destruct (_ =? 0)%Z; [reflexivity|]. apply binary_normalize_not_nan.
Qed.

Lemma hundred : Num.ofZ 100 = S754_finite false 7036874417766400 (-46).
Proof. vm_compute. reflexivity. Qed.

(** The discount of a price and an effective price that are numbers and
    not negative is NaN in one case only: an infinite price and a finite
    effective price. *)
Lemma percentOff_nan b e :
  Num.leb Num.zero b = true -> Num.leb Num.zero e = true ->
  Num.isNaN (Model.percentOff (Some b) (Some e)) = true
  <-> b = Num.infinity /\ Num.ltb e Num.infinity = true.
Proof.
  intros Hb He. unfold Model.percentOff. split.
  - destruct (Num.ltb Num.zero b) eqn:E0; [|discriminate].
    destruct (Num.ltb e b) eqn:E1; [|discriminate]. cbn [andb].
    destruct b as [s|[]| |[] mb eb]; try discriminate.
    + auto.
    + intros H. exfalso. rewrite hundred in H.
      rewrite round_not_nan in H; [discriminate|].
      apply mul_not_nan, div_not_nan, sub_not_nan; [assumption|].
      destruct e as [s|[]| |[] m ex]; try discriminate; reflexivity.
  - intros [-> Hlt]. change (Num.ltb Num.zero Num.infinity) with true. rewrite Hlt.
    cbn [andb].
    destruct e as [s|[]| |[] m ex]; try discriminate; reflexivity.
Qed.

End DiscountFacts.

(** X14. For a variant that passes the schema validators, the discount
    percent is NaN in one case only: a price that is Infinity (as the JSON
    number 1e400 is read) with a sale price that is finite. Without a sale
    price the effective price is the price and the discount is 0. *)
Theorem variant_discount_nan (v : Variant.t) :
  Model.validVariantDoc v = true ->
  (Num.isNaN (Model.variantDiscountPercent v) = true
   <-> Variant.price v = Some Num.infinity
       /\ exists s, Variant.salePrice v = Some s /\ Num.ltb s Num.infinity = true)
  /\ (Variant.salePrice v = None ->
      Model.variantEffectivePrice v = Variant.price v
      /\ Model.variantDiscountPercent v = Num.zero).
Proof.
  intros H. unfold Model.validVariantDoc in H.
  do 6 (apply andb_prop in H as [H _]).
  apply andb_prop in H as [H Hsale]. apply andb_prop in H as [Hsome Hprice].
  unfold Model.variantDiscountPercent, Model.variantEffectivePrice.
  destruct (Variant.price v) as [b|];
    [|apply bool_decide_eq_true in Hsome; destruct Hsome; discriminate].
  cbn in Hprice. split.
  - destruct (Variant.salePrice v) as [s|]; cbn in Hsale.
    + rewrite (percentOff_nan b s Hprice Hsale). split.
      * intros [-> Hlt]. eauto.
      * intros [[= ->] (s' & [= <-] & Hlt)]. auto.
    + split.
      * unfold Model.percentOff. rewrite ltb_irrefl, andb_false_r. discriminate.
      * intros [_ (s & Hs & _)]. discriminate.
  - intros ->. split; [reflexivity|].
    unfold Model.percentOff. now rewrite ltb_irrefl, andb_false_r.
Qed.

Lemma variant_discount_nan_witness :
  Num.isNaN (Model.variantDiscountPercent Sample.overflowVariant) = true
  /\ Model.variantDiscountPercent
       (Sample.variantDoc "SOCKS-S" 30 [Sample.pairDoc Sample.sizeId Sample.sizeS 30])
     = Num.zero.
Proof.
  split.
  - apply (variant_discount_nan Sample.overflowVariant); [reflexivity|].
    split; [reflexivity|]. eexists. split; reflexivity.
  - apply (variant_discount_nan
             (Sample.variantDoc "SOCKS-S" 30 [Sample.pairDoc Sample.sizeId Sample.sizeS 30]));
      reflexivity.
Defined.

(** X15. For every stored product and every time of reading, the
    product's discount percent is NaN in one case only: a price that is
    Infinity with a finite sale price, read within the offer window. *)
Theorem product_discount_nan store p now :
  Reachable store -> p ∈ store ->
  Num.isNaN (Model.discountPercent now p) = true
  <-> Product.price p = Some Num.infinity
      /\ withinOffer now p
      /\ exists s, Product.salePrice p = Some s /\ Num.ltb s Num.infinity = true.
Proof.
  intros Hreach Hin.
  destruct (reachable_stored_valid store p Hreach Hin) as (_ & Hprice & Hsale).
  unfold Model.discountPercent.
  destruct (Product.price p) as [b|] eqn:Eb.
  - cbn in Hprice.
    destruct (effectivePrice_cases now p) as [(s & Hs & Hw & ->)|[Hno ->]].
    + rewrite Hs in Hsale. cbn in Hsale.
      rewrite (percentOff_nan b s Hprice Hsale). split.
      * intros [-> Hlt]. eauto.
      * intros [[= ->] (_ & s' & Hs' & Hlt)]. split; [reflexivity|congruence].
    + rewrite Eb. split.
      * unfold Model.percentOff. rewrite ltb_irrefl, andb_false_r. discriminate.
      * intros (_ & Hw & s & Hs & _). now destruct (Hno s Hs).
  - split; [|intros [? _]; discriminate].
    unfold Model.percentOff. now destruct (Model.effectivePrice now p).
Qed.

Lemma product_discount_nan_witness :
  Reachable [Sample.overflowDoc]
  /\ Num.isNaN (Model.discountPercent 50 Sample.overflowDoc) = true.
Proof.
  assert (Reachable [Sample.overflowDoc]) as H.
  { assert (snd (Controller.create [] [] Sample.idB Sample.overflow)
            = [Sample.overflowDoc]) as E by (vm_compute; reflexivity).
    rewrite <- E. apply reach_create, reach_empty. }
  split; [exact H|].
  apply (product_discount_nan [Sample.overflowDoc] Sample.overflowDoc 50 H);
    [constructor|].
  split; [reflexivity|]. split; [split; discriminate|].
  eexists. split; reflexivity.
Defined.

(** ** Well-formed stored products *)

Section WellFormedFacts.

Lemma written_prepared store p store' :
  Written store p store' -> exists tm sm doc, Model.prepare tm sm doc = inr p.
Proof.
  intros [catalog st newId payload q st' H|st body q st' H].
  - apply create_cases in H as [[_ H]|(ss & doc & q' & [= <-] & _ & H)];
      [now destruct (H q)|].
    apply model_create_ok in H as (H & _). eauto.
  - apply update_cases in H as [[_ H]|(old & doc & q' & [= <-] & _ & _ & H)];
      [now destruct (H q)|].
    apply model_save_ok in H as ((tm & sm & H) & _). eauto.
Qed.

Lemma validValueIds_spec ids :
  Model.validValueIds ids = true ->
  toArray ids <> [] /\ forall vid, vid ∈ toArray ids -> Js.isHex24 vid = true.
Proof.
  destruct ids as [id|l]; simpl.
  - intros H. split; [discriminate|]. now intros vid ->%list_elem_of_singleton.
  - intros [Hne Hall]%andb_prop. split.
    + now apply negb_true_iff, bool_decide_eq_false in Hne.
    + rewrite forallb_forall in Hall. intros vid Hvid. now apply Hall, list_elem_of_In.
Qed.

Lemma valid_pair_wellFormed pair :
  Model.validVariantValueDoc pair = true -> pairWellFormed pair.
Proof.
  unfold Model.validVariantValueDoc. intros H.
  apply andb_prop in H as [H _]. apply andb_prop in H as [H Hmin].
  apply andb_prop in H as [H Hsome]. apply andb_prop in H as [Hattr Hids].
  apply validValueIds_spec in Hids as [Hne Hall].
  unfold pairWellFormed. do 3 (split; [assumption|]).
  destruct (VariantValue.stock pair) as [n|]; [|discriminate].
  exists n. split; [reflexivity|]. exact Hmin.
Qed.

Lemma valid_variant_wellFormed v :
  Model.validVariantDoc v = true -> variantWellFormed v.
Proof.
  intros H. pose proof (valid_pair_docs v H) as Hpairs.
  unfold Model.validVariantDoc in H.
  apply andb_prop in H as [H _]. apply andb_prop in H as [H Hsmin].
  apply andb_prop in H as [H Hssome]. do 2 (apply andb_prop in H as [H _]).
  apply andb_prop in H as [H Hne]. apply andb_prop in H as [H _].
  apply andb_prop in H as [Hpsome Hpmin].
  unfold variantWellFormed. split; [|split; [|split]].
  - now apply negb_true_iff, bool_decide_eq_false in Hne.
  - rewrite forallb_forall in Hpairs. intros pair Hpair.
    now apply valid_pair_wellFormed, Hpairs, list_elem_of_In.
  - destruct (Variant.price v) as [q|]; [|discriminate].
    exists q. split; [reflexivity|]. exact Hpmin.
  - destruct (Variant.stock v) as [n|]; [|discriminate].
    exists n. split; [reflexivity|]. exact Hsmin.
Qed.

Lemma sum_signed stocks acc :
  Forall (fun n => Num.leb Num.zero n = true) stocks -> signed false acc ->
  signed false (fold_left Num.add stocks acc).
Proof.
  intros H. revert acc. induction H as [|n t Hn _ IH]; intros acc Hacc; simpl;
    [assumption|].
  now apply IH, add_signed.
Qed.

Lemma eqb_nonneg x n :
  Num.eqb x n = true -> Num.leb Num.zero n = true -> Num.leb Num.zero x = true.
Proof.
  destruct x as [s|[]| |[] m e], n as [s'|[]| |[] m' e']; cbn; intros H1 H2;
    try discriminate; try reflexivity.
  all: destruct (e ?= e')%Z; try discriminate.
  all: destruct (Pos.compare_cont Eq m m'); discriminate.
Qed.

Lemma preValidate_truthy doc p1 :
  Model.preValidate doc = inr p1 -> Product.variants doc <> [] ->
  truthy (Product.mainAttributeId doc) = true.
Proof.
  unfold Model.preValidate. intros H Hne.
  assert (bool_decide (Product.variants doc = []) = false) as E
    by now apply bool_decide_eq_false.
  rewrite E in H. cbn [negb] in H.
  now destruct (truthy (Product.mainAttributeId doc)).
Qed.

Lemma prepared_wellFormed tm sm doc p :
  Model.prepare tm sm doc = inr p -> wellFormed p.
Proof.
  intros H. destruct (prepare_ok _ _ _ _ H) as (Hstock & Hmain & _ & _ & Hvs & _).
  apply prepare_inv in H as (p1 & Hpre & Hvalid & ->).
  destruct (preSave_keeps tm sm p1) as (_ & Kvs & Kst & Ktot & Kmain & _).
  assert (forall v, v ∈ Product.variants (Model.preSave tm sm p1) -> variantWellFormed v)
    as Hwf.
  { intros v Hv. apply valid_variant_wellFormed.
    rewrite forallb_forall in Hvs. now apply Hvs, list_elem_of_In. }
  unfold wellFormed. split; [|split; [|exact Hwf]].
  - unfold stockConsistent in Hstock.
    destruct (Product.variants (Model.preSave tm sm p1)) as [|v vs] eqn:Evs.
    + rewrite Kst in Hstock. destruct Hstock as (n & Hn & Heq & _).
      apply valid_stock in Hvalid. rewrite Hn in Hvalid.
      rewrite Ktot. rewrite Ktot in Heq. exact (eqb_nonneg _ _ Heq Hvalid).
    + destruct Hstock as (_ & stocks & Hmap & ->). apply signed_nonneg.
      apply sum_signed; [|reflexivity].
      apply Forall_forall. intros n Hn.
      assert (Some n ∈ map Variant.stock (v :: vs)) as Hin
        by (rewrite Hmap; apply list_elem_of_fmap; eauto).
      apply list_elem_of_fmap in Hin as (w & Hw & Hwin).
      destruct (Hwf w Hwin) as (_ & _ & _ & m & Hm & Hpos). congruence.
  - intros Hne. destruct (Hmain Hne) as (m & Hm & _). exists m. split; [assumption|].
    rewrite Kmain in Hm. rewrite Kvs in Hne.
    pose proof Hpre as (Hv1 & _)%preValidate_keeps.
    destruct (preValidate_ok doc p1 Hpre Hvalid) as (_ & _ & _ & Hdoc).
    unfold Model.validProductDoc in Hvalid.
    do 6 (apply andb_prop in Hvalid as [Hvalid _]).
    apply andb_prop in Hvalid as [_ Hhex]. rewrite Hm in Hhex.
    assert (truthy (Some m) = true) as Ht.
    { rewrite <- Hm, Hdoc. apply (preValidate_truthy doc p1 Hpre). now rewrite <- Hv1. }
    now rewrite Ht in Hhex.
Qed.

End WellFormedFacts.

(** X16. Every stored product is well formed: [totalStock] is not negative;
    with variants, [mainAttributeId] is a 24-hex id; every variant has a
    non-negative price and stock and at least one pair; every pair has a
    24-hex attributeId, at least one value id, all of them 24-hex, and a
    non-negative stock. *)
Theorem stored_products_well_formed store p :
  Reachable store -> p ∈ store -> wellFormed p.
Proof.
  intros H. revert p. apply (reachable_all wellFormed); [|exact H].
  intros st q st' (tm & sm & doc & Hp)%written_prepared.
  now apply prepared_wellFormed in Hp.
Qed.

Lemma stored_products_well_formed_witness : wellFormed Sample.socksDoc.
Proof.
  apply (stored_products_well_formed [Sample.socksDoc]).
  - assert (snd (Controller.create Sample.catalog [] Sample.idA (Sample.socks None))
            = [Sample.socksDoc]) as E by (vm_compute; reflexivity).
    rewrite <- E. apply reach_create, reach_empty.
  - constructor.
Defined.

(** ** Paging of the product list *)

Section PagingFacts.

Lemma pagesOf_div total limit :
  (0 < limit)%Z -> Listing.pagesOf total limit = (- ((- total) / limit))%Z.
Proof.
  intros H. destruct limit as [|n|n]; try lia.
  unfold Listing.pagesOf, Qceiling, Qfloor, Qdiv, Qinv, Qmult, Qopp, inject_Z. simpl.
  now rewrite Z.mul_1_r.
Qed.

Lemma pagesOf_spec total limit :
  (0 < limit)%Z ->
  let pages := Listing.pagesOf total limit in
  ((pages - 1) * limit < total <= pages * limit)%Z.
Proof.
  intros H. simpl. rewrite pagesOf_div by assumption.
  pose proof (Z.div_mod (- total) limit ltac:(lia)) as Hdm.
  pose proof (Z.mod_pos_bound (- total) limit H) as Hm. nia.
Qed.

Lemma take_chunks {A} (n : nat) (l : list A) (m : nat) :
  concat (map (fun k => take n (drop (k * n) l)) (seq 0 m)) = take (m * n) l.
Proof.
  induction m as [|m IH]; [reflexivity|].
  rewrite seq_S, map_app, concat_app, IH. simpl. rewrite app_nil_r.
  rewrite take_take_drop. f_equal. lia.
Qed.

Lemma pageItems_chunk (k : nat) (n : Z) matched :
  (0 < n)%Z ->
  Listing.pageItems (Z.of_nat (S k)) n matched
  = map Listing.itemOf (take (Z.to_nat n) (drop (k * Z.to_nat n) matched)).
Proof.
  intros H. unfold Listing.pageItems. do 3 f_equal. nia.
Qed.

End PagingFacts.

(** X17. When [page] and [limit] parse, the answer of [list] has
    [page >= 1], [1 <= limit <= 100], [total] the number of matching
    documents, at most [limit] items, [pages] the least number of pages of
    [limit] items that hold [total], and no item on a page after the last. *)
Theorem list_page_contract matched page limit r :
  Listing.list matched page limit = Some r ->
  (1 <= Listing.Page.page r)%Z
  /\ (1 <= Listing.Page.limit r <= 100)%Z
  /\ Listing.Page.total r = Z.of_nat (length matched)
  /\ (Z.of_nat (length (Listing.Page.items r)) <= Listing.Page.limit r)%Z
  /\ ((Listing.Page.pages r - 1) * Listing.Page.limit r
        < Listing.Page.total r <= Listing.Page.pages r * Listing.Page.limit r)%Z
  /\ ((Listing.Page.pages r < Listing.Page.page r)%Z -> Listing.Page.items r = []).
Proof.
  unfold Listing.list, Listing.pageOf, Listing.limitOf.
  destruct (Listing.parseInt (default "1" page)) as [p|]; [|discriminate].
  destruct (Listing.parseInt (default "12" limit)) as [n|]; [|discriminate].
  simpl. intros [= <-]. simpl.
  set (n' := Z.min (Z.max n 1) 100). set (p' := Z.max p 1).
  assert (1 <= n' <= 100)%Z as Hn by (subst n'; lia).
  assert (1 <= p')%Z as Hp by (subst p'; lia).
  pose proof (pagesOf_spec (Z.of_nat (length matched)) n' ltac:(lia)) as Hpages.
  simpl in Hpages.
  split; [assumption|]. split; [assumption|]. split; [reflexivity|].
  split; [|split; [assumption|]].
  - unfold Listing.pageItems. rewrite length_map, length_take. lia.
  - intros Hbeyond. unfold Listing.pageItems.
    rewrite drop_ge; [now rewrite take_nil|]. nia.
Qed.

Lemma list_page_contract_witness :
  Listing.list [Sample.socksDoc; Sample.onOfferDoc None None] (Some " 2nd") (Some "1")
  = Some {| Listing.Page.items := [Listing.itemOf (Sample.onOfferDoc None None)];
            Listing.Page.page := 2; Listing.Page.limit := 1;
            Listing.Page.total := 2; Listing.Page.pages := 2 |}
  /\ (1 <= 2)%Z /\ (1 <= 1 <= 100)%Z.
Proof.
  assert (Listing.list [Sample.socksDoc; Sample.onOfferDoc None None]
            (Some " 2nd") (Some "1")
          = Some {| Listing.Page.items := [Listing.itemOf (Sample.onOfferDoc None None)];
                    Listing.Page.page := 2; Listing.Page.limit := 1;
                    Listing.Page.total := 2; Listing.Page.pages := 2 |}) as E
    by (vm_compute; reflexivity).
  split; [exact E|].
  destruct (list_page_contract _ _ _ _ E) as (Hp & Hn & _). split; assumption.
Defined.

(** X18. For a limit of at least 1, the items of pages 1 to [pages], one
    after the other, are the matching documents, each once and in order. *)
Theorem pages_partition (limit : Z) matched :
  (1 <= limit)%Z ->
  let pages := Z.to_nat (Listing.pagesOf (Z.of_nat (length matched)) limit) in
  concat (map (fun k => Listing.pageItems (Z.of_nat k) limit matched) (seq 1 pages))
  = map Listing.itemOf matched.
Proof.
  intros Hn pages.
  pose proof (pagesOf_spec (Z.of_nat (length matched)) limit ltac:(lia)) as Hpages.
  simpl in Hpages. fold pages in Hpages.
  rewrite <- (fmap_S_seq 0), <- list_fmap_compose.
  erewrite (list_fmap_ext _ (fun k => map Listing.itemOf
              (take (Z.to_nat limit) (drop (k * Z.to_nat limit) matched))));
    [|intros i k _; apply pageItems_chunk; lia].
  transitivity (map Listing.itemOf (take (pages * Z.to_nat limit) matched));
    [|f_equal; apply take_ge; subst pages; nia].
  rewrite <- take_chunks.
  induction (seq 0 pages) as [|k t IH]; simpl; [reflexivity|].
  rewrite map_app. f_equal. exact IH.
Qed.

Lemma pages_partition_witness :
  concat (map (fun k => Listing.pageItems (Z.of_nat k) 1
                          [Sample.socksDoc; Sample.onOfferDoc None None])
            (seq 1 (Z.to_nat (Listing.pagesOf 2 1))))
  = map Listing.itemOf [Sample.socksDoc; Sample.onOfferDoc None None].
Proof.
  apply (pages_partition 1 [Sample.socksDoc; Sample.onOfferDoc None None]). lia.
Defined.

(** ** The CORS origin check *)

Section OriginFacts.

Lemma code_inj c d : Js.code c = Js.code d -> c = d.
Proof.
  unfold Js.code. intros H.
  rewrite <- (ascii_N_embedding c), <- (ascii_N_embedding d). now rewrite H.
Qed.

Lemma is_prefix_spec sub l :
  App.is_prefix sub l = true <-> exists q, l = (sub ++ q)%list.
Proof.
  revert l; induction sub as [|c t IH]; intros l; simpl.
  - split; [eauto|reflexivity].
  - destruct l as [|d l']; [split; [discriminate|intros [q H]; discriminate]|].
    rewrite andb_true_iff, N.eqb_eq, IH. split.
    + intros [Hc [q ->]]. exists q. now rewrite (code_inj _ _ Hc).
    + intros [q [= -> ->]]. eauto.
Qed.

Lemma includes_chars_spec sub l :
  App.includes_chars sub l = true <-> exists p q, l = (p ++ sub ++ q)%list.
Proof.
  induction l as [|d l' IH]; simpl; rewrite orb_true_iff, is_prefix_spec.
  - split.
    + intros [[q H]|H]; [exists [], q; exact H|discriminate].
    + intros (p & q & H). left. destruct p; [eauto|discriminate].
  - rewrite IH. split.
    + intros [[q H]|(p & q & ->)]; [exists [], q; exact H|exists (d :: p), q; reflexivity].
    + intros (p & q & H). destruct p as [|c p']; [left; eauto|].
      injection H as -> ->. right. eauto.
Qed.

End OriginFacts.

(** X19. The CORS origin check refuses exactly the non-empty origins that
    are not in the allow list, do not contain "localhost" anywhere, when
    NODE_ENV is not "development"; in particular an origin that contains
    "localhost" anywhere is allowed in every environment. *)
Theorem cors_refuses_exactly nodeEnv origin :
  (App.corsOrigin nodeEnv origin = false <->
   exists o, origin = Some o /\ o <> ""
     /\ (o ∉ App.allowedOrigins)
     /\ (forall p q, Js.chars o <> (p ++ Js.chars "localhost" ++ q)%list)
     /\ nodeEnv <> Some "development")
  /\ (forall o p q, Js.chars o = (p ++ Js.chars "localhost" ++ q)%list ->
        App.corsOrigin nodeEnv (Some o) = true).
Proof.
  assert (forall o, App.includes o "localhost" = true <->
            exists p q, Js.chars o = (p ++ Js.chars "localhost" ++ q)%list) as Hinc
    by (intros o; apply includes_chars_spec).
  split.
  - unfold App.corsOrigin. destruct origin as [o|];
      [|split; [discriminate|intros (o & H & _); discriminate]].
    destruct (truthy (Some o)) eqn:Et; cbn [negb].
    + case_bool_decide as Hlist; cbn [orb].
      * split; [discriminate|]. intros (o' & [= <-] & _ & Hn & _). contradiction.
      * destruct (App.includes o "localhost") eqn:Ei.
        -- split; [discriminate|]. intros (o' & [= <-] & _ & _ & Hn & _).
           apply Hinc in Ei as (p & q & Ei). now destruct (Hn p q).
        -- rewrite bool_decide_eq_false. split.
           ++ intros Henv. exists o. split; [reflexivity|].
              split; [intros ->; discriminate Et|]. split; [assumption|].
              split; [|assumption]. intros p q H.
              assert (App.includes o "localhost" = true) by (apply Hinc; eauto).
              congruence.
           ++ intros (o' & [= <-] & _ & _ & _ & Henv). exact Henv.
    + split; [discriminate|]. intros (o' & [= <-] & Hne & _).
      simpl in Et. apply negb_false_iff, String.eqb_eq in Et. contradiction.
  - intros o p q H. unfold App.corsOrigin.
    destruct (negb (truthy (Some o))); [reflexivity|].
    assert (App.includes o "localhost" = true) as -> by (apply Hinc; eauto).
    now rewrite orb_true_r.
Qed.

(** ** Unknown ids and taken slugs *)

Section ConflictFacts.

Lemma preValidate_withId doc id :
  Model.preValidate (withId doc id)
  = match Model.preValidate doc with
    | inl e => inl e
    | inr p => inr (withId p id)
    end.
Proof.
  unfold Model.preValidate. cbn [withId Product.variants Product.mainAttributeId
    Product.price Product.stock].
  repeat case_match; reflexivity.
Qed.

Lemma prepare_withId tm sm doc p id :
  Model.prepare tm sm doc = inr p ->
  Model.prepare tm sm (withId doc id) = inr (withId p id).
Proof.
  unfold Model.prepare. rewrite preValidate_withId.
  destruct (Model.preValidate doc) as [e|p1]; [discriminate|].
  change (Model.validProductDoc (withId p1 id)) with (Model.validProductDoc p1).
  destruct (Model.validProductDoc p1); [|discriminate].
  intros [= <-]. f_equal. unfold Model.preSave.
  destruct (tm && negb sm); [|reflexivity].
  cbn [withId Product.title]. destruct (Product.title p1); reflexivity.
Qed.

Lemma sameSlugElsewhere_true store p d :
  d ∈ store -> Product._id d <> Product._id p -> Product.slug d = Product.slug p ->
  Model.sameSlugElsewhere store p = true.
Proof.
  intros Hd Hid Hslug. destruct (Model.sameSlugElsewhere store p) eqn:E; [reflexivity|].
  rewrite sameSlugElsewhere_false in E. now destruct (E d Hd Hid).
Qed.

(** What [create] comes to does not depend on the collection or on the new
    id before the document is handed to the model. *)
Lemma create_path catalog payload :
  (exists r, forall store newId,
     Controller.create catalog store newId payload = (r, store)
     /\ forall p, r <> Created p)
  \/ exists main variants, forall store newId,
       Controller.create catalog store newId payload
       = Controller.persistNew store payload
           (Controller.newDocument newId payload main variants).
Proof.
  unfold Controller.create.
  repeat case_match; try (right; eexists _, _; intros; reflexivity);
    (left; eexists; intros; split; [reflexivity|discriminate]).
Qed.

End ConflictFacts.

(** X20. [updateById] with a well-formed id that no document has is
    answered 404 and changes nothing, whatever else the body carries. *)
Theorem update_of_unknown_id store body id :
  UpdateBody.id body = Some id -> Js.isHex24 id = true ->
  (forall d, d ∈ store -> Product._id d <> newObjectId id) ->
  Controller.updateById store body = (NotFound, store).
Proof.
  intros Hid Hhex Hnone.
  assert (castObjectId id = Some (newObjectId id)) as Hcast
    by (unfold castObjectId; now rewrite Hhex).
  assert (isValidObjectId id = true) as Hvalid
    by (unfold isValidObjectId; rewrite Hcast; apply bool_decide_eq_true; eauto).
  unfold Controller.updateById. rewrite Hid, Hvalid, Hcast. cbn [negb].
  change (Some (newObjectId id) ≫= Model.findById store)
    with (Model.findById store (newObjectId id)).
  now rewrite findById_none.
Qed.

Lemma update_of_unknown_id_witness :
  Controller.updateById [Sample.teeDoc 120] (Sample.restock Sample.idB 5)
  = (NotFound, [Sample.teeDoc 120]).
Proof.
  apply (update_of_unknown_id [Sample.teeDoc 120] (Sample.restock Sample.idB 5) Sample.idB).
  - reflexivity.
  - vm_compute. reflexivity.
  - intros d ->%list_elem_of_singleton. vm_compute. discriminate.
Defined.

(** X21. After [create] answered 201, a second create of the same payload
    against the same catalog under another new id is answered 409 and
    leaves the collection as it was. *)
Theorem same_payload_twice_conflicts catalog store id1 id2 payload p store' :
  Controller.create catalog store id1 payload = (Created p, store') ->
  id2 <> id1 ->
  Controller.create catalog store' id2 payload = (Conflict, store').
Proof.
  intros H Hne.
  destruct (create_path catalog payload) as [(r & Hr)|(main & variants & Hpath)].
  { destruct (Hr store id1) as [E Hno]. rewrite E in H. injection H as -> _.
    now destruct (Hno p). }
  rewrite Hpath in H |- *.
  set (doc := Controller.newDocument id1 payload main variants) in *.
  change (Controller.newDocument id2 payload main variants) with (withId doc id2).
  unfold Controller.persistNew in *.
  destruct (snd (Controller.payloadCategory payload)); [|discriminate].
  change (Product.slug (withId doc id2)) with (Product.slug doc).
  destruct (Model.create store _ doc) as [e|[q st]] eqn:E;
    [injection H as H _; now apply caught_not_created in H|].
  injection H as -> ->.
  pose proof E as (Hp & _)%model_create_ok.
  apply model_create_fresh in E as (Hid & -> & _).
  unfold Model.create. rewrite (prepare_withId _ _ _ _ id2 Hp).
  rewrite (sameSlugElsewhere_true _ (withId p id2) p); [now rewrite orb_true_r| | |].
  - apply elem_of_app. right. constructor.
  - rewrite Hid. simpl. congruence.
  - reflexivity.
Qed.

Lemma same_payload_twice_conflicts_witness :
  Controller.create Sample.catalog [Sample.socksDoc] Sample.idB (Sample.socks None)
  = (Conflict, [Sample.socksDoc]).
Proof.
  apply (same_payload_twice_conflicts Sample.catalog [] Sample.idA Sample.idB
           (Sample.socks None) Sample.socksDoc [Sample.socksDoc]).
  - vm_compute. reflexivity.
  - vm_compute. discriminate.
Defined.
